(** * cron-describe: the cron expression parser and its fire-time search

    A shallow embedding of [src/cronParser.ts]: the field parser, the
    constructor with its cross-field checks, the effective day set of a
    month, the full-constraint match predicate, the forward and backward
    fire-time searches and the description in words, together with the
    properties the specification states about them and further properties
    of the code.

    Conventions of the embedding.
    - JavaScript numbers that the code only ever uses as integers are [Z];
      a number that may be [NaN] (the result of [parseInt]) is a [jsnum].
    - [undefined] results ([Array.prototype.find], an index past the end)
      are [option]s.
    - A thrown [CronError] is the [Throw] case of [result]; the messages are
      rendered by [message].
    - Integers are exact.  [parseInt] and [toString] agree with JavaScript
      on numbers of magnitude up to 2^53 (reading) and below 10^21
      (printing); a longer run of digits, which JavaScript rounds to a
      double and prints with an exponent, is outside the model.  The values
      of a parsed field are checked against a domain within 0..2099; only
      the step of a field and the offset of [L-N] can be longer.
    - Strings are strings of bytes: blanks, letters and digits are those of
      ASCII.
    - Loops whose termination depends on the data ([for (i = start; i <=
      end; i += step)]) take fuel and answer [OutOfFuel] when it runs out;
      the search loops are bounded by the code's own iteration counter.  A
      loop that answers [OutOfFuel] whatever the fuel is a loop that never
      stops by itself.  The real run then hangs or, where every pass
      pushes to an array, is ended by the engine when the array can grow
      no more ([RangeError: Invalid array length]); either way it ends with
      neither a result nor a [CronError].
    - The repository also holds two older builds of the same class (an
      earlier TypeScript source and its compiled JavaScript); the embedding
      follows [src/cronParser.ts], the file the test suite imports.  The
      functions of the older builds that the specification is compared with
      (their field parser, their validity checks, their nearest-weekday
      resolution) are embedded in the module [Older].
    - The calendar library (luxon) is modelled for zones with a fixed
      offset from UTC, given in seconds ('UTC' is offset 0); zones with
      daylight-saving transitions are outside the model.  Milliseconds are
      dropped: no comparison of the code reads them. *)

From Stdlib Require Import ZArith List Bool String Ascii Lia DecimalString Sorted.
Import ListNotations.
Local Open Scope Z_scope.
Local Open Scope list_scope.

(** ** JavaScript values *)

Inductive jsnum : Type :=
| Num (z : Z)
| NaN.

(** Truthiness of a number: [0] and [NaN] are falsy. *)
Definition truthy (n : jsnum) : bool :=
  match n with
  | Num z => negb (z =? 0)
  | NaN => false
  end.

(** [Array.from({ length: n }, (_, i) => lo + i)]. *)
Definition arrayFrom (n : Z) (lo : Z) : list Z :=
  map (fun i => lo + Z.of_nat i) (seq 0 (Z.to_nat n)).

(** [arr.includes(x)]. *)
Definition includes (x : Z) (arr : list Z) : bool :=
  existsb (Z.eqb x) arr.

(** [arr[0]] and [arr[arr.length - 1]] of an array known to be non-empty
    where the code reads it; the default stands for [undefined]. *)
Definition first (arr : list Z) : Z := hd 0 arr.
Definition lastOf (arr : list Z) : Z := last arr 0.

(** [a ?? b]. *)
Definition nullish {A : Type} (a : option A) (b : option A) : option A :=
  match a with
  | Some _ => a
  | None => b
  end.

(** ** The calendar primitives of luxon, for a fixed-offset zone *)

Module Luxon.

Record Civil : Type := mkCivil {
  year : Z;
  month : Z;
  day : Z;
  hour : Z;
  minute : Z;
  second : Z
}.

(** A luxon [DateTime] is either valid or carries an [invalidReason]. *)
Inductive DateTime : Type :=
| Valid (c : Civil)
| Invalid.

Definition inRange (lo hi x : Z) : bool := (lo <=? x) && (x <=? hi).

Definition isLeapYear (y : Z) : bool :=
  (y mod 4 =? 0) && (negb (y mod 100 =? 0) || (y mod 400 =? 0)).

Definition daysInMonth (y m : Z) : Z :=
  if m =? 2 then (if isLeapYear y then 29 else 28)
  else if (m =? 4) || (m =? 6) || (m =? 9) || (m =? 11) then 30
  else 31.

(** Days since 1970-01-01 of a proleptic Gregorian date. *)
Definition daysFromCivil (y m d : Z) : Z :=
  let y' := if m <=? 2 then y - 1 else y in
  let era := y' / 400 in
  let yoe := y' - era * 400 in
  let mp := if m >? 2 then m - 3 else m + 9 in
  let doy := (153 * mp + 2) / 5 + d - 1 in
  let doe := yoe * 365 + yoe / 4 - yoe / 100 + doy in
  era * 146097 + doe - 719468.

Definition civilFromDays (z : Z) : Z * Z * Z :=
  let z' := z + 719468 in
  let era := z' / 146097 in
  let doe := z' - era * 146097 in
  let yoe := (doe - doe / 1460 + doe / 36524 - doe / 146096) / 365 in
  let doy := doe - (365 * yoe + yoe / 4 - yoe / 100) in
  let mp := (5 * doy + 2) / 153 in
  let d := doy - (153 * mp + 2) / 5 + 1 in
  let m := if mp <? 10 then mp + 3 else mp - 9 in
  let y := yoe + era * 400 in
  (if m <=? 2 then y + 1 else y, m, d).

(** Seconds of local civil time since the local 1970-01-01T00:00:00. *)
Definition toLocalSeconds (c : Civil) : Z :=
  daysFromCivil (year c) (month c) (day c) * 86400
  + hour c * 3600 + minute c * 60 + second c.

Definition ofLocalSeconds (t : Z) : Civil :=
  let days := t / 86400 in
  let r := t mod 86400 in
  let '(y, m, d) := civilFromDays days in
  mkCivil y m d (r / 3600) ((r mod 3600) / 60) (r mod 60).

(** [DateTime.fromObject({ year, month, day, hour, minute, second }, { zone })]:
    out-of-range units give an invalid [DateTime]; 24:00:00 is accepted
    and normalised to the next day. *)
Definition fromObject (y mo d h mi s : Z) : DateTime :=
  if inRange 1 12 mo && inRange 1 (daysInMonth y mo) d
     && inRange 0 59 mi && inRange 0 59 s
  then
    if inRange 0 23 h then Valid (mkCivil y mo d h mi s)
    else if (h =? 24) && (mi =? 0) && (s =? 0)
         then Valid (ofLocalSeconds (toLocalSeconds (mkCivil y mo d 24 0 0)))
         else Invalid
  else Invalid.

(** [DateTime.fromObject({ year, month }).daysInMonth], [undefined] when
    the month is out of range. *)
Definition daysInMonthOf (y mo : Z) : option Z :=
  if inRange 1 12 mo then Some (daysInMonth y mo) else None.

(** [dt.plus({ seconds: n })] (and [minus] for a negative [n]). *)
Definition plusSeconds (d : DateTime) (n : Z) : DateTime :=
  match d with
  | Valid c => Valid (ofLocalSeconds (toLocalSeconds c + n))
  | Invalid => Invalid
  end.

(** [dt.weekday]: 1 is Monday, 7 is Sunday. *)
Definition weekday (y m d : Z) : Z :=
  let w := (daysFromCivil y m d + 4) mod 7 in
  if w =? 0 then 7 else w.

(** [dt.toUnixInteger()] and [DateTime.fromSeconds(t).setZone(zone)] for a
    zone [offset] seconds east of UTC. *)
Definition toUnixInteger (offset : Z) (c : Civil) : Z :=
  toLocalSeconds c - offset.

Definition fromSeconds (offset : Z) (t : Z) : Civil :=
  ofLocalSeconds (t + offset).

End Luxon.

(** ** The parsed model *)

(** [interface CronField { values: number[]; step?: number }]. *)
Record CronField : Type := mkField {
  values : list Z;
  step : option jsnum
}.

Module DayOfMonthModifiers.
Record t : Type := mk {
  lastDay : bool;
  lastDayOffset : jsnum;
  lastWeekday : bool;
  nearestWeekday : bool
}.
End DayOfMonthModifiers.

Module DayOfWeekModifiers.
Record t : Type := mk {
  nthDay : jsnum;
  lastDay : bool
}.
End DayOfWeekModifiers.

(** The fields of [class CronParser]; [timezone] is the zone's offset from
    UTC in seconds. *)
Record CronParser : Type := mkCronParser {
  timezone : Z;
  seconds : CronField;
  minutes : CronField;
  hours : CronField;
  daysOfMonth : CronField;
  months : CronField;
  daysOfWeek : CronField;
  years : CronField;
  dayOfMonthModifiers : DayOfMonthModifiers.t;
  dayOfWeekModifiers : DayOfWeekModifiers.t;
  cronString : string
}.

(** ** Errors *)

Inductive CronError : Type :=
| InvalidFieldCount
| DayFieldsConflict
| InvalidStep (field : string)
| InvalidValue (text : string) (min max : Z)
| InvalidRange (range : string) (min max : Z)
| InvalidDate (day month : Z)
| InvalidNth
| NoNextExecution
| NoPreviousExecution.

(** The outcome of a call: a value, a thrown [CronError], or a loop that
    did not stop within the fuel. *)
Inductive result (A : Type) : Type :=
| Ok (a : A)
| Throw (e : CronError)
| OutOfFuel.

Arguments Ok {A} a.
Arguments Throw {A} e.
Arguments OutOfFuel {A}.

Definition bind {A B : Type} (r : result A) (k : A -> result B) : result B :=
  match r with
  | Ok a => k a
  | Throw e => Throw e
  | OutOfFuel => OutOfFuel
  end.

Declare Scope cron_scope.
Notation "x <- r ;; k" := (bind r (fun x => k))
  (at level 61, r at next level, right associativity) : cron_scope.
Notation "' pat <- r ;; k" := (bind r (fun x => match x with pat => k end))
  (at level 61, pat pattern, r at next level, right associativity) : cron_scope.
Local Open Scope cron_scope.

(** ** Picking the next and the previous value of a field *)

(** [vals.find(v => v >= val) ?? vals[0]]. *)
Definition getNextValue (vals : list Z) (val : Z) : option Z :=
  nullish (find (fun v => v >=? val) vals) (hd_error vals).

(** [vals.slice().reverse().find(v => v <= val) ?? vals[vals.length - 1]]. *)
Definition getPreviousValue (vals : list Z) (val : Z) : option Z :=
  nullish (find (fun v => v <=? val) (rev vals)) (hd_error (rev vals)).

(** ** The effective day set and the match predicate *)

(** [arr.length === 0]. *)
Definition isEmpty (arr : list Z) : bool :=
  match arr with
  | [] => true
  | _ :: _ => false
  end.

(** [values.length === 0 || values.includes(x)]. *)
Definition fieldAdmits (f : CronField) (x : Z) : bool :=
  isEmpty (values f) || includes x (values f).

(** [let dow = dt.weekday % 7; if (dt.weekday === 7) dow = 0]: 0 is Sunday,
    6 is Saturday. *)
Definition dowOf (y m d : Z) : Z :=
  let w := Luxon.weekday y m d in
  if w =? 7 then 0 else w mod 7.

(** [currentDow === targetDow], where [targetDow] may be [undefined]. *)
Definition sameDow (currentDow : Z) (targetDow : option Z) : bool :=
  match targetDow with
  | Some t => currentDow =? t
  | None => false
  end.

(** The loop of the last-occurrence check,
    [while (currentDow !== targetDow && testDt.day > 1) testDt = testDt.minus({ days: 1 })],
    by recursion on [testDt.day - 1]; the answer is the day the loop stops
    at and its day of week. *)
Fixpoint walkBack (y m : Z) (targetDow : option Z) (daysBefore : nat) : Z * Z :=
  let testDay := Z.of_nat daysBefore + 1 in
  let currentDow := dowOf y m testDay in
  match daysBefore with
  | O => (testDay, currentDow)
  | S n => if sameDow currentDow targetDow then (testDay, currentDow)
           else walkBack y m targetDow n
  end.

Definition isDayOfWeekSatisfied (p : CronParser) (dt : Luxon.DateTime) : bool :=
  match dt with
  | Luxon.Invalid => false
  | Luxon.Valid c =>
    let dow := dowOf (Luxon.year c) (Luxon.month c) (Luxon.day c) in
    if truthy (DayOfWeekModifiers.nthDay (dayOfWeekModifiers p)) then
      if negb (sameDow dow (hd_error (values (daysOfWeek p)))) then false
      else
        let week := (Luxon.day c - 1) / 7 + 1 in
        match DayOfWeekModifiers.nthDay (dayOfWeekModifiers p) with
        | Num n => (week =? n) && (week <=? 5)
        | NaN => false
        end
    else if DayOfWeekModifiers.lastDay (dayOfWeekModifiers p) then
      let ldom := Luxon.daysInMonth (Luxon.year c) (Luxon.month c) in
      let targetDow := hd_error (values (daysOfWeek p)) in
      let '(testDay, currentDow) :=
        walkBack (Luxon.year c) (Luxon.month c) targetDow (Z.to_nat (ldom - 1)) in
      (Luxon.day c =? testDay) && sameDow currentDow targetDow
    else fieldAdmits (daysOfWeek p) dow
  end.

Definition getDayOfMonthSet (p : CronParser) (year month : Z) : list Z :=
  match Luxon.daysInMonthOf year month with
  | None => []
  | Some ldom =>
    let mods := dayOfMonthModifiers p in
    if DayOfMonthModifiers.lastDay mods then
      match DayOfMonthModifiers.lastDayOffset mods with
      | Num offset => let day := ldom - offset in
                      if day >=? 1 then [day] else []
      | NaN => []
      end
    else if DayOfMonthModifiers.lastWeekday mods then
      let dow := dowOf year month ldom in
      let offset := if dow =? 6 then 1 else if dow =? 0 then 2 else 0 in
      [ldom - offset]
    else if DayOfMonthModifiers.nearestWeekday mods then
      let target := match values (daysOfMonth p) with
                    | t :: _ => t
                    | [] => 1
                    end in
      match Luxon.fromObject year month target 0 0 0 with
      | Luxon.Invalid => []
      | Luxon.Valid _ =>
        let dow := dowOf year month target in
        let candidate := if dow =? 6 then target - 1
                         else if dow =? 0 then target + 1
                         else target in
        [Z.max 1 (Z.min ldom candidate)]
      end
    else
      let allDays := arrayFrom ldom 1 in
      if isEmpty (values (daysOfMonth p)) then
        if negb (isEmpty (values (daysOfWeek p)))
           || truthy (DayOfWeekModifiers.nthDay (dayOfWeekModifiers p))
           || DayOfWeekModifiers.lastDay (dayOfWeekModifiers p)
        then filter (fun day => isDayOfWeekSatisfied p
                                  (Luxon.fromObject year month day 0 0 0)) allDays
        else allDays
      else
        filter (fun d =>
                  if (month =? 2) && (d =? 29) then
                    let isLeapYear := Luxon.daysInMonth year 2 =? 29 in
                    if isLeapYear then d <=? ldom else false
                  else d <=? ldom) (values (daysOfMonth p))
  end.

Definition isMatch (p : CronParser) (dt : Luxon.DateTime) : bool :=
  match dt with
  | Luxon.Invalid => false
  | Luxon.Valid d =>
    if negb (fieldAdmits (years p) (Luxon.year d)) then false
    else if negb (fieldAdmits (months p) (Luxon.month d)) then false
    else if negb (includes (Luxon.day d)
                    (getDayOfMonthSet p (Luxon.year d) (Luxon.month d))) then false
    else if negb (isDayOfWeekSatisfied p dt) then false
    else if negb (fieldAdmits (hours p) (Luxon.hour d)) then false
    else if negb (fieldAdmits (minutes p) (Luxon.minute d)) then false
    else if negb (fieldAdmits (seconds p) (Luxon.second d)) then false
    else true
  end.

(** ** The fire-time search *)

(** [this.f.values.length ? this.f.values : Array.from({ length: n }, (_, i) => lo + i)]. *)
Definition valuesOr (f : CronField) (n lo : Z) : list Z :=
  if isEmpty (values f) then arrayFrom n lo else values f.

(** [Math.max(...arr)] and [Math.min(...arr)] of a non-empty array. *)
Definition maxOf (arr : list Z) : Z := fold_right Z.max (first arr) arr.
Definition minOf (arr : list Z) : Z := fold_right Z.min (first arr) arr.

Definition maxIter : nat := Z.to_nat 10000.

Definition maxYearOf (p : CronParser) : Z :=
  if isEmpty (values (years p)) then 2099 else maxOf (values (years p)).

Definition minYearOf (p : CronParser) : Z :=
  if isEmpty (values (years p)) then 1970 else minOf (values (years p)).

(** The candidate lists of the loop bodies: the field's values, or the
    whole domain when the field has none. *)
Definition nextYearValues (p : CronParser) : list Z :=
  valuesOr (years p) (maxYearOf p - 1970 + 1) 1970.

Definition prevYearValues (p : CronParser) : list Z :=
  valuesOr (years p) (2099 - 1970 + 1) 1970.

Definition monthValues (p : CronParser) : list Z := valuesOr (months p) 12 1.
Definition hourValues (p : CronParser) : list Z := valuesOr (hours p) 24 0.
Definition minuteValues (p : CronParser) : list Z := valuesOr (minutes p) 60 0.
Definition secondValues (p : CronParser) : list Z := valuesOr (seconds p) 60 0.

(** Where one pass through the loop body leaves it: it returns [null],
    reassigns [d] and executes [continue], returns the candidate, or falls
    through to the one-second step at the bottom.  A [Branch] names the test
    of the body that led to a [return null] or a [continue]. *)
Inductive Branch : Type :=
| YearUndefined
| DaySetEmpty
| HourUndefined
| MinuteUndefined
| SecondUndefined.

Inductive Outcome : Type :=
| ReturnNull (b : Branch)
| Continue (b : Branch) (d : Luxon.DateTime)
| Found (c : Luxon.Civil)
| Advance (d : Luxon.DateTime).

(** The end of a loop body: [if (this.isMatch(d)) return d;] and otherwise
    [d = d.plus({ seconds: 1 })] (forward) or [d = d.minus({ seconds: 1 })]
    (backward). *)
Definition checkCandidate (p : CronParser) (stepSeconds : Z) (d : Luxon.DateTime)
  : Outcome :=
  match d with
  | Luxon.Valid c =>
    if isMatch p d then Found c else Advance (Luxon.plusSeconds d stepSeconds)
  | Luxon.Invalid => Advance (Luxon.plusSeconds d stepSeconds)
  end.

Section Forward.
Variable p : CronParser.

(** "advancing year": shared by the empty-day-set branch and by the
    carries. *)
Definition nextAdvanceYear (b : Branch) (nextYear : Z) : Outcome :=
  match getNextValue (nextYearValues p) (nextYear + 1) with
  | None => ReturnNull b
  | Some nextYearVal =>
    if nextYearVal >? maxYearOf p then ReturnNull b
    else Continue b (Luxon.fromObject nextYearVal (first (monthValues p)) 1 0 0 0)
  end.

(** "No next hour found, advancing day". *)
Definition nextAdvanceDay (b : Branch) (daySet : list Z)
           (nextYear nextMonth nextDay : Z) : Outcome :=
  match getNextValue daySet (nextDay + 1) with
  | None => nextAdvanceYear b nextYear
  | Some nextDayVal =>
    Continue b (Luxon.fromObject nextYear nextMonth nextDayVal 0 0 0)
  end.

(** "No next minute found, advancing hour". *)
Definition nextAdvanceHour (b : Branch) (daySet : list Z)
           (nextYear nextMonth nextDay nextHour : Z) : Outcome :=
  match getNextValue (hourValues p) (nextHour + 1) with
  | None => nextAdvanceDay b daySet nextYear nextMonth nextDay
  | Some nextHourVal =>
    Continue b (Luxon.fromObject nextYear nextMonth nextDay nextHourVal 0 0)
  end.

(** "No next second found, advancing minute". *)
Definition nextAdvanceMinute (b : Branch) (daySet : list Z)
           (nextYear nextMonth nextDay nextHour nextMinute : Z) : Outcome :=
  match getNextValue (minuteValues p) (nextMinute + 1) with
  | None => nextAdvanceHour b daySet nextYear nextMonth nextDay nextHour
  | Some nextMinuteVal =>
    Continue b (Luxon.fromObject nextYear nextMonth nextDay nextHour nextMinuteVal 0)
  end.

(** One pass through the body of the [while] loop of [getNextFireTime]. *)
Definition nextBody (d : Luxon.Civil) : Outcome :=
  match getNextValue (nextYearValues p) (Luxon.year d) with
  | None => ReturnNull YearUndefined
  | Some nextYear =>
    let yearChanged := negb (nextYear =? Luxon.year d) in
    let nextMonth :=
      if yearChanged then first (monthValues p)
      else match getNextValue (monthValues p) (Luxon.month d) with
           | Some m => m
           | None => first (monthValues p)
           end in
    let monthChanged := negb (nextMonth =? Luxon.month d) || yearChanged in
    let daySet := getDayOfMonthSet p nextYear nextMonth in
    if isEmpty daySet then nextAdvanceYear DaySetEmpty nextYear
    else
      let nextDay :=
        if monthChanged then first daySet
        else match getNextValue daySet (Luxon.day d) with
             | Some x => x
             | None => first daySet
             end in
      let dayChanged := negb (nextDay =? Luxon.day d) || monthChanged in
      let nextHour :=
        if dayChanged then hd_error (hourValues p)
        else nullish (getNextValue (hourValues p) (Luxon.hour d)) (hd_error (hourValues p)) in
      match nextHour with
      | None => nextAdvanceDay HourUndefined daySet nextYear nextMonth nextDay
      | Some nextHour =>
        let hourChanged := negb (nextHour =? Luxon.hour d) || dayChanged in
        let nextMinute :=
          if hourChanged then hd_error (minuteValues p)
          else nullish (getNextValue (minuteValues p) (Luxon.minute d))
                       (hd_error (minuteValues p)) in
        match nextMinute with
        | None => nextAdvanceHour MinuteUndefined daySet nextYear nextMonth nextDay nextHour
        | Some nextMinute =>
          let minuteChanged := negb (nextMinute =? Luxon.minute d) || hourChanged in
          let nextSecond :=
            if minuteChanged then hd_error (secondValues p)
            else nullish (getNextValue (secondValues p) (Luxon.second d + 1))
                         (hd_error (secondValues p)) in
          match nextSecond with
          | None => nextAdvanceMinute SecondUndefined daySet nextYear nextMonth nextDay
                                      nextHour nextMinute
          | Some nextSecond =>
            checkCandidate p 1 (Luxon.fromObject nextYear nextMonth nextDay
                                                 nextHour nextMinute nextSecond)
          end
        end
      end
  end.

(** [while (iter < maxIter && d.year <= maxYear) { iter++; ... }], with
    [remaining = maxIter - iter]; the answer is the value returned and the
    final [iter]. *)
Fixpoint nextLoop (remaining iter : nat) (d : Luxon.DateTime)
  : option Luxon.Civil * nat :=
  match remaining with
  | O => (None, iter)
  | S remaining' =>
    match d with
    | Luxon.Invalid => (None, iter)
    | Luxon.Valid c =>
      if Luxon.year c <=? maxYearOf p then
        match nextBody c with
        | ReturnNull _ => (None, S iter)
        | Continue _ d' => nextLoop remaining' (S iter) d'
        | Found r => (Some r, S iter)
        | Advance d' => nextLoop remaining' (S iter) d'
        end
      else (None, iter)
    end
  end.

Definition getNextFireTime (after : Luxon.DateTime) : option Luxon.Civil :=
  fst (nextLoop maxIter 0 after).

End Forward.

Section Backward.
Variable p : CronParser.

(** The last instant of a month:
    [fromObject({ year, month, day: fromObject({ year, month }).daysInMonth ?? 30,
                  hour: 23, minute: 59, second: 59 })]. *)
Definition endOfMonth (y m : Z) : Luxon.DateTime :=
  let ldom := match Luxon.daysInMonthOf y m with
              | Some n => n
              | None => 30
              end in
  Luxon.fromObject y m ldom 23 59 59.

(** "advancing year", from the empty-day-set branch and from the month
    carry. *)
Definition prevAdvanceYear (b : Branch) (prevYear : Z) : Outcome :=
  match getPreviousValue (prevYearValues p) (prevYear - 1) with
  | None => ReturnNull b
  | Some prevYearVal =>
    if prevYearVal <? minYearOf p then ReturnNull b
    else Continue b (endOfMonth prevYearVal (lastOf (monthValues p)))
  end.

(** "No previous day found, advancing month". *)
Definition prevAdvanceMonth (b : Branch) (prevYear prevMonth : Z) : Outcome :=
  match getPreviousValue (monthValues p) (prevMonth - 1) with
  | None => prevAdvanceYear b prevYear
  | Some prevMonthVal => Continue b (endOfMonth prevYear prevMonthVal)
  end.

(** "No previous hour found, advancing day". *)
Definition prevAdvanceDay (b : Branch) (daySet : list Z)
           (prevYear prevMonth prevDay : Z) : Outcome :=
  match getPreviousValue daySet (prevDay - 1) with
  | None => prevAdvanceMonth b prevYear prevMonth
  | Some prevDayVal =>
    Continue b (Luxon.fromObject prevYear prevMonth prevDayVal 23 59 59)
  end.

(** "No previous minute found, advancing hour". *)
Definition prevAdvanceHour (b : Branch) (daySet : list Z)
           (prevYear prevMonth prevDay prevHour : Z) : Outcome :=
  match getPreviousValue (hourValues p) (prevHour - 1) with
  | None => prevAdvanceDay b daySet prevYear prevMonth prevDay
  | Some prevHourVal =>
    Continue b (Luxon.fromObject prevYear prevMonth prevDay prevHourVal 59 59)
  end.

(** "No previous second found, advancing minute". *)
Definition prevAdvanceMinute (b : Branch) (daySet : list Z)
           (prevYear prevMonth prevDay prevHour prevMinute : Z) : Outcome :=
  match getPreviousValue (minuteValues p) (prevMinute - 1) with
  | None => prevAdvanceHour b daySet prevYear prevMonth prevDay prevHour
  | Some prevMinuteVal =>
    Continue b (Luxon.fromObject prevYear prevMonth prevDay prevHour prevMinuteVal 59)
  end.

(** One pass through the body of the [while] loop of
    [getPreviousFireTime]. *)
Definition prevBody (d : Luxon.Civil) : Outcome :=
  match getPreviousValue (prevYearValues p) (Luxon.year d) with
  | None => ReturnNull YearUndefined
  | Some prevYear =>
    let yearChanged := prevYear <? Luxon.year d in
    let prevMonth :=
      if yearChanged then lastOf (monthValues p)
      else match getPreviousValue (monthValues p) (Luxon.month d) with
           | Some m => m
           | None => lastOf (monthValues p)
           end in
    let monthChanged := (prevMonth <? Luxon.month d) || yearChanged in
    let daySet := getDayOfMonthSet p prevYear prevMonth in
    if isEmpty daySet then prevAdvanceYear DaySetEmpty prevYear
    else
      let prevDay :=
        if monthChanged then lastOf daySet
        else match getPreviousValue daySet (Luxon.day d) with
             | Some x => x
             | None => lastOf daySet
             end in
      let dayChanged := (prevDay <? Luxon.day d) || monthChanged in
      let prevHour :=
        if dayChanged then hd_error (rev (hourValues p))
        else nullish (getPreviousValue (hourValues p) (Luxon.hour d))
                     (hd_error (rev (hourValues p))) in
      match prevHour with
      | None => prevAdvanceDay HourUndefined daySet prevYear prevMonth prevDay
      | Some prevHour =>
        let hourChanged := (prevHour <? Luxon.hour d) || dayChanged in
        let prevMinute :=
          if hourChanged then hd_error (rev (minuteValues p))
          else nullish (getPreviousValue (minuteValues p) (Luxon.minute d))
                       (hd_error (rev (minuteValues p))) in
        match prevMinute with
        | None => prevAdvanceHour MinuteUndefined daySet prevYear prevMonth prevDay prevHour
        | Some prevMinute =>
          let minuteChanged := (prevMinute <? Luxon.minute d) || hourChanged in
          let prevSecond :=
            if minuteChanged then hd_error (rev (secondValues p))
            else nullish (getPreviousValue (secondValues p) (Luxon.second d))
                         (hd_error (rev (secondValues p))) in
          match prevSecond with
          | None => prevAdvanceMinute SecondUndefined daySet prevYear prevMonth prevDay
                                      prevHour prevMinute
          | Some prevSecond =>
            checkCandidate p (-1) (Luxon.fromObject prevYear prevMonth prevDay
                                                    prevHour prevMinute prevSecond)
          end
        end
      end
  end.

(** [while (iter < maxIter && d.year >= minYear) { iter++; ... }]. *)
Fixpoint prevLoop (remaining iter : nat) (d : Luxon.DateTime)
  : option Luxon.Civil * nat :=
  match remaining with
  | O => (None, iter)
  | S remaining' =>
    match d with
    | Luxon.Invalid => (None, iter)
    | Luxon.Valid c =>
      if Luxon.year c >=? minYearOf p then
        match prevBody c with
        | ReturnNull _ => (None, S iter)
        | Continue _ d' => prevLoop remaining' (S iter) d'
        | Found r => (Some r, S iter)
        | Advance d' => prevLoop remaining' (S iter) d'
        end
      else (None, iter)
    end
  end.

(** [let d = before.setZone(tz).minus({ seconds: 1 }).endOf('second')]. *)
Definition getPreviousFireTime (before : Luxon.DateTime) : option Luxon.Civil :=
  fst (prevLoop maxIter 0 (Luxon.plusSeconds before (-1))).

End Backward.

(** ** The public search operations *)

(** [from ? from.setZone(this.timezone) : DateTime.now().setZone(this.timezone)];
    [from] and the wall clock [now] are instants in epoch seconds. *)
Definition startOf (p : CronParser) (now : Z) (from : option Z) : Luxon.DateTime :=
  Luxon.Valid (Luxon.fromSeconds (timezone p)
                 (match from with Some t => t | None => now end)).

Definition next (p : CronParser) (now : Z) (from : option Z) : result Z :=
  match getNextFireTime p (startOf p now from) with
  | None => Throw NoNextExecution
  | Some nextDt => Ok (Luxon.toUnixInteger (timezone p) nextDt)
  end.

Definition previous (p : CronParser) (now : Z) (from : option Z) : result Z :=
  match getPreviousFireTime p (startOf p now from) with
  | None => Throw NoPreviousExecution
  | Some prevDt => Ok (Luxon.toUnixInteger (timezone p) prevDt)
  end.

(** ** JavaScript strings *)

Module JsString.
Local Open Scope string_scope.

Definition isSpace (c : ascii) : bool :=
  let n := nat_of_ascii c in
  Nat.eqb n 32 || (Nat.leb 9 n && Nat.leb n 13).

Definition isDigit (c : ascii) : bool :=
  let n := nat_of_ascii c in
  Nat.leb 48 n && Nat.leb n 57.

Definition digitValue (c : ascii) : Z := Z.of_nat (nat_of_ascii c) - 48.

(** [s + c]. *)
Definition snoc (s : string) (c : ascii) : string := s ++ String c "".

(** [s.trim().split(/\s+/)]: the maximal runs of non-blank characters, and
    one empty field when there is none. *)
Fixpoint splitBlanks (cur : string) (s : string) : list string :=
  match s with
  | EmptyString => if cur =? "" then [] else [cur]
  | String c rest =>
    if isSpace c
    then (if cur =? "" then splitBlanks "" rest else cur :: splitBlanks "" rest)
    else splitBlanks (snoc cur c) rest
  end.

Definition trimSplit (s : string) : list string :=
  match splitBlanks "" s with
  | [] => [""]
  | fields => fields
  end.

(** [s.split(sep)] for a one-character separator. *)
Fixpoint split (sep : ascii) (s : string) : list string :=
  match s with
  | EmptyString => [""]
  | String c rest =>
    if Ascii.eqb c sep then "" :: split sep rest
    else match split sep rest with
         | t :: ts => String c t :: ts
         | [] => [String c ""]
         end
  end.

(** [s.includes(c)] for a one-character needle. *)
Fixpoint includesChar (c : ascii) (s : string) : bool :=
  match s with
  | EmptyString => false
  | String c' rest => Ascii.eqb c' c || includesChar c rest
  end.

(** [s.endsWith(c)] and [s.slice(0, -1)]. *)
Fixpoint endsWith (c : ascii) (s : string) : bool :=
  match s with
  | EmptyString => false
  | String c' EmptyString => Ascii.eqb c' c
  | String _ rest => endsWith c rest
  end.

Fixpoint dropLast (s : string) : string :=
  match s with
  | EmptyString => ""
  | String _ EmptyString => ""
  | String c rest => String c (dropLast rest)
  end.

(** [s.startsWith(pre)] and [s.slice(n)]. *)
Definition startsWith (pre s : string) : bool := prefix pre s.

Fixpoint sliceFrom (n : nat) (s : string) : string :=
  match n, s with
  | O, _ => s
  | S n', String _ rest => sliceFrom n' rest
  | S _, EmptyString => ""
  end.

Definition upper (c : ascii) : ascii :=
  let n := nat_of_ascii c in
  if Nat.leb 97 n && Nat.leb n 122 then ascii_of_nat (n - 32) else c.

Fixpoint toUpperCase (s : string) : string :=
  match s with
  | EmptyString => ""
  | String c rest => String (upper c) (toUpperCase rest)
  end.

(** [n.toString()] of an integer of magnitude below 10^21, which JavaScript
    prints digit by digit. *)
Definition toString (n : Z) : string := NilZero.string_of_int (Z.to_int n).

(** The digits at the front of [s], as [parseInt] reads them. *)
Fixpoint leadingDigits (seen : bool) (acc : Z) (s : string) : jsnum :=
  match s with
  | String c rest =>
    if isDigit c then leadingDigits true (acc * 10 + digitValue c) rest
    else if seen then Num acc else NaN
  | EmptyString => if seen then Num acc else NaN
  end.

Fixpoint dropBlanks (s : string) : string :=
  match s with
  | String c rest => if isSpace c then dropBlanks rest else s
  | EmptyString => ""
  end.

Definition negate (n : jsnum) : jsnum :=
  match n with
  | Num z => Num (- z)
  | NaN => NaN
  end.

(** [parseInt(s, 10)]: leading blanks, an optional sign, then as many
    digits as there are; [NaN] when there is no digit.  The digits are read
    exactly, as JavaScript reads a number of magnitude up to 2^53. *)
Definition parseInt (s : string) : jsnum :=
  match dropBlanks s with
  | String "-" rest => negate (leadingDigits false 0 rest)
  | String "+" rest => leadingDigits false 0 rest
  | t => leadingDigits false 0 t
  end.

(** [s.replace(/A|B|.../g, m => table[m])] for words of one length: at
    each position the first word that matches is replaced. *)
Fixpoint lookupPrefix (table : list (string * string)) (s : string)
  : option (string * string) :=
  match table with
  | [] => None
  | (word, repl) :: rest =>
    if prefix word s then Some (word, repl) else lookupPrefix rest s
  end.

Fixpoint replaceWords (table : list (string * string)) (skip : nat) (s : string)
  : string :=
  match s with
  | EmptyString => ""
  | String c rest =>
    match skip with
    | S k => replaceWords table k rest
    | O =>
      match lookupPrefix table s with
      | Some (word, repl) => repl ++ replaceWords table (String.length word - 1) rest
      | None => String c (replaceWords table 0 rest)
      end
    end
  end.

(** [s.replace(/7/g, '0')]. *)
Fixpoint replaceChar (from to : ascii) (s : string) : string :=
  match s with
  | EmptyString => ""
  | String c rest =>
    String (if Ascii.eqb c from then to else c) (replaceChar from to rest)
  end.

End JsString.

(** ** The field parser *)

Import JsString.

Definition monthNames : list string :=
  ["January"; "February"; "March"; "April"; "May"; "June"; "July"; "August";
   "September"; "October"; "November"; "December"]%string.

Definition monthMap : list (string * string) :=
  [("JAN", "1"); ("FEB", "2"); ("MAR", "3"); ("APR", "4"); ("MAY", "5");
   ("JUN", "6"); ("JUL", "7"); ("AUG", "8"); ("SEP", "9"); ("OCT", "10");
   ("NOV", "11"); ("DEC", "12")]%string.

Definition dayMap : list (string * string) :=
  [("SUN", "0"); ("MON", "1"); ("TUE", "2"); ("WED", "3"); ("THU", "4");
   ("FRI", "5"); ("SAT", "6")]%string.

(** The text of a thrown [CronError]. *)
Definition message (e : CronError) : string :=
  match e with
  | InvalidFieldCount => "Invalid number of fields in cron string"
  | DayFieldsConflict =>
    "Both day-of-month and day-of-week cannot be specified unless one is * or ?"
  | InvalidStep field => "Invalid step value in " ++ field
  | InvalidValue text min max =>
    "Invalid value " ++ text ++ " for range " ++ toString min ++ "-" ++ toString max
  | InvalidRange range min max =>
    "Invalid range " ++ range ++ " for " ++ toString min ++ "-" ++ toString max
  | InvalidDate day month =>
    "Invalid date: day " ++ toString day ++ " is not valid for month "
      ++ nth (Z.to_nat (month - 1)) monthNames "undefined"
  | InvalidNth => "Invalid nth value for day of week"
  | NoNextExecution => "No next execution time found"
  | NoPreviousExecution => "No previous execution time found"
  end%string.

Inductive FieldType : Type := TMonth | TDayOfWeek | TOther.

Definition normalizeField (field : string) (type : FieldType) : string :=
  let field := toUpperCase field in
  match type with
  | TMonth => replaceWords monthMap 0 field
  | TDayOfWeek => replaceChar "7" "0" (replaceWords dayMap 0 field)
  | TOther => field
  end.

(** [arr.sort((a, b) => a - b)]. *)
Fixpoint insertAsc (x : Z) (l : list Z) : list Z :=
  match l with
  | [] => [x]
  | y :: r => if x <=? y then x :: l else y :: insertAsc x r
  end.

Definition sortAsc (l : list Z) : list Z := fold_right insertAsc [] l.

(** [arr.filter((v, i, a) => a.indexOf(v) === i)]: first occurrences. *)
Fixpoint uniqFrom (seen : list Z) (l : list Z) : list Z :=
  match l with
  | [] => []
  | x :: r => if includes x seen then uniqFrom seen r
              else x :: uniqFrom (x :: seen) r
  end.

Definition uniq (l : list Z) : list Z := uniqFrom [] l.

(** [parts.flatMap(f)] where [f] may throw. *)
Fixpoint flatMapM {A : Type} (f : A -> result (list Z)) (l : list A)
  : result (list Z) :=
  match l with
  | [] => Ok []
  | x :: r => ys <- f x ;; zs <- flatMapM f r ;; Ok (ys ++ zs)
  end.

Definition parseRange (range : string) (min max : Z) : result (Z * Z) :=
  let parts := split "-" range in
  match parseInt (nth 0 parts ""%string), parseInt (nth 1 parts ""%string) with
  | Num start, Num end_ =>
    if (start <? min) || (end_ >? max) || (start >? end_)
    then Throw (InvalidRange range min max)
    else Ok (start, end_)
  | _, _ => Throw (InvalidRange range min max)
  end.

(** [for (let i = start; i <= end; i += step) values.push(i)]; with a [NaN]
    step [i] is [NaN] after the first round and the test fails.  With a
    negative step the test never fails: the model answers [OutOfFuel] for
    every fuel, and the real run pushes until the engine refuses to grow
    the array ([RangeError: Invalid array length], which is no
    [CronError]). *)
Fixpoint stepLoop (fuel : nat) (i end_ : Z) (step : jsnum) (values : list Z)
  : result (list Z) :=
  if i <=? end_ then
    match fuel with
    | O => OutOfFuel
    | S fuel' =>
      match step with
      | Num s => stepLoop fuel' (i + s) end_ step (values ++ [i])
      | NaN => Ok (values ++ [i])
      end
    end
  else Ok values.

(** [for (let i = values[0]; i <= max; i += step) if (values.includes(i)) steppedValues.push(i)].
    With a negative step the test never fails and nothing is pushed below
    [values[0]]: the model answers [OutOfFuel] for every fuel, and the real
    run does not end. *)
Fixpoint steppedLoop (fuel : nat) (i max : Z) (step : jsnum) (values : list Z)
         (steppedValues : list Z) : result (list Z) :=
  if i <=? max then
    match fuel with
    | O => OutOfFuel
    | S fuel' =>
      let pushed := if includes i values then steppedValues ++ [i]
                    else steppedValues in
      match step with
      | Num s => steppedLoop fuel' (i + s) max step values pushed
      | NaN => Ok pushed
      end
    end
  else Ok steppedValues.

(** A single number of a list: [parseInt] it and check it against the
    field's domain. *)
Definition parseValue (text : string) (min max : Z) : result Z :=
  match parseInt text with
  | Num value =>
    if (value <? min) || (value >? max) then Throw (InvalidValue text min max)
    else Ok value
  | NaN => Throw (InvalidValue text min max)
  end.

Fixpoint parseField (fuel : nat) (field : string) (min max : Z) : result CronField :=
  match fuel with
  | O => OutOfFuel
  | S fuel' =>
    if (field =? "*")%string then
      Ok (mkField (arrayFrom (max - min + 1) min) None)
    else if includesChar "/" field then
      let parts := split "/" field in
      let rangeStr := nth 0 parts ""%string in
      let stepStr := nth 1 parts ""%string in
      let step := parseInt stepStr in
      match step with
      | Num 0 => Throw (InvalidStep field)
      | _ =>
        if includesChar "," rangeStr then
          values <- flatMapM
                      (fun range =>
                         if includesChar "-" range then
                           ' (start, end_) <- parseRange range min max ;;
                           Ok (arrayFrom (end_ - start + 1) start)
                         else
                           value <- parseValue range min max ;; Ok [value])
                      (split "," rangeStr) ;;
          steppedValues <- match values with
                           | [] => Ok []
                           | v0 :: _ => steppedLoop fuel' v0 max step values []
                           end ;;
          Ok (mkField (sortAsc steppedValues) (Some step))
        else
          let range := if (rangeStr =? "*")%string
                       then (toString min ++ "-" ++ toString max)%string
                       else rangeStr in
          ' (start, end_) <- parseRange range min max ;;
          values <- stepLoop fuel' start end_ step [] ;;
          Ok (mkField values (Some step))
      end
    else if includesChar "," field then
      values <- flatMapM
                  (fun part => f <- parseField fuel' part min max ;; Ok (values f))
                  (split "," field) ;;
      Ok (mkField (sortAsc (uniq values)) None)
    else if includesChar "-" field then
      ' (start, end_) <- parseRange field min max ;;
      Ok (mkField (arrayFrom (end_ - start + 1) start) None)
    else
      value <- parseValue field min max ;;
      Ok (mkField [value] None)
  end.

(** ** The constructor *)

(** The field initialisers of the class. *)
Definition emptyField : CronField := mkField [] None.

Definition initial (cronString : string) (timezone : Z) : CronParser :=
  {| timezone := timezone;
     seconds := mkField [0] None;
     minutes := emptyField;
     hours := emptyField;
     daysOfMonth := emptyField;
     months := emptyField;
     daysOfWeek := emptyField;
     years := emptyField;
     dayOfMonthModifiers := DayOfMonthModifiers.mk false (Num 0) false false;
     dayOfWeekModifiers := DayOfWeekModifiers.mk (Num 0) false;
     cronString := cronString |}.

(** Assignments to the fields of [this]. *)
Definition setSeconds (this : CronParser) (f : CronField) : CronParser :=
  mkCronParser (timezone this) f (minutes this) (hours this) (daysOfMonth this)
    (months this) (daysOfWeek this) (years this) (dayOfMonthModifiers this)
    (dayOfWeekModifiers this) (cronString this).

Definition setMinutes (this : CronParser) (f : CronField) : CronParser :=
  mkCronParser (timezone this) (seconds this) f (hours this) (daysOfMonth this)
    (months this) (daysOfWeek this) (years this) (dayOfMonthModifiers this)
    (dayOfWeekModifiers this) (cronString this).

Definition setHours (this : CronParser) (f : CronField) : CronParser :=
  mkCronParser (timezone this) (seconds this) (minutes this) f (daysOfMonth this)
    (months this) (daysOfWeek this) (years this) (dayOfMonthModifiers this)
    (dayOfWeekModifiers this) (cronString this).

Definition setDaysOfMonth (this : CronParser) (f : CronField) : CronParser :=
  mkCronParser (timezone this) (seconds this) (minutes this) (hours this) f
    (months this) (daysOfWeek this) (years this) (dayOfMonthModifiers this)
    (dayOfWeekModifiers this) (cronString this).

Definition setMonths (this : CronParser) (f : CronField) : CronParser :=
  mkCronParser (timezone this) (seconds this) (minutes this) (hours this)
    (daysOfMonth this) f (daysOfWeek this) (years this) (dayOfMonthModifiers this)
    (dayOfWeekModifiers this) (cronString this).

Definition setDaysOfWeek (this : CronParser) (f : CronField) : CronParser :=
  mkCronParser (timezone this) (seconds this) (minutes this) (hours this)
    (daysOfMonth this) (months this) f (years this) (dayOfMonthModifiers this)
    (dayOfWeekModifiers this) (cronString this).

Definition setYears (this : CronParser) (f : CronField) : CronParser :=
  mkCronParser (timezone this) (seconds this) (minutes this) (hours this)
    (daysOfMonth this) (months this) (daysOfWeek this) f (dayOfMonthModifiers this)
    (dayOfWeekModifiers this) (cronString this).

Definition setDayOfMonthModifiers (this : CronParser) (m : DayOfMonthModifiers.t)
  : CronParser :=
  mkCronParser (timezone this) (seconds this) (minutes this) (hours this)
    (daysOfMonth this) (months this) (daysOfWeek this) (years this) m
    (dayOfWeekModifiers this) (cronString this).

Definition setDayOfWeekModifiers (this : CronParser) (m : DayOfWeekModifiers.t)
  : CronParser :=
  mkCronParser (timezone this) (seconds this) (minutes this) (hours this)
    (daysOfMonth this) (months this) (daysOfWeek this) (years this)
    (dayOfMonthModifiers this) m (cronString this).

(** The table [maxDaysInMonth] of [parseDayOfMonth]; a key outside 1..12
    reads [undefined]. *)
Definition maxDaysInMonth (month : Z) : option Z :=
  if Luxon.inRange 1 12 month then
    Some (if month =? 2 then 29
          else if (month =? 4) || (month =? 6) || (month =? 9) || (month =? 11)
               then 30 else 31)
  else None.

(** [for (const month of months) { if (month === 2 && day === 29) continue;
      if (day > maxDaysInMonth[month]) throw ... }]. *)
Fixpoint checkDayAgainstMonths (day : Z) (monthValues : list Z) : result unit :=
  match monthValues with
  | [] => Ok tt
  | month :: rest =>
    if (month =? 2) && (day =? 29) then checkDayAgainstMonths day rest
    else match maxDaysInMonth month with
         | Some n => if day >? n then Throw (InvalidDate day month)
                     else checkDayAgainstMonths day rest
         | None => checkDayAgainstMonths day rest
         end
  end.

Fixpoint checkDaysAgainstMonths (dayValues monthValues : list Z) : result unit :=
  match dayValues with
  | [] => Ok tt
  | day :: rest =>
    _ <- checkDayAgainstMonths day monthValues ;;
    checkDaysAgainstMonths rest monthValues
  end.

Definition parseDayOfMonth (fuel : nat) (this : CronParser) (field : string)
  : result CronParser :=
  if (field =? "?")%string then Ok this
  else
    let value := normalizeField field TOther in
    let mods := dayOfMonthModifiers this in
    if endsWith "W" value then
      let value := dropLast value in
      if (value =? "L")%string then
        Ok (setDayOfMonthModifiers this
              (DayOfMonthModifiers.mk (DayOfMonthModifiers.lastDay mods)
                 (DayOfMonthModifiers.lastDayOffset mods) true
                 (DayOfMonthModifiers.nearestWeekday mods)))
      else
        let this := setDayOfMonthModifiers this
                      (DayOfMonthModifiers.mk (DayOfMonthModifiers.lastDay mods)
                         (DayOfMonthModifiers.lastDayOffset mods)
                         (DayOfMonthModifiers.lastWeekday mods) true) in
        f <- parseField fuel value 1 31 ;;
        Ok (setDaysOfMonth this f)
    else if startsWith "L-" value then
      Ok (setDayOfMonthModifiers this
            (DayOfMonthModifiers.mk true (parseInt (sliceFrom 2 value))
               (DayOfMonthModifiers.lastWeekday mods)
               (DayOfMonthModifiers.nearestWeekday mods)))
    else if (value =? "L")%string then
      Ok (setDayOfMonthModifiers this
            (DayOfMonthModifiers.mk true (DayOfMonthModifiers.lastDayOffset mods)
               (DayOfMonthModifiers.lastWeekday mods)
               (DayOfMonthModifiers.nearestWeekday mods)))
    else
      f <- parseField fuel value 1 31 ;;
      let this := setDaysOfMonth this f in
      if negb (isEmpty (values (daysOfMonth this)))
         && negb (isEmpty (values (months this)))
      then
        _ <- checkDaysAgainstMonths (values (daysOfMonth this)) (values (months this)) ;;
        Ok this
      else Ok this.

Definition parseMonth (fuel : nat) (this : CronParser) (field : string)
  : result CronParser :=
  f <- parseField fuel (normalizeField field TMonth) 1 12 ;;
  Ok (setMonths this f).

Definition parseDayOfWeek (fuel : nat) (this : CronParser) (field : string)
  : result CronParser :=
  if (field =? "?")%string then Ok this
  else
    let field := normalizeField field TDayOfWeek in
    let mods := dayOfWeekModifiers this in
    if endsWith "L" field then
      let this := setDayOfWeekModifiers this
                    (DayOfWeekModifiers.mk (DayOfWeekModifiers.nthDay mods) true) in
      f <- parseField fuel (dropLast field) 0 6 ;;
      Ok (setDaysOfWeek this f)
    else if includesChar "#" field then
      let parts := split "#" field in
      let dayStr := nth 0 parts ""%string in
      let nStr := nth 1 parts ""%string in
      let nthDay := parseInt nStr in
      let this := setDayOfWeekModifiers this
                    (DayOfWeekModifiers.mk nthDay (DayOfWeekModifiers.lastDay mods)) in
      match nthDay with
      | Num n =>
        if (n <? 1) || (n >? 5) then Throw InvalidNth
        else f <- parseField fuel dayStr 0 6 ;; Ok (setDaysOfWeek this f)
      | NaN => f <- parseField fuel dayStr 0 6 ;; Ok (setDaysOfWeek this f)
      end
    else
      f <- parseField fuel field 0 6 ;;
      Ok (setDaysOfWeek this f).

(** [fields[i] !== '?' && fields[i] !== '*'], where [fields[i]] may be
    [undefined]. *)
Definition isExplicit (field : option string) : bool :=
  match field with
  | Some f => negb (f =? "?")%string && negb (f =? "*")%string
  | None => true
  end.

Definition parse (fuel : nat) (this : CronParser) (cronString : string)
  : result CronParser :=
  let fields := trimSplit cronString in
  let n := List.length fields in
  if Nat.ltb n 5 || Nat.ltb 7 n then Throw InvalidFieldCount
  else if isExplicit (nth_error fields 3) && isExplicit (nth_error fields 5)
  then Throw DayFieldsConflict
  else
    let field i := nth i fields ""%string in
    let idx := if Nat.ltb 5 n then 1%nat else 0%nat in
    secs <- (if Nat.ltb 5 n then parseField fuel (field 0%nat) 0 59
             else Ok (mkField [0] None)) ;;
    let this := setSeconds this secs in
    mins <- parseField fuel (field idx) 0 59 ;;
    let this := setMinutes this mins in
    hrs <- parseField fuel (field (idx + 1)%nat) 0 23 ;;
    let this := setHours this hrs in
    this <- parseDayOfMonth fuel this (field (idx + 2)%nat) ;;
    this <- parseMonth fuel this (field (idx + 3)%nat) ;;
    this <- parseDayOfWeek fuel this (field (idx + 4)%nat) ;;
    if Nat.eqb n 7 then
      yrs <- parseField fuel (field (idx + 5)%nat) 1970 2099 ;;
      Ok (setYears this yrs)
    else Ok this.

(** [new CronParser(cronString, timezone)].  [now] is the wall clock
    ([DateTime.now()]) at the time of the call, which the constructor is in
    a position to read. *)
Definition newCronParser (now : Z) (fuel : nat) (cronString : string) (timezone : Z)
  : result CronParser :=
  parse fuel (initial cronString timezone) cronString.

(** ** The description in words *)

Definition dayNames : list string :=
  ["Sunday"; "Monday"; "Tuesday"; "Wednesday"; "Thursday"; "Friday"; "Saturday"]%string.

(** [arr[i]] for a number [i]: [undefined] below 0 and past the end. *)
Definition index {A : Type} (arr : list A) (i : Z) : option A :=
  if i <? 0 then None else nth_error arr (Z.to_nat i).

(** A string that may be [undefined], inside a template literal and as an
    element of [Array.prototype.join]. *)
Definition template (s : option string) : string :=
  match s with
  | Some t => t
  | None => "undefined"
  end.

Definition joinItem (s : option string) : string :=
  match s with
  | Some t => t
  | None => ""
  end.

(** [arr.join(sep)]. *)
Fixpoint join (sep : string) (arr : list string) : string :=
  match arr with
  | [] => ""
  | [x] => x
  | x :: rest => (x ++ sep ++ join sep rest)%string
  end.

(** A number inside a template literal. *)
Definition showNumber (n : jsnum) : string :=
  match n with
  | Num z => toString z
  | NaN => "NaN"
  end.

(** [field.step] read as a condition: [undefined], [NaN] and 0 are
    falsy. *)
Definition hasStep (f : CronField) : bool :=
  match step f with
  | Some n => truthy n
  | None => false
  end.

(** [field.values.length] and the test [values.length === 1 && values[0] === x]. *)
Definition count (f : CronField) : Z := Z.of_nat (List.length (values f)).

Definition isOnly (f : CronField) (x : Z) : bool :=
  match values f with
  | [v] => v =? x
  | _ => false
  end.

(** [v % 100 >= 11 && v % 100 <= 13 ? 'th' : suffixes[v % 10]]; [%] is the
    remainder of the truncated division. *)
Definition suffixes : list string :=
  ["th"; "st"; "nd"; "rd"; "th"; "th"; "th"; "th"; "th"; "th"]%string.

Definition daySuffix (v : Z) : option string :=
  if (Z.rem v 100 >=? 11) && (Z.rem v 100 <=? 13) then Some "th"%string
  else index suffixes (Z.rem v 10).

(** [v % 10 === 1 ? 'st' : v % 10 === 2 ? 'nd' : v % 10 === 3 ? 'rd' : 'th'],
    of a value that may be [undefined]. *)
Definition lastDigitSuffix (v : option Z) : string :=
  match v with
  | Some v =>
    if Z.rem v 10 =? 1 then "st"%string
    else if Z.rem v 10 =? 2 then "nd"%string
    else if Z.rem v 10 =? 3 then "rd"%string
    else "th"%string
  | None => "th"%string
  end.

(** [`${v}`] of a value that may be [undefined]. *)
Definition showValue (v : option Z) : string :=
  match v with
  | Some z => toString z
  | None => "undefined"
  end.

(** [describeField({ values, step }, name, min, max, formatter?)]; the
    formatters of the code index a table of names, so a displayed value may
    be [undefined]. *)
Definition describeField (f : CronField) (name : string) (min max : Z)
           (formatter : option (Z -> option string)) : string :=
  let displayValues : list (option string) :=
    map (fun v =>
           match formatter with
           | Some format => format v
           | None =>
             if (name =? "day")%string && negb (hasStep f)
             then Some (toString v ++ template (daySuffix v))%string
             else Some (toString v)
           end) (values f) in
  let firstValue := template (nth 0 displayValues None) in
  let lastValue := template (last displayValues None) in
  let joined := join " and " (map joinItem displayValues) in
  let plain :=
    if count f =? 1 then
      if (name =? "day")%string
      then ("on the " ++ firstValue ++ " of the month")%string
      else ("at " ++ name ++ " " ++ firstValue
                  ++ (if (name =? "second")%string then " of every minute" else ""))%string
    else
      if (name =? "day")%string
      then ("on the " ++ joined ++ " of the month")%string
      else ("at " ++ name ++ "s " ++ joined)%string in
  if count f =? 0 then ""%string
  else if (count f =? max - min + 1) && negb (hasStep f) then ""%string
  else
    match step f with
    | Some (Num s) =>
      if s =? 0 then plain
      else
        let fullRange := (max - min) / s + 1 in
        if count f =? fullRange
        then ("every " ++ toString s ++ " " ++ name ++ "s")%string
        else ("every " ++ toString s ++ " " ++ name ++ "s from " ++ firstValue
                       ++ " to " ++ lastValue)%string
    | _ => plain
    end.

Definition describeSeconds (p : CronParser) : string :=
  describeField (seconds p) "second" 0 59 None.

Definition describeMinutes (p : CronParser) : string :=
  describeField (minutes p) "minute" 0 59 None.

(** [hour % 12 === 0 ? 12 : hour % 12] and [hour < 12 ? 'AM' : 'PM']. *)
Definition displayHour (hour : Z) : Z :=
  if Z.rem hour 12 =? 0 then 12 else Z.rem hour 12.

Definition period (hour : Z) : string :=
  if hour <? 12 then "AM"%string else "PM"%string.

(** [minute < 10 ? `0${minute}` : minute]. *)
Definition displayMinute (minute : Z) : string :=
  if minute <? 10 then ("0" ++ toString minute)%string else toString minute.

Definition describeHours (p : CronParser) : string :=
  match values (hours p), values (minutes p) with
  | [hour], [minute] =>
    if negb (hasStep (hours p)) && negb (hasStep (minutes p)) then
      ("at time " ++ toString (displayHour hour) ++ ":" ++ displayMinute minute
                  ++ " " ++ period hour)%string
    else describeField (hours p) "hour" 0 23 None
  | _, _ => describeField (hours p) "hour" 0 23 None
  end.

(** [`${v}${v % 10 === 1 ? 'st' : ...}`] of [values[0]] or of the last
    value. *)
Definition lastDigitOrdinal (v : option Z) : string :=
  (showValue v ++ lastDigitSuffix v)%string.

Definition describeDaysOfMonth (p : CronParser) : string :=
  let mods := dayOfMonthModifiers p in
  let vals := values (daysOfMonth p) in
  if DayOfMonthModifiers.lastDay mods then
    if truthy (DayOfMonthModifiers.lastDayOffset mods)
    then ("on the " ++ showNumber (DayOfMonthModifiers.lastDayOffset mods)
                    ++ "th-to-last day of the month")%string
    else "on the last day of the month"%string
  else if DayOfMonthModifiers.lastWeekday mods then
    "on the last weekday of the month"%string
  else if DayOfMonthModifiers.nearestWeekday mods then
    ("on the nearest weekday to the " ++ lastDigitOrdinal (hd_error vals)
       ++ " of the month")%string
  else if (count (daysOfMonth p) >? 15) && hasStep (daysOfMonth p) then
    ("on every " ++ showNumber (match step (daysOfMonth p) with
                                | Some n => n
                                | None => NaN
                                end)
       ++ " days from the " ++ lastDigitOrdinal (hd_error vals)
       ++ " to the " ++ lastDigitOrdinal (hd_error (rev vals)))%string
  else describeField (daysOfMonth p) "day" 1 31 None.

Definition describeMonths (p : CronParser) : string :=
  describeField (months p) "month" 1 12 (Some (fun m => index monthNames (m - 1))).

Definition ordinals : list string :=
  ["first"; "second"; "third"; "fourth"; "fifth"]%string.

(** [dayNames[this.daysOfWeek.values[0]]], where [values[0]] may be
    [undefined]. *)
Definition firstDayName (p : CronParser) : option string :=
  match hd_error (values (daysOfWeek p)) with
  | Some d => index dayNames d
  | None => None
  end.

Definition describeDaysOfWeek (p : CronParser) : string :=
  let mods := dayOfWeekModifiers p in
  match DayOfWeekModifiers.nthDay mods with
  | Num n =>
    if negb (n =? 0) then
      ("on the " ++ template (index ordinals (n - 1)) ++ " "
                 ++ template (firstDayName p) ++ " of the month")%string
    else if DayOfWeekModifiers.lastDay mods then
      ("on the last " ++ template (firstDayName p) ++ " of the month")%string
    else describeField (daysOfWeek p) "day" 0 6 (Some (fun d => index dayNames d))
  | NaN =>
    if DayOfWeekModifiers.lastDay mods then
      ("on the last " ++ template (firstDayName p) ++ " of the month")%string
    else describeField (daysOfWeek p) "day" 0 6 (Some (fun d => index dayNames d))
  end.

Definition describeYears (p : CronParser) : string :=
  describeField (years p) "year" 1970 2099 None.

(** [parts.push(x)] under a condition. *)
Definition pushIf (cond : bool) (x : string) (parts : list string) : list string :=
  if cond then parts ++ [x] else parts.

(** The condition under which [translate] says 'every hour'; [parts] is
    what has been said so far. *)
Definition everyHour (p : CronParser) (parts : list string) : bool :=
  (Z.of_nat (List.length parts) =? 0)
  && (count (daysOfMonth p) =? 0)
  && negb (truthy (DayOfWeekModifiers.nthDay (dayOfWeekModifiers p)))
  && negb (DayOfWeekModifiers.lastDay (dayOfWeekModifiers p))
  && (count (daysOfWeek p) =? 0)
  && (count (months p) =? 0)
  && (count (years p) =? 0).

(** The condition under which [translate] says 'every day'. *)
Definition everyDay (p : CronParser) : bool :=
  (count (daysOfWeek p) =? 0)
  && negb (truthy (DayOfWeekModifiers.nthDay (dayOfWeekModifiers p)))
  && negb (DayOfWeekModifiers.lastDay (dayOfWeekModifiers p))
  && (count (months p) =? 0)
  && (count (years p) =? 0).

Definition translate (p : CronParser) : string :=
  let isMidnight := isOnly (seconds p) 0 && isOnly (minutes p) 0 && isOnly (hours p) 0 in
  let parts : list string := [] in
  let parts :=
    pushIf (hasStep (seconds p) || (count (seconds p) >? 1)
            || ((count (seconds p) =? 1) && negb (isOnly (seconds p) 0)))
           (describeSeconds p) parts in
  let parts :=
    pushIf (hasStep (minutes p) || (count (minutes p) >? 1)
            || ((count (minutes p) =? 1) && negb (isOnly (minutes p) 0)))
           (describeMinutes p) parts in
  let parts :=
    if isMidnight && negb (hasStep (seconds p)) && negb (hasStep (minutes p))
    then parts ++ ["at midnight"%string]
    else if hasStep (hours p) || (count (hours p) <? 24)
    then parts ++ [describeHours p]
    else pushIf (everyHour p parts) "every hour"%string parts in
  let isFeb29 := isOnly (daysOfMonth p) 29 && isOnly (months p) 2 in
  let mods := dayOfMonthModifiers p in
  let parts :=
    if DayOfMonthModifiers.lastDay mods || DayOfMonthModifiers.lastWeekday mods
       || DayOfMonthModifiers.nearestWeekday mods || (count (daysOfMonth p) >? 0)
       || isFeb29
    then parts ++ [if isFeb29 then "on the 29th of February"%string
                   else describeDaysOfMonth p]
    else pushIf (everyDay p) "every day"%string parts in
  let parts :=
    pushIf ((count (months p) <? 12) && negb isFeb29) (describeMonths p) parts in
  let parts :=
    pushIf (truthy (DayOfWeekModifiers.nthDay (dayOfWeekModifiers p))
            || DayOfWeekModifiers.lastDay (dayOfWeekModifiers p)
            || (count (daysOfWeek p) >? 0))
           (describeDaysOfWeek p) parts in
  let parts := pushIf (count (years p) >? 0) (describeYears p) parts in
  let result := join ", " (filter (fun part => negb (part =? "")%string) parts) in
  if (result =? "")%string then "every second"%string else result.

(** ** The older builds *)

(** The parsed state of the two older builds (the earlier TypeScript source
    and its compiled JavaScript, which have the same fields): a [null] set
    is [None].  The older builds throw errors with texts of their own; the
    model tags each with the error of the main build that stands for the
    same cause, and [message] does not render them. *)
Module Older.

Record State : Type := mkState {
  secondSet : option (list Z);
  minuteSet : option (list Z);
  hourSet : option (list Z);
  dayOfMonthSet : option (list Z);
  monthSet : option (list Z);
  dayOfWeekSet : option (list Z);
  yearSet : option (list Z);
  lastDayOfMonth : bool;
  lastDayOfWeek : option Z;
  lastWeekday : bool;
  nearestWeekday : option Z;
  nthDayOfWeek : option (Z * Z)
}.

(** A [number | null] read as a condition: [null] and 0 are falsy. *)
Definition isSet (n : option Z) : bool :=
  match n with
  | Some z => negb (z =? 0)
  | None => false
  end.

(** [x !== null], and an object or array read as a condition. *)
Definition notNull {A : Type} (x : option A) : bool :=
  match x with
  | Some _ => true
  | None => false
  end.

(** [let maxD = 31; if (m === 2) maxD = february;
     if ([4, 6, 9, 11].includes(m)) maxD = 30]. *)
Definition maxD (february m : Z) : Z :=
  let maxD := 31 in
  let maxD := if m =? 2 then february else maxD in
  if includes m [4; 6; 9; 11] then 30 else maxD.

(** [for (const d of dayOfMonthSet) if (d > maxD) return false], inside
    [for (const m of monthSet)]: [None] when no pair is refused, and the
    first refused pair otherwise. *)
Fixpoint firstOver (limit : Z) (days : list Z) : option Z :=
  match days with
  | [] => None
  | d :: rest => if d >? limit then Some d else firstOver limit rest
  end.

(** The same loop for every month, with [february] for [maxD] in
    February. *)
Fixpoint firstImpossible (february : Z) (months days : list Z) : option (Z * Z) :=
  match months with
  | [] => None
  | m :: rest =>
    match firstOver (maxD february m) days with
    | Some d => Some (d, m)
    | None => firstImpossible february rest days
    end
  end.

(** [for (const y of yearSet) if (y < 1970 || y > 2099) return false]. *)
Definition yearsInRange (years : list Z) : bool :=
  forallb (fun y => negb ((y <? 1970) || (y >? 2099))) years.

(** [isValid()] of the earlier TypeScript source. *)
Definition isValid (this : State) : bool :=
  if match dayOfMonthSet this, monthSet this with
     | Some days, Some months => notNull (firstImpossible 28 months days)
     | _, _ => false
     end
  then false
  else if notNull (dayOfMonthSet this) && notNull (dayOfWeekSet this)
          && negb (lastDayOfMonth this) && negb (notNull (nthDayOfWeek this))
          && negb (isSet (nearestWeekday this)) && negb (lastWeekday this)
  then false
  else if match yearSet this with
          | Some years => negb (yearsInRange years)
          | None => false
          end
  then false
  else if isSet (nearestWeekday this) && notNull (dayOfMonthSet this) then false
  else if isSet (lastDayOfWeek this) && notNull (dayOfMonthSet this)
          && negb (lastDayOfMonth this)
  then false
  else true.

(** The two checks at the end of the constructor of the compiled older
    build; the texts are 'Both day-of-month and day-of-week cannot be
    specified unless one is * or ?' and 'Invalid date: day d is not valid
    for month m'. *)
Definition crossChecks (this : State) : result unit :=
  if notNull (dayOfMonthSet this) && notNull (dayOfWeekSet this)
     && negb (lastDayOfMonth this) && negb (notNull (nthDayOfWeek this))
     && negb (isSet (nearestWeekday this)) && negb (lastWeekday this)
  then Throw DayFieldsConflict
  else
    match dayOfMonthSet this, monthSet this with
    | Some days, Some months =>
      match firstImpossible 29 months days with
      | Some (d, m) => Throw (InvalidDate d m)
      | None => Ok tt
      end
    | _, _ => Ok tt
    end.

(** [getNearestWeekday(current, targetDay)] of the earlier TypeScript
    source, for a [targetDay] that is a day of the month of [current]. *)
Definition getNearestWeekday (year month targetDay : Z) : Z :=
  let dow := Luxon.weekday year month targetDay in
  let maxDay := Luxon.daysInMonth year month in
  if dow =? 7 then Z.min (targetDay + 1) maxDay
  else if dow =? 6 then Z.max (targetDay - 1) 1
  else targetDay.

(** [texts.map(v => parseInt(v, 10))]. *)
Definition parseInts (texts : list string) : list jsnum := map parseInt texts.

(** [n || min]. *)
Definition orMin (n : jsnum) (min : Z) : jsnum :=
  if truthy n then n else Num min.

(** [if (isNaN(start) || isNaN(end) || start < min || end > max || start > end)
      throw new CronError(`Invalid range: ${text}`)]. *)
Definition checkedRange (text : string) (start end_ : jsnum) (min max : Z)
  : result (Z * Z) :=
  match start, end_ with
  | Num s, Num e =>
    if (s <? min) || (e >? max) || (s >? e) then Throw (InvalidRange text min max)
    else Ok (s, e)
  | _, _ => Throw (InvalidRange text min max)
  end.

(** One part of a field in [parseField]: a step, a range or a number;
    [values] is the array built so far. *)
Definition parsePart (fuel : nat) (part : string) (min max : Z) (values : list Z)
  : result (list Z) :=
  if includesChar "/" part then
    let pieces := split "/" part in
    let range := nth 0 pieces ""%string in
    let step := nth 1 pieces ""%string in
    match parseInt step with
    | Num stepValue =>
      if stepValue <=? 0 then Throw (InvalidStep step)
      else
        let bounds :=
          if (range =? "*")%string then (Num min, Num max)
          else if includesChar "-" range then
            let ends := parseInts (split "-" range) in
            (nth 0 ends NaN, nth 1 ends NaN)
          else (orMin (parseInt range) min, Num max) in
        ' (start, end_) <- checkedRange range (fst bounds) (snd bounds) min max ;;
        stepLoop fuel start end_ (Num stepValue) values
    | NaN => Throw (InvalidStep step)
    end
  else if includesChar "-" part then
    let ends := parseInts (split "-" part) in
    ' (start, end_) <- checkedRange part (nth 0 ends NaN) (nth 1 ends NaN) min max ;;
    stepLoop fuel start end_ (Num 1) values
  else
    match parseInt part with
    | Num num =>
      if (num <? min) || (num >? max) then Throw (InvalidValue part min max)
      else Ok (values ++ [num])
    | NaN => Throw (InvalidValue part min max)
    end.

(** [for (const part of parts) { ... }]. *)
Fixpoint parseParts (fuel : nat) (parts : list string) (min max : Z) (values : list Z)
  : result (list Z) :=
  match parts with
  | [] => Ok values
  | part :: rest =>
    values <- parsePart fuel part min max values ;;
    parseParts fuel rest min max values
  end.

(** [parseField(field, min, max)] of the earlier TypeScript source, as the
    constructor calls it for seconds, minutes, hours and years: without
    [allowSpecial] and without aliases. *)
Definition parseField (fuel : nat) (field : string) (min max : Z)
  : result (option (list Z)) :=
  if (field =? "*")%string || (field =? "?")%string then Ok None
  else
    values <- parseParts fuel (split "," field) min max [] ;;
    Ok (if Z.of_nat (List.length values) >? 0 then Some (sortAsc (uniq values))
        else None).

End Older.

(** * The vocabulary of the properties *)

(** The branch a pass left the loop body by, when it left it by a
    [return null] or a [continue]. *)
Definition leftBy (o : Outcome) : option Branch :=
  match o with
  | ReturnNull b => Some b
  | Continue b _ => Some b
  | Found _ => None
  | Advance _ => None
  end.

(** The three [=== undefined] carries of the time-of-day units. *)
Definition isTimeCarry (b : Branch) : bool :=
  match b with
  | HourUndefined | MinuteUndefined | SecondUndefined => true
  | YearUndefined | DaySetEmpty => false
  end.

(** What a pass may return as found: only a candidate that [isMatch]
    accepts. *)
Definition foundMatches (p : CronParser) (o : Outcome) : Prop :=
  match o with
  | Found c => isMatch p (Luxon.Valid c) = true
  | _ => True
  end.

(** The field constraints of a schedule at a civil time, one by one. *)
Record Satisfies (p : CronParser) (c : Luxon.Civil) : Prop := {
  sat_year : fieldAdmits (years p) (Luxon.year c) = true;
  sat_month : fieldAdmits (months p) (Luxon.month c) = true;
  sat_day : In (Luxon.day c) (getDayOfMonthSet p (Luxon.year c) (Luxon.month c));
  sat_weekday : isDayOfWeekSatisfied p (Luxon.Valid c) = true;
  sat_hour : fieldAdmits (hours p) (Luxon.hour c) = true;
  sat_minute : fieldAdmits (minutes p) (Luxon.minute c) = true;
  sat_second : fieldAdmits (seconds p) (Luxon.second c) = true
}.

Inductive Direction : Type := Forward | Backward.

Definition search (dir : Direction) (p : CronParser) (from : Luxon.DateTime)
  : option Luxon.Civil :=
  match dir with
  | Forward => getNextFireTime p from
  | Backward => getPreviousFireTime p from
  end.

(** Ascending: every element is at most the elements after it. *)
Definition ascending (vals : list Z) : Prop := StronglySorted Z.le vals.

Definition isInvalidDate (e : CronError) : bool :=
  match e with
  | InvalidDate _ _ => true
  | _ => false
  end.

(** The outcome is the impossible-date error. *)
Definition raisesInvalidDate {A : Type} (r : result A) : bool :=
  match r with
  | Throw e => isInvalidDate e
  | _ => false
  end.

(** Fuel for the loops of the field parser: the widest field has 130
    values. *)
Definition parseFuel : nat := 300.

(** [new CronParser(cronString, timezone).next(from)] and [.previous(from)]. *)
Definition nextOf (cronString : string) (timezone : Z) (from : Z) : result Z :=
  p <- newCronParser from parseFuel cronString timezone ;; next p from (Some from).

Definition previousOf (cronString : string) (timezone : Z) (from : Z) : result Z :=
  p <- newCronParser from parseFuel cronString timezone ;; previous p from (Some from).

(** 2025-09-28T12:00:00Z. *)
Definition reference : Z := 1759060800.

Definition noDayOfMonthModifiers : DayOfMonthModifiers.t :=
  DayOfMonthModifiers.mk false (Num 0) false false.

Definition noDayOfWeekModifiers : DayOfWeekModifiers.t :=
  DayOfWeekModifiers.mk (Num 0) false.

Definition only (v : Z) : CronField := mkField [v] None.

(** The model of ['0 0 0 29 FEB ?'] in UTC. *)
Definition feb29Schedule : CronParser :=
  {| timezone := 0;
     seconds := only 0; minutes := only 0; hours := only 0;
     daysOfMonth := only 29; months := only 2;
     daysOfWeek := emptyField; years := emptyField;
     dayOfMonthModifiers := noDayOfMonthModifiers;
     dayOfWeekModifiers := noDayOfWeekModifiers;
     cronString := "0 0 0 29 FEB ?" |}.

(** A schedule whose day of month is 29, whose month is February, and
    which has no day-of-month modifier. *)
Record Feb29Only (p : CronParser) : Prop := {
  f29_days : values (daysOfMonth p) = [29];
  f29_months : values (months p) = [2];
  f29_lastDay : DayOfMonthModifiers.lastDay (dayOfMonthModifiers p) = false;
  f29_lastWeekday : DayOfMonthModifiers.lastWeekday (dayOfMonthModifiers p) = false;
  f29_nearestWeekday : DayOfMonthModifiers.nearestWeekday (dayOfMonthModifiers p) = false
}.

(** The model of ['0 0 0 29 FEB ? 2025']: 2025 is no leap year and the only
    year allowed, so no instant matches. *)
Definition feb29In2025 : CronParser :=
  setYears feb29Schedule (only 2025).

(** A schedule whose day-of-month field is [targetW]. *)
Record NearestWeekdayTo (p : CronParser) (target : Z) : Prop := {
  nw_flag : DayOfMonthModifiers.nearestWeekday (dayOfMonthModifiers p) = true;
  nw_lastDay : DayOfMonthModifiers.lastDay (dayOfMonthModifiers p) = false;
  nw_lastWeekday : DayOfMonthModifiers.lastWeekday (dayOfMonthModifiers p) = false;
  nw_target : hd_error (values (daysOfMonth p)) = Some target
}.

(** The model of ['0 0 0 26W * ?'] in UTC. *)
Definition nearest26Schedule : CronParser :=
  {| timezone := 0;
     seconds := only 0; minutes := only 0; hours := only 0;
     daysOfMonth := only 26;
     months := mkField [1; 2; 3; 4; 5; 6; 7; 8; 9; 10; 11; 12] None;
     daysOfWeek := emptyField; years := emptyField;
     dayOfMonthModifiers := DayOfMonthModifiers.mk false (Num 0) false true;
     dayOfWeekModifiers := noDayOfWeekModifiers;
     cronString := "0 0 0 26W * ?" |}.

(** A check of the calendar arithmetic on one day number: the civil date
    it converts to is a date of the calendar and converts back to it. *)
Definition calendarAgrees (z : Z) : bool :=
  let '(y, m, d) := Luxon.civilFromDays z in
  (Luxon.daysFromCivil y m d =? z)
  && Luxon.inRange 1 12 m && Luxon.inRange 1 (Luxon.daysInMonth y m) d.

(** The same check on [n] consecutive day numbers from [z] on. *)
Fixpoint calendarAgreesFrom (n : nat) (z : Z) : bool :=
  match n with
  | O => true
  | S k => calendarAgrees z && calendarAgreesFrom k (z + 1)
  end.

(** ** The vocabulary of the further properties *)

(** Strictly ascending: sorted, and no value occurs twice. *)
Definition strictlyAscending (vals : list Z) : Prop := StronglySorted Z.lt vals.

(** Every value lies in [min..max]. *)
Definition within (min max : Z) (vals : list Z) : Prop :=
  Forall (fun v => min <= v <= max) vals.

(** The step of a field, when it has one, is positive or [NaN]. *)
Definition stepCounted (f : CronField) : Prop :=
  match step f with
  | Some (Num s) => 0 < s
  | Some NaN => True
  | None => True
  end.

(** The values of a field are strictly ascending values of its domain; a
    filled field has at least one. *)
Definition fieldWithin (lo hi : Z) (f : CronField) : Prop :=
  strictlyAscending (values f) /\ within lo hi (values f).

Definition fieldFilled (lo hi : Z) (f : CronField) : Prop :=
  values f <> [] /\ fieldWithin lo hi f.

(** A parser whose fields hold what their domains allow: seconds, minutes,
    hours and months are filled; the day fields and the year may be empty;
    the [#] count is unset (0), [NaN] or one of 1..5. *)
Record WellFormed (p : CronParser) : Prop := {
  seconds_filled : fieldFilled 0 59 (seconds p);
  minutes_filled : fieldFilled 0 59 (minutes p);
  hours_filled : fieldFilled 0 23 (hours p);
  months_filled : fieldFilled 1 12 (months p);
  daysOfMonth_within : fieldWithin 1 31 (daysOfMonth p);
  daysOfWeek_within : fieldWithin 0 6 (daysOfWeek p);
  years_within : fieldWithin 1970 2099 (years p);
  nthDay_within : match DayOfWeekModifiers.nthDay (dayOfWeekModifiers p) with
                  | Num n => 0 <= n <= 5
                  | NaN => True
                  end
}.

(** The loop of the model did not stop within the fuel it was given. *)
Definition outOfFuel {A : Type} (r : result A) : bool :=
  match r with
  | OutOfFuel => true
  | _ => false
  end.

(** The field has a step, [field.split('/')[1]], and the step is
    negative. *)
Definition hasNegativeStep (field : string) : bool :=
  includesChar "/" field
  && match parseInt (nth 1 (split "/" field) ""%string) with
     | Num s => s <? 0
     | NaN => false
     end.

(** The errors of [parseField] and [parseRange]. *)
Definition isFieldError (e : CronError) : bool :=
  match e with
  | InvalidStep _ | InvalidValue _ _ _ | InvalidRange _ _ _ => true
  | _ => false
  end.

(** The errors that the code which parses the fields can throw, once the
    two checks on the field list are passed. *)
Definition isParsingError (e : CronError) : bool :=
  match e with
  | InvalidStep _ | InvalidValue _ _ _ | InvalidRange _ _ _ | InvalidNth
  | InvalidDate _ _ => true
  | _ => false
  end.

(** The outcome is no error, or an error of the given kind. *)
Definition raisesOnly {A : Type} (kind : CronError -> bool) (r : result A) : bool :=
  match r with
  | Throw e => kind e
  | _ => true
  end.

(** The cause of each error of the constructor, read off the field list
    [cronString.trim().split(/\s+/)]: the number of fields, and whether
    [fields[3]] and [fields[5]] are both explicit. *)
Definition errorCause (cronString : string) (e : CronError) : Prop :=
  let fields := trimSplit cronString in
  let n := List.length fields in
  let conflict := isExplicit (nth_error fields 3) && isExplicit (nth_error fields 5) in
  match e with
  | InvalidFieldCount => (n < 5 \/ 7 < n)%nat
  | DayFieldsConflict => (5 <= n <= 7)%nat /\ conflict = true
  | InvalidStep _ | InvalidValue _ _ _ | InvalidRange _ _ _ | InvalidNth =>
    (5 <= n <= 7)%nat /\ conflict = false
  | InvalidDate _ _ | NoNextExecution | NoPreviousExecution => False
  end.

(** The offset of [L-N] is not negative: it counts back from the last
    day. *)
Definition lastDayOffsetCounted (p : CronParser) : Prop :=
  match DayOfMonthModifiers.lastDayOffset (dayOfMonthModifiers p) with
  | Num n => 0 <= n
  | NaN => True
  end.

(** [d] is a day of the month [m] of the year [y]. *)
Definition isDayOf (y m d : Z) : Prop :=
  1 <= m <= 12 /\ 1 <= d <= Luxon.daysInMonth y m.

(** A civil time of the calendar. *)
Definition isCivil (c : Luxon.Civil) : Prop :=
  isDayOf (Luxon.year c) (Luxon.month c) (Luxon.day c)
  /\ 0 <= Luxon.hour c <= 23 /\ 0 <= Luxon.minute c <= 59 /\ 0 <= Luxon.second c <= 59.

(** A schedule whose day-of-month field is [LW]. *)
Record LastWeekday (p : CronParser) : Prop := {
  lw_flag : DayOfMonthModifiers.lastWeekday (dayOfMonthModifiers p) = true;
  lw_lastDay : DayOfMonthModifiers.lastDay (dayOfMonthModifiers p) = false
}.

(** A schedule whose day set is decided by its day-of-week field alone: no
    day of month is listed and no day-of-month modifier is set. *)
Record ByDayOfWeek (p : CronParser) : Prop := {
  bw_days : values (daysOfMonth p) = [];
  bw_lastDay : DayOfMonthModifiers.lastDay (dayOfMonthModifiers p) = false;
  bw_lastWeekday : DayOfMonthModifiers.lastWeekday (dayOfMonthModifiers p) = false;
  bw_nearestWeekday : DayOfMonthModifiers.nearestWeekday (dayOfMonthModifiers p) = false
}.

(** [d] is the [n]-th day of the month that falls on the day of week
    [target]: these days are 7 days apart and the first of them is among
    the days 1..7, so the [n]-th is the one among the days
    [7 (n - 1) + 1 .. 7 n]. *)
Definition NthOccurrence (y m target n d : Z) : Prop :=
  isDayOf y m d /\ dowOf y m d = target /\ 7 * (n - 1) < d <= 7 * n.

(** [d] is the last day of the month that falls on the day of week
    [target]: it is among the last 7 days. *)
Definition LastOccurrence (y m target d : Z) : Prop :=
  isDayOf y m d /\ dowOf y m d = target /\ Luxon.daysInMonth y m - 7 < d.

(** A schedule whose day-of-week field is [target#n]. *)
Record NthDayOfWeek (p : CronParser) (target n : Z) : Prop := {
  nd_target : hd_error (values (daysOfWeek p)) = Some target;
  nd_nth : DayOfWeekModifiers.nthDay (dayOfWeekModifiers p) = Num n;
  nd_set : n <> 0
}.

(** A schedule whose day-of-week field is [targetL]. *)
Record LastDayOfWeek (p : CronParser) (target : Z) : Prop := {
  ld_target : hd_error (values (daysOfWeek p)) = Some target;
  ld_range : 0 <= target <= 6;
  ld_nth : truthy (DayOfWeekModifiers.nthDay (dayOfWeekModifiers p)) = false;
  ld_flag : DayOfWeekModifiers.lastDay (dayOfWeekModifiers p) = true
}.

(** A schedule whose day-of-month field is [L-N] with [N] at least 31, or
    with an [N] that [parseInt] does not read. *)
Record LastDayBeyondMonth (p : CronParser) : Prop := {
  lb_flag : DayOfMonthModifiers.lastDay (dayOfMonthModifiers p) = true;
  lb_offset : match DayOfMonthModifiers.lastDayOffset (dayOfMonthModifiers p) with
              | Num n => 31 <= n
              | NaN => True
              end
}.

(** Where a found candidate comes from: a year and an hour of the
    candidate lists, put together by [fromObject]. *)
Definition foundFrom (yearValues hourValues : list Z) (o : Outcome) : Prop :=
  match o with
  | Found r =>
    exists y m d h mi s,
      In y yearValues /\ In h hourValues
      /\ Luxon.fromObject y m d h mi s = Luxon.Valid r
  | _ => True
  end.

(** The model of ['0 * * * *'] in UTC: five fields, so the seconds are
    [[0]]. *)
Definition hourlySchedule : CronParser :=
  {| timezone := 0;
     seconds := only 0; minutes := only 0;
     hours := mkField (arrayFrom 24 0) None;
     daysOfMonth := mkField (arrayFrom 31 1) None;
     months := mkField (arrayFrom 12 1) None;
     daysOfWeek := mkField (arrayFrom 7 0) None;
     years := emptyField;
     dayOfMonthModifiers := noDayOfMonthModifiers;
     dayOfWeekModifiers := noDayOfWeekModifiers;
     cronString := "0 * * * *" |}.

(** The models of ['0 0 0 LW * ?'], ['0 0 0 ? * MON#2'], ['0 0 0 ? * 5L']
    and ['0 0 0 L-31 * ?'] in UTC. *)
Definition midnightOf (cronString : string) (dom : DayOfMonthModifiers.t)
           (dow : CronField) (dowMods : DayOfWeekModifiers.t) : CronParser :=
  {| timezone := 0;
     seconds := only 0; minutes := only 0; hours := only 0;
     daysOfMonth := emptyField;
     months := mkField (arrayFrom 12 1) None;
     daysOfWeek := dow; years := emptyField;
     dayOfMonthModifiers := dom;
     dayOfWeekModifiers := dowMods;
     cronString := cronString |}.

Definition lastWeekdaySchedule : CronParser :=
  midnightOf "0 0 0 LW * ?" (DayOfMonthModifiers.mk false (Num 0) true false)
             emptyField noDayOfWeekModifiers.

Definition secondMondaySchedule : CronParser :=
  midnightOf "0 0 0 ? * MON#2" noDayOfMonthModifiers
             (only 1) (DayOfWeekModifiers.mk (Num 2) false).

Definition lastFridaySchedule : CronParser :=
  midnightOf "0 0 0 ? * 5L" noDayOfMonthModifiers
             (only 5) (DayOfWeekModifiers.mk (Num 0) true).

Definition lastDayMinus31Schedule : CronParser :=
  midnightOf "0 0 0 L-31 * ?" (DayOfMonthModifiers.mk true (Num 31) false false)
             emptyField noDayOfWeekModifiers.

(** A schedule whose day-of-month field is the single day [target], with
    no step and no modifier. *)
Record SingleDay (p : CronParser) (target : Z) : Prop := {
  sd_days : values (daysOfMonth p) = [target];
  sd_step : hasStep (daysOfMonth p) = false;
  sd_lastDay : DayOfMonthModifiers.lastDay (dayOfMonthModifiers p) = false;
  sd_lastWeekday : DayOfMonthModifiers.lastWeekday (dayOfMonthModifiers p) = false;
  sd_nearestWeekday : DayOfMonthModifiers.nearestWeekday (dayOfMonthModifiers p) = false
}.

(** The values [start, start + s, start + 2 s, ...] up to [end_]. *)
Definition progression (start end_ s : Z) : list Z :=
  map (fun k => start + s * Z.of_nat k) (seq 0 (Z.to_nat ((end_ - start) / s + 1))).

(** * Properties *)

(** ** The primitives on examples *)

Example epoch_2028_02_29 :
  Luxon.toUnixInteger 0 (Luxon.mkCivil 2028 2 29 0 0 0) = 1835395200.
Proof. reflexivity. Qed.

Example civil_of_1759060800 :
  Luxon.fromSeconds 0 1759060800 = Luxon.mkCivil 2025 9 28 12 0 0.
Proof. reflexivity. Qed.

Example weekday_2025_09_28 : Luxon.weekday 2025 9 28 = 7.
Proof. reflexivity. Qed.

Example weekday_1970_01_01 : Luxon.weekday 1970 1 1 = 4.
Proof. reflexivity. Qed.

(** Every day from 1970-01-01 to 2100-12-31. *)
Example calendar_1970_2100 : calendarAgreesFrom (Z.to_nat 47847) 0 = true.
Proof. vm_compute. reflexivity. Qed.

Example parseInt_neg : JsString.parseInt "-1" = Num (-1).
Proof. reflexivity. Qed.

Example parseInt_junk : JsString.parseInt "5x" = Num 5 /\ JsString.parseInt "x" = NaN.
Proof. split; reflexivity. Qed.

Example trimSplit_fields :
  JsString.trimSplit "  0 0  12 * * ? "%string
  = ["0"; "0"; "12"; "*"; "*"; "?"]%string.
Proof. reflexivity. Qed.

Example split_step : JsString.split "/" "0-59/-1" = ["0-59"; "-1"]%string.
Proof. reflexivity. Qed.

Example toString_59 : JsString.toString 59 = "59"%string.
Proof. reflexivity. Qed.

Example parseField_step15 :
  parseField 100 "*/15" 0 59 = Ok (mkField [0; 15; 30; 45] (Some (Num 15))).
Proof. reflexivity. Qed.

Example parseField_list :
  parseField 100 "15,1,15" 1 31 = Ok (mkField [1; 15] None).
Proof. reflexivity. Qed.

Example parseField_mixed :
  parseField 100 "0,30/15" 0 59 = Ok (mkField [0; 30] (Some (Num 15))).
Proof. reflexivity. Qed.

(** ** The branch a pass through a loop body left by *)

Ltac break_match :=
  match goal with
  | |- context [match ?x with _ => _ end] => destruct x eqn:?
  end.

Ltac break_match_hyp :=
  match goal with
  | H : context [match ?x with _ => _ end] |- _ => destruct x eqn:?
  end.

Lemma includes_In (x : Z) (arr : list Z) : includes x arr = true <-> In x arr.
Proof.
  unfold includes. rewrite existsb_exists. split.
  - intros [y [Hy Heq]]. apply Z.eqb_eq in Heq. now subst.
  - intros H. exists x. split; [assumption | apply Z.eqb_refl].
Qed.

Lemma isMatch_Satisfies (p : CronParser) (c : Luxon.Civil) :
  isMatch p (Luxon.Valid c) = true <-> Satisfies p c.
Proof.
  unfold isMatch. split.
  - intros H.
    destruct (fieldAdmits (years p) (Luxon.year c)) eqn:Hy;
      cbn [negb] in H; try discriminate.
    destruct (fieldAdmits (months p) (Luxon.month c)) eqn:Hm;
      cbn [negb] in H; try discriminate.
    destruct (includes (Luxon.day c) (getDayOfMonthSet p (Luxon.year c) (Luxon.month c)))
      eqn:Hd; cbn [negb] in H; try discriminate.
    destruct (isDayOfWeekSatisfied p (Luxon.Valid c)) eqn:Hw;
      cbn [negb] in H; try discriminate.
    destruct (fieldAdmits (hours p) (Luxon.hour c)) eqn:Hh;
      cbn [negb] in H; try discriminate.
    destruct (fieldAdmits (minutes p) (Luxon.minute c)) eqn:Hmi;
      cbn [negb] in H; try discriminate.
    destruct (fieldAdmits (seconds p) (Luxon.second c)) eqn:Hs;
      cbn [negb] in H; try discriminate.
    constructor; try assumption; try reflexivity. now apply includes_In.
  - intros [Hy Hm Hd Hw Hh Hmi Hs].
    apply includes_In in Hd. rewrite Hy, Hm, Hd, Hw, Hh, Hmi, Hs. reflexivity.
Qed.

Section ForwardFacts.
Variable p : CronParser.

Lemma nextAdvanceYear_leftBy (b : Branch) (y : Z) :
  leftBy (nextAdvanceYear p b y) = Some b.
Proof. unfold nextAdvanceYear. repeat break_match; reflexivity. Qed.

Lemma nextAdvanceDay_leftBy (b : Branch) (ds : list Z) (y m d : Z) :
  leftBy (nextAdvanceDay p b ds y m d) = Some b.
Proof.
  unfold nextAdvanceDay. break_match; [reflexivity | apply nextAdvanceYear_leftBy].
Qed.

Lemma nextAdvanceHour_leftBy (b : Branch) (ds : list Z) (y m d h : Z) :
  leftBy (nextAdvanceHour p b ds y m d h) = Some b.
Proof.
  unfold nextAdvanceHour. break_match; [reflexivity | apply nextAdvanceDay_leftBy].
Qed.

Lemma nextAdvanceMinute_leftBy (b : Branch) (ds : list Z) (y m d h mi : Z) :
  leftBy (nextAdvanceMinute p b ds y m d h mi) = Some b.
Proof.
  unfold nextAdvanceMinute. break_match; [reflexivity | apply nextAdvanceHour_leftBy].
Qed.

Lemma leftBy_foundMatches (o : Outcome) (b : Branch) :
  leftBy o = Some b -> foundMatches p o.
Proof. destruct o; simpl; intros; try discriminate; exact I. Qed.

Lemma checkCandidate_foundMatches (k : Z) (d : Luxon.DateTime) :
  foundMatches p (checkCandidate p k d).
Proof.
  unfold checkCandidate. destruct d as [c |]; [| exact I].
  destruct (isMatch p (Luxon.Valid c)) eqn:H; simpl; [assumption | exact I].
Qed.

Lemma nextBody_foundMatches (d : Luxon.Civil) : foundMatches p (nextBody p d).
Proof.
  unfold nextBody.
  repeat first
    [ apply checkCandidate_foundMatches
    | eapply leftBy_foundMatches; apply nextAdvanceYear_leftBy
    | eapply leftBy_foundMatches; apply nextAdvanceDay_leftBy
    | eapply leftBy_foundMatches; apply nextAdvanceHour_leftBy
    | eapply leftBy_foundMatches; apply nextAdvanceMinute_leftBy
    | exact I
    | progress cbv zeta
    | break_match ].
Qed.

Lemma nextLoop_found (remaining : nat) :
  forall (iter : nat) (d : Luxon.DateTime) (r : Luxon.Civil),
    fst (nextLoop p remaining iter d) = Some r -> isMatch p (Luxon.Valid r) = true.
Proof.
  induction remaining as [| n IH]; intros iter d r H; simpl in H.
  - discriminate.
  - destruct d as [c |]; [| discriminate].
    destruct (Luxon.year c <=? maxYearOf p); [| discriminate].
    pose proof (nextBody_foundMatches c) as Hb.
    destruct (nextBody p c) as [b | b d' | c' | d']; simpl in *.
    + discriminate.
    + eapply IH; eassumption.
    + now inversion H; subst.
    + eapply IH; eassumption.
Qed.

End ForwardFacts.

(** ** The candidate lists are never empty *)

Lemma arrayFrom_nonempty (n lo : Z) : 0 < n -> arrayFrom n lo <> [].
Proof.
  intros Hn. unfold arrayFrom.
  destruct (Z.to_nat n) as [| k] eqn:Hk; [lia |].
  simpl. discriminate.
Qed.

Lemma valuesOr_nonempty (f : CronField) (n lo : Z) : 0 < n -> valuesOr f n lo <> [].
Proof.
  intros Hn. unfold valuesOr.
  destruct (values f) as [| x xs] eqn:Hv; simpl.
  - now apply arrayFrom_nonempty.
  - discriminate.
Qed.

Lemma monthValues_nonempty (p : CronParser) : monthValues p <> [].
Proof. apply valuesOr_nonempty. lia. Qed.

Lemma hourValues_nonempty (p : CronParser) : hourValues p <> [].
Proof. apply valuesOr_nonempty. lia. Qed.

Lemma minuteValues_nonempty (p : CronParser) : minuteValues p <> [].
Proof. apply valuesOr_nonempty. lia. Qed.

Lemma secondValues_nonempty (p : CronParser) : secondValues p <> [].
Proof. apply valuesOr_nonempty. lia. Qed.

Lemma prevYearValues_nonempty (p : CronParser) : prevYearValues p <> [].
Proof. apply valuesOr_nonempty. lia. Qed.

Lemma nextYearValues_nonempty (p : CronParser) : nextYearValues p <> [].
Proof.
  unfold nextYearValues, valuesOr, maxYearOf.
  destruct (values (years p)) as [| y ys]; simpl.
  - discriminate.
  - discriminate.
Qed.

(** ** [getNextValue] and [getPreviousValue] on a non-empty list *)

Lemma hd_error_nonempty {A : Type} (l : list A) : l <> [] -> hd_error l <> None.
Proof. destruct l; [congruence | discriminate]. Qed.

Lemma rev_nonempty {A : Type} (l : list A) : l <> [] -> rev l <> [].
Proof.
  intros H Hr. apply H. rewrite <- (rev_involutive l), Hr. reflexivity.
Qed.

Lemma nullish_hd_defined (o : option Z) (l : list Z) :
  l <> [] -> nullish o (hd_error l) <> None.
Proof.
  intros H. destruct o; simpl; [discriminate | now apply hd_error_nonempty].
Qed.

Lemma getNextValue_defined (vals : list Z) (val : Z) :
  vals <> [] -> getNextValue vals val <> None.
Proof. intros H. unfold getNextValue. now apply nullish_hd_defined. Qed.

Lemma getPreviousValue_defined (vals : list Z) (val : Z) :
  vals <> [] -> getPreviousValue vals val <> None.
Proof.
  intros H. unfold getPreviousValue. apply nullish_hd_defined. now apply rev_nonempty.
Qed.

Lemma getNextValue_In (vals : list Z) (val x : Z) :
  getNextValue vals val = Some x -> In x vals.
Proof.
  unfold getNextValue.
  destruct (find (fun v => v >=? val) vals) as [y |] eqn:Hf; simpl; intros H.
  - inversion H; subst. apply find_some in Hf. tauto.
  - destruct vals; simpl in H; [discriminate |]. inversion H; subst. now left.
Qed.

Lemma getPreviousValue_In (vals : list Z) (val x : Z) :
  getPreviousValue vals val = Some x -> In x vals.
Proof.
  unfold getPreviousValue.
  destruct (find (fun v => v <=? val) (rev vals)) as [y |] eqn:Hf; simpl; intros H.
  - inversion H; subst. apply find_some in Hf. apply in_rev. tauto.
  - destruct (rev vals) as [| z zs] eqn:Hr; simpl in H; [discriminate |].
    inversion H; subst. apply in_rev. rewrite Hr. now left.
Qed.

(** The first element a predicate holds for: everything before it fails. *)
Lemma find_first (f : Z -> bool) (l : list Z) (x : Z) :
  find f l = Some x ->
  exists pre post, l = pre ++ x :: post /\ f x = true /\ forall y, In y pre -> f y = false.
Proof.
  induction l as [| a l IH]; simpl; [discriminate |].
  destruct (f a) eqn:Hfa; intros H.
  - inversion H; subst. exists [], l. repeat split; [assumption | intros y []].
  - destruct (IH H) as [pre [post [Hl [Hx Hpre]]]].
    exists (a :: pre), post. subst l. repeat split; [assumption |].
    intros y [Hy | Hy]; [now subst | now apply Hpre].
Qed.

Lemma find_none_all (f : Z -> bool) (l : list Z) :
  find f l = None -> forall y, In y l -> f y = false.
Proof. intros H y Hy. exact (find_none f l H y Hy). Qed.

Lemma ascending_app_cons (pre post : list Z) (x : Z) :
  ascending (pre ++ x :: post) ->
  (forall y, In y pre -> y <= x) /\ (forall y, In y post -> x <= y).
Proof.
  unfold ascending. induction pre as [| a pre IH]; simpl; intros H.
  - apply StronglySorted_inv in H. destruct H as [_ Hall].
    rewrite Forall_forall in Hall. split; [intros y [] | assumption].
  - apply StronglySorted_inv in H. destruct H as [Hs Hall].
    destruct (IH Hs) as [Hpre Hpost]. split; [| assumption].
    intros y [Hy | Hy]; [| now apply Hpre].
    subst y. rewrite Forall_forall in Hall. apply Hall.
    apply in_or_app. right. now left.
Qed.

(** On an ascending list [getNextValue] is the smallest element that is at
    least [val], or the first element when no element is. *)
Lemma getNextValue_ascending (vals : list Z) (val x : Z) :
  ascending vals -> getNextValue vals val = Some x ->
  (val <= x /\ forall y, In y vals -> val <= y -> x <= y)
  \/ ((forall y, In y vals -> y < val) /\ hd_error vals = Some x).
Proof.
  intros Hs. unfold getNextValue.
  destruct (find (fun v => v >=? val) vals) as [y |] eqn:Hf; simpl; intros H.
  - inversion H; subst y. left.
    destruct (find_first _ _ _ Hf) as [pre [post [Hl [Hx Hpre]]]].
    split; [lia |]. intros y Hy Hle. subst vals.
    destruct (ascending_app_cons _ _ _ Hs) as [_ Hpost].
    apply in_app_or in Hy. destruct Hy as [Hy | [Hy | Hy]].
    + specialize (Hpre y Hy). simpl in Hpre. lia.
    + lia.
    + now apply Hpost.
  - right. split; [| assumption].
    intros y Hy. pose proof (find_none_all _ _ Hf y Hy) as Hn. simpl in Hn. lia.
Qed.

Lemma ascending_rev_app_cons (vals pre post : list Z) (x : Z) :
  ascending vals -> rev vals = pre ++ x :: post ->
  (forall y, In y pre -> x <= y) /\ (forall y, In y post -> y <= x).
Proof.
  intros Hs Hr.
  assert (Hv : vals = rev post ++ x :: rev pre).
  { rewrite <- (rev_involutive vals), Hr, rev_app_distr. simpl.
    rewrite <- app_assoc. reflexivity. }
  subst vals. destruct (ascending_app_cons _ _ _ Hs) as [Hpost Hpre].
  split; intros y Hy.
  - apply Hpre. now apply in_rev in Hy.
  - apply Hpost. now apply in_rev in Hy.
Qed.

(** Symmetrically, [getPreviousValue] is the largest element that is at
    most [val], or the last element when no element is. *)
Lemma getPreviousValue_ascending (vals : list Z) (val x : Z) :
  ascending vals -> getPreviousValue vals val = Some x ->
  (x <= val /\ forall y, In y vals -> y <= val -> y <= x)
  \/ ((forall y, In y vals -> val < y) /\ hd_error (rev vals) = Some x).
Proof.
  intros Hs. unfold getPreviousValue.
  destruct (find (fun v => v <=? val) (rev vals)) as [y |] eqn:Hf; simpl; intros H.
  - inversion H; subst y. left.
    destruct (find_first _ _ _ Hf) as [pre [post [Hl [Hx Hpre]]]].
    split; [lia |]. intros y Hy Hle.
    destruct (ascending_rev_app_cons _ _ _ _ Hs Hl) as [Hp Hq].
    apply in_rev in Hy. rewrite Hl in Hy.
    apply in_app_or in Hy. destruct Hy as [Hy | [Hy | Hy]].
    + specialize (Hpre y Hy). simpl in Hpre. lia.
    + lia.
    + now apply Hq.
  - right. split; [| assumption].
    intros y Hy. apply in_rev in Hy.
    pose proof (find_none_all _ _ Hf y Hy) as Hn. simpl in Hn. lia.
Qed.

(** ** The backward loop body *)

Section BackwardFacts.
Variable p : CronParser.

Lemma prevAdvanceYear_leftBy (b : Branch) (y : Z) :
  leftBy (prevAdvanceYear p b y) = Some b.
Proof. unfold prevAdvanceYear. repeat break_match; reflexivity. Qed.

Lemma prevAdvanceMonth_leftBy (b : Branch) (y m : Z) :
  leftBy (prevAdvanceMonth p b y m) = Some b.
Proof.
  unfold prevAdvanceMonth. break_match; [reflexivity | apply prevAdvanceYear_leftBy].
Qed.

Lemma prevAdvanceDay_leftBy (b : Branch) (ds : list Z) (y m d : Z) :
  leftBy (prevAdvanceDay p b ds y m d) = Some b.
Proof.
  unfold prevAdvanceDay. break_match; [reflexivity | apply prevAdvanceMonth_leftBy].
Qed.

Lemma prevAdvanceHour_leftBy (b : Branch) (ds : list Z) (y m d h : Z) :
  leftBy (prevAdvanceHour p b ds y m d h) = Some b.
Proof.
  unfold prevAdvanceHour. break_match; [reflexivity | apply prevAdvanceDay_leftBy].
Qed.

Lemma prevAdvanceMinute_leftBy (b : Branch) (ds : list Z) (y m d h mi : Z) :
  leftBy (prevAdvanceMinute p b ds y m d h mi) = Some b.
Proof.
  unfold prevAdvanceMinute. break_match; [reflexivity | apply prevAdvanceHour_leftBy].
Qed.

Lemma prevBody_foundMatches (d : Luxon.Civil) : foundMatches p (prevBody p d).
Proof.
  unfold prevBody.
  repeat first
    [ apply checkCandidate_foundMatches
    | eapply leftBy_foundMatches; apply prevAdvanceYear_leftBy
    | eapply leftBy_foundMatches; apply prevAdvanceDay_leftBy
    | eapply leftBy_foundMatches; apply prevAdvanceHour_leftBy
    | eapply leftBy_foundMatches; apply prevAdvanceMinute_leftBy
    | exact I
    | progress cbv zeta
    | break_match ].
Qed.

Lemma prevLoop_found (remaining : nat) :
  forall (iter : nat) (d : Luxon.DateTime) (r : Luxon.Civil),
    fst (prevLoop p remaining iter d) = Some r -> isMatch p (Luxon.Valid r) = true.
Proof.
  induction remaining as [| n IH]; intros iter d r H; simpl in H.
  - discriminate.
  - destruct d as [c |]; [| discriminate].
    destruct (Luxon.year c >=? minYearOf p); [| discriminate].
    pose proof (prevBody_foundMatches c) as Hb.
    destruct (prevBody p c) as [b | b d' | c' | d']; simpl in *.
    + discriminate.
    + eapply IH; eassumption.
    + now inversion H; subst.
    + eapply IH; eassumption.
Qed.

End BackwardFacts.

(** ** The time-of-day carries are dead code *)

Lemma pick_defined (changed : bool) (o : option Z) (vals : list Z) :
  vals <> [] ->
  (if changed then hd_error vals else nullish o (hd_error vals)) <> None.
Proof.
  intros H. destruct changed; [now apply hd_error_nonempty | now apply nullish_hd_defined].
Qed.

Lemma checkCandidate_leftBy (p : CronParser) (k : Z) (d : Luxon.DateTime) :
  leftBy (checkCandidate p k d) = None.
Proof. unfold checkCandidate. repeat break_match; reflexivity. Qed.

Ltac dead_carry p :=
  exfalso;
  first
    [ eapply (pick_defined _ _ (hourValues p)); [apply hourValues_nonempty | eassumption]
    | eapply (pick_defined _ _ (minuteValues p)); [apply minuteValues_nonempty | eassumption]
    | eapply (pick_defined _ _ (secondValues p)); [apply secondValues_nonempty | eassumption]
    | eapply (pick_defined _ _ (rev (hourValues p)));
      [apply rev_nonempty, hourValues_nonempty | eassumption]
    | eapply (pick_defined _ _ (rev (minuteValues p)));
      [apply rev_nonempty, minuteValues_nonempty | eassumption]
    | eapply (pick_defined _ _ (rev (secondValues p)));
      [apply rev_nonempty, secondValues_nonempty | eassumption] ].

Lemma nextBody_no_time_carry (p : CronParser) (d : Luxon.Civil) (b : Branch) :
  leftBy (nextBody p d) = Some b -> b = DaySetEmpty.
Proof.
  unfold nextBody.
  destruct (getNextValue (nextYearValues p) (Luxon.year d)) as [nextYear |] eqn:Hy.
  2: { exfalso. revert Hy. apply getNextValue_defined, nextYearValues_nonempty. }
  cbv zeta.
  destruct (isEmpty _).
  { rewrite nextAdvanceYear_leftBy. congruence. }
  match goal with
  | |- context [match ?x with Some _ => _ | None => _ end] => destruct x eqn:Hh
  end.
  2: dead_carry p.
  match goal with
  | |- context [match ?x with Some _ => _ | None => _ end] => destruct x eqn:Hm
  end.
  2: dead_carry p.
  match goal with
  | |- context [match ?x with Some _ => _ | None => _ end] => destruct x eqn:Hs
  end.
  2: dead_carry p.
  rewrite checkCandidate_leftBy. discriminate.
Qed.

Lemma prevBody_no_time_carry (p : CronParser) (d : Luxon.Civil) (b : Branch) :
  leftBy (prevBody p d) = Some b -> b = DaySetEmpty.
Proof.
  unfold prevBody.
  destruct (getPreviousValue (prevYearValues p) (Luxon.year d)) as [prevYear |] eqn:Hy.
  2: { exfalso. revert Hy. apply getPreviousValue_defined, prevYearValues_nonempty. }
  cbv zeta.
  destruct (isEmpty _).
  { rewrite prevAdvanceYear_leftBy. congruence. }
  match goal with
  | |- context [match ?x with Some _ => _ | None => _ end] => destruct x eqn:Hh
  end.
  2: dead_carry p.
  match goal with
  | |- context [match ?x with Some _ => _ | None => _ end] => destruct x eqn:Hm
  end.
  2: dead_carry p.
  match goal with
  | |- context [match ?x with Some _ => _ | None => _ end] => destruct x eqn:Hs
  end.
  2: dead_carry p.
  rewrite checkCandidate_leftBy. discriminate.
Qed.

(** ** The loops are bounded *)

Lemma nextLoop_iter_bound (p : CronParser) (remaining : nat) :
  forall (iter : nat) (d : Luxon.DateTime),
    (snd (nextLoop p remaining iter d) <= iter + remaining)%nat.
Proof.
  induction remaining as [| n IH]; intros iter d; simpl.
  - lia.
  - destruct d as [c |]; simpl; [| lia].
    destruct (Luxon.year c <=? maxYearOf p); simpl; [| lia].
    destruct (nextBody p c); simpl; try lia.
    + specialize (IH (S iter) d). lia.
    + specialize (IH (S iter) d). lia.
Qed.

Lemma prevLoop_iter_bound (p : CronParser) (remaining : nat) :
  forall (iter : nat) (d : Luxon.DateTime),
    (snd (prevLoop p remaining iter d) <= iter + remaining)%nat.
Proof.
  induction remaining as [| n IH]; intros iter d; simpl.
  - lia.
  - destruct d as [c |]; simpl; [| lia].
    destruct (Luxon.year c >=? minYearOf p); simpl; [| lia].
    destruct (prevBody p c); simpl; try lia.
    + specialize (IH (S iter) d). lia.
    + specialize (IH (S iter) d). lia.
Qed.

Lemma nextLoop_past_maxYear (p : CronParser) (remaining iter : nat) (c : Luxon.Civil) :
  maxYearOf p < Luxon.year c ->
  nextLoop p remaining iter (Luxon.Valid c) = (None, iter).
Proof.
  intros H. destruct remaining; simpl; [reflexivity |].
  destruct (Luxon.year c <=? maxYearOf p) eqn:Hle; [lia | reflexivity].
Qed.

Lemma prevLoop_before_minYear (p : CronParser) (remaining iter : nat) (c : Luxon.Civil) :
  Luxon.year c < minYearOf p ->
  prevLoop p remaining iter (Luxon.Valid c) = (None, iter).
Proof.
  intros H. destruct remaining; simpl; [reflexivity |].
  destruct (Luxon.year c >=? minYearOf p) eqn:Hle; [lia | reflexivity].
Qed.

Lemma fold_max_ge (d : Z) (l : list Z) :
  d <= fold_right Z.max d l /\ forall y, In y l -> y <= fold_right Z.max d l.
Proof.
  induction l as [| a l [IHd IHl]]; simpl.
  - split; [lia | intros y []].
  - split; [lia |]. intros y [Hy | Hy]; [subst; lia |]. specialize (IHl y Hy). lia.
Qed.

Lemma fold_max_In (d : Z) (l : list Z) :
  fold_right Z.max d l = d \/ In (fold_right Z.max d l) l.
Proof.
  induction l as [| a l IH]; simpl; [now left |].
  destruct (Z.max_spec a (fold_right Z.max d l)) as [[_ Hm] | [_ Hm]]; rewrite Hm.
  - destruct IH as [IH | IH]; [now left | right; now right].
  - right. now left.
Qed.

Lemma fold_min_le (d : Z) (l : list Z) :
  fold_right Z.min d l <= d /\ forall y, In y l -> fold_right Z.min d l <= y.
Proof.
  induction l as [| a l [IHd IHl]]; simpl.
  - split; [lia | intros y []].
  - split; [lia |]. intros y [Hy | Hy]; [subst; lia |]. specialize (IHl y Hy). lia.
Qed.

Lemma fold_min_In (d : Z) (l : list Z) :
  fold_right Z.min d l = d \/ In (fold_right Z.min d l) l.
Proof.
  induction l as [| a l IH]; simpl; [now left |].
  destruct (Z.min_spec a (fold_right Z.min d l)) as [[_ Hm] | [_ Hm]]; rewrite Hm.
  - right. now left.
  - destruct IH as [IH | IH]; [now left | right; now right].
Qed.

(** The active year limits: the domain's ends when the year field is
    empty, the greatest and the least year of the field otherwise. *)
Lemma year_limits (p : CronParser) :
  (values (years p) = [] -> maxYearOf p = 2099 /\ minYearOf p = 1970)
  /\ (values (years p) <> [] ->
      In (maxYearOf p) (values (years p)) /\ In (minYearOf p) (values (years p))
      /\ forall y, In y (values (years p)) -> minYearOf p <= y <= maxYearOf p).
Proof.
  unfold maxYearOf, minYearOf, maxOf, minOf, first. split.
  - intros H. rewrite H. simpl. split; reflexivity.
  - intros H. destruct (values (years p)) as [| y0 ys] eqn:Hv; [congruence |].
    cbn [isEmpty hd].
    pose proof (fold_max_ge y0 (y0 :: ys)) as [_ Hmax].
    pose proof (fold_min_le y0 (y0 :: ys)) as [_ Hmin].
    split; [| split].
    + destruct (fold_max_In y0 (y0 :: ys)) as [He | Hi]; [rewrite He; now left | exact Hi].
    + destruct (fold_min_In y0 (y0 :: ys)) as [He | Hi]; [rewrite He; now left | exact Hi].
    + intros y Hy. split; [now apply Hmin | now apply Hmax].
Qed.

(** ** The constructor: which errors it can raise *)

Lemma bind_Ok_inv {A B : Type} (r : result A) (k : A -> result B) (b : B) :
  bind r k = Ok b -> exists a, r = Ok a /\ k a = Ok b.
Proof. destruct r; simpl; intros H; try discriminate. now exists a. Qed.

Lemma raises_bind {A B : Type} (r : result A) (k : A -> result B) :
  raisesInvalidDate r = false ->
  (forall a, raisesInvalidDate (k a) = false) ->
  raisesInvalidDate (bind r k) = false.
Proof. destruct r; simpl; auto. Qed.

Lemma parseRange_no_date (range : string) (min max : Z) :
  raisesInvalidDate (parseRange range min max) = false.
Proof. unfold parseRange. repeat break_match; reflexivity. Qed.

Lemma parseValue_no_date (text : string) (min max : Z) :
  raisesInvalidDate (parseValue text min max) = false.
Proof. unfold parseValue. repeat break_match; reflexivity. Qed.

Lemma stepLoop_no_date (fuel : nat) :
  forall i end_ step acc, raisesInvalidDate (stepLoop fuel i end_ step acc) = false.
Proof.
  induction fuel as [| f IH]; intros i end_ step acc; simpl.
  - destruct (i <=? end_); reflexivity.
  - destruct (i <=? end_); [| reflexivity]. destruct step; [apply IH | reflexivity].
Qed.

Lemma steppedLoop_no_date (fuel : nat) :
  forall i max step vals acc,
    raisesInvalidDate (steppedLoop fuel i max step vals acc) = false.
Proof.
  induction fuel as [| f IH]; intros i max step vals acc; simpl.
  - destruct (i <=? max); reflexivity.
  - destruct (i <=? max); [| reflexivity]. destruct step; [apply IH | reflexivity].
Qed.

Lemma flatMapM_no_date {A : Type} (f : A -> result (list Z)) (l : list A) :
  (forall x, raisesInvalidDate (f x) = false) ->
  raisesInvalidDate (flatMapM f l) = false.
Proof.
  intros Hf. induction l as [| x l IH]; simpl; [reflexivity |].
  apply raises_bind; [apply Hf |]. intros ys.
  apply raises_bind; [apply IH |]. reflexivity.
Qed.

Ltac no_date_step :=
  first
    [ reflexivity
    | apply parseRange_no_date
    | apply parseValue_no_date
    | apply stepLoop_no_date
    | apply steppedLoop_no_date
    | apply raises_bind; [| intros ?]
    | apply flatMapM_no_date; intros ?
    | break_match ].

Lemma parseField_no_date (fuel : nat) :
  forall field min max, raisesInvalidDate (parseField fuel field min max) = false.
Proof.
  induction fuel as [| f IH]; intros field min max; simpl; [reflexivity |].
  repeat first [ apply IH | no_date_step ].
Qed.

Lemma parseDayOfMonth_no_date (fuel : nat) (this : CronParser) (field : string) :
  values (months this) = [] ->
  raisesInvalidDate (parseDayOfMonth fuel this field) = false.
Proof.
  intros Hm. unfold parseDayOfMonth.
  destruct (field =? "?")%string; [reflexivity |]. cbv zeta.
  destruct (endsWith "W" (normalizeField field TOther)).
  { destruct (dropLast (normalizeField field TOther) =? "L")%string; [reflexivity |].
    apply raises_bind; [apply parseField_no_date | reflexivity]. }
  destruct (startsWith "L-" (normalizeField field TOther)); [reflexivity |].
  destruct (normalizeField field TOther =? "L")%string; [reflexivity |].
  apply raises_bind; [apply parseField_no_date |]. intros f.
  cbn [setDaysOfMonth months daysOfMonth]. rewrite Hm. cbn [isEmpty negb].
  rewrite andb_false_r. reflexivity.
Qed.

Lemma parseMonth_no_date (fuel : nat) (this : CronParser) (field : string) :
  raisesInvalidDate (parseMonth fuel this field) = false.
Proof.
  unfold parseMonth. apply raises_bind; [apply parseField_no_date | reflexivity].
Qed.

Lemma parseDayOfWeek_no_date (fuel : nat) (this : CronParser) (field : string) :
  raisesInvalidDate (parseDayOfWeek fuel this field) = false.
Proof.
  unfold parseDayOfWeek.
  repeat first [ apply parseField_no_date | no_date_step | progress cbv zeta ].
Qed.

Lemma parse_no_date (fuel : nat) (this : CronParser) (cronString : string) :
  values (months this) = [] ->
  raisesInvalidDate (parse fuel this cronString) = false.
Proof.
  intros Hm. unfold parse. cbv zeta.
  destruct (_ || _); [reflexivity |].
  destruct (_ && _); [reflexivity |].
  apply raises_bind.
  { destruct (Nat.ltb 5 _); [apply parseField_no_date | reflexivity]. }
  intros secs.
  apply raises_bind; [apply parseField_no_date |]. intros mins.
  apply raises_bind; [apply parseField_no_date |]. intros hrs.
  apply raises_bind; [apply parseDayOfMonth_no_date; exact Hm |]. intros this1.
  apply raises_bind; [apply parseMonth_no_date |]. intros this2.
  apply raises_bind; [apply parseDayOfWeek_no_date |]. intros this3.
  destruct (Nat.eqb _ 7); [| reflexivity].
  apply raises_bind; [apply parseField_no_date | reflexivity].
Qed.

(** ** The constructor: what it leaves in the year field *)

Lemma parseDayOfMonth_years (fuel : nat) (this this' : CronParser) (field : string) :
  parseDayOfMonth fuel this field = Ok this' -> years this' = years this.
Proof.
  unfold parseDayOfMonth. cbv zeta. intros H.
  repeat first
    [ progress (inversion H; subst; clear H; reflexivity)
    | match type of H with
      | bind _ _ = Ok _ =>
        apply bind_Ok_inv in H; let a := fresh "a" in
                                let Ha := fresh "Ha" in destruct H as [a [Ha H]]
      end
    | break_match_hyp ].
Qed.

Lemma parseMonth_years (fuel : nat) (this this' : CronParser) (field : string) :
  parseMonth fuel this field = Ok this' -> years this' = years this.
Proof.
  unfold parseMonth. intros H. apply bind_Ok_inv in H. destruct H as [f [_ H]].
  inversion H; subst. reflexivity.
Qed.

Lemma parseDayOfWeek_years (fuel : nat) (this this' : CronParser) (field : string) :
  parseDayOfWeek fuel this field = Ok this' -> years this' = years this.
Proof.
  unfold parseDayOfWeek. cbv zeta. intros H.
  repeat first
    [ progress (inversion H; subst; clear H; reflexivity)
    | match type of H with
      | bind _ _ = Ok _ =>
        apply bind_Ok_inv in H; let a := fresh "a" in
                                let Ha := fresh "Ha" in destruct H as [a [Ha H]]
      end
    | break_match_hyp ].
Qed.

Lemma parse_years (fuel : nat) (this p : CronParser) (cronString : string) :
  parse fuel this cronString = Ok p ->
  List.length (trimSplit cronString) <> 7%nat ->
  years p = years this.
Proof.
  unfold parse. cbv zeta. intros H Hn.
  destruct (_ || _); [discriminate |].
  destruct (_ && _); [discriminate |].
  apply bind_Ok_inv in H. destruct H as [secs [_ H]].
  apply bind_Ok_inv in H. destruct H as [mins [_ H]].
  apply bind_Ok_inv in H. destruct H as [hrs [_ H]].
  apply bind_Ok_inv in H. destruct H as [this1 [H1 H]].
  apply bind_Ok_inv in H. destruct H as [this2 [H2 H]].
  apply bind_Ok_inv in H. destruct H as [this3 [H3 H]].
  destruct (Nat.eqb (List.length (trimSplit cronString)) 7) eqn:H7.
  { apply Nat.eqb_eq in H7. contradiction. }
  inversion H; subst p.
  rewrite (parseDayOfWeek_years _ _ _ _ H3), (parseMonth_years _ _ _ _ H2),
    (parseDayOfMonth_years _ _ _ _ H1).
  reflexivity.
Qed.

(** ** The schedules and the reference instant of the test suite *)

Example feb29Schedule_parsed (now : Z) :
  newCronParser now parseFuel "0 0 0 29 FEB ?" 0 = Ok feb29Schedule.
Proof. reflexivity. Qed.

Lemma feb29Schedule_Feb29Only : Feb29Only feb29Schedule.
Proof. constructor; reflexivity. Qed.

Lemma feb29_daySet (p : CronParser) (y : Z) :
  Feb29Only p ->
  getDayOfMonthSet p y 2 = if Luxon.isLeapYear y then [29] else [].
Proof.
  intros [Hd Hm Hl Hlw Hnw]. unfold getDayOfMonthSet.
  cbn [Luxon.daysInMonthOf Luxon.inRange Z.leb Z.compare andb Pos.compare Pos.compare_cont].
  rewrite Hl, Hlw, Hnw, Hd. cbn [isEmpty values filter Z.eqb Pos.eqb andb].
  unfold Luxon.daysInMonth. cbn [Z.eqb Pos.eqb].
  destruct (Luxon.isLeapYear y); reflexivity.
Qed.

Lemma fieldAdmits_singleton (f : CronField) (v x : Z) :
  values f = [v] -> fieldAdmits f x = true -> x = v.
Proof.
  unfold fieldAdmits, includes. intros Hv. rewrite Hv. simpl.
  rewrite orb_false_r. intros H. now apply Z.eqb_eq in H.
Qed.

Lemma search_found (dir : Direction) (p : CronParser) (from : Luxon.DateTime)
      (r : Luxon.Civil) :
  search dir p from = Some r -> isMatch p (Luxon.Valid r) = true.
Proof.
  destruct dir; simpl; unfold getNextFireTime, getPreviousFireTime; intros H.
  - eapply nextLoop_found; eassumption.
  - eapply prevLoop_found; eassumption.
Qed.

(** ** The search of the 29 February schedule, pass by pass *)

Lemma find_ge_arrayFrom (k : nat) :
  forall (a : nat) (lo v : Z),
    lo + Z.of_nat a <= v < lo + Z.of_nat a + Z.of_nat k ->
    find (fun x => x >=? v) (map (fun i => lo + Z.of_nat i) (seq a k)) = Some v.
Proof.
  induction k as [| k IH]; intros a lo v Hv; [lia |].
  simpl. rewrite Z.geb_leb. destruct (Z.leb_spec v (lo + Z.of_nat a)) as [Hge | Hge].
  - f_equal. lia.
  - apply IH. lia.
Qed.

Lemma getNextValue_arrayFrom (n lo v : Z) :
  lo <= v < lo + n -> getNextValue (arrayFrom n lo) v = Some v.
Proof.
  intros Hv. unfold getNextValue, arrayFrom.
  rewrite find_ge_arrayFrom; [reflexivity |]. lia.
Qed.

Lemma find_le_rev_arrayFrom (k : nat) :
  forall (a : nat) (lo v : Z),
    lo + Z.of_nat a <= v < lo + Z.of_nat a + Z.of_nat k ->
    find (fun x => x <=? v) (rev (map (fun i => lo + Z.of_nat i) (seq a k))) = Some v.
Proof.
  induction k as [| k IH]; intros a lo v Hv; [lia |].
  rewrite seq_S, map_app, rev_app_distr. simpl.
  destruct (Z.leb_spec (lo + Z.of_nat (a + k)) v) as [Hle | Hle].
  - f_equal. lia.
  - apply IH. lia.
Qed.

Lemma getPreviousValue_arrayFrom (n lo v : Z) :
  lo <= v < lo + n -> getPreviousValue (arrayFrom n lo) v = Some v.
Proof.
  intros Hv. unfold getPreviousValue, arrayFrom.
  rewrite find_le_rev_arrayFrom; [reflexivity |]. lia.
Qed.

Lemma getNextValue_single (x v : Z) : getNextValue [x] v = Some x.
Proof. unfold getNextValue. simpl. destruct (x >=? v); reflexivity. Qed.

Lemma getPreviousValue_single (x v : Z) : getPreviousValue [x] v = Some x.
Proof. unfold getPreviousValue. simpl. destruct (x <=? v); reflexivity. Qed.

Lemma isLeapYear_in_domain (y : Z) :
  1970 <= y <= 2099 -> Luxon.isLeapYear y = (y mod 4 =? 0).
Proof.
  intros Hy. unfold Luxon.isLeapYear.
  destruct (y mod 4 =? 0) eqn:H4; [| reflexivity]. simpl.
  destruct (y mod 100 =? 0) eqn:H100; [| reflexivity]. simpl.
  apply Z.eqb_eq in H100.
  assert (y = 2000) by (Z.div_mod_to_equations; lia).
  subst y. reflexivity.
Qed.

Lemma if_same {A : Type} (b : bool) (x : A) : (if b then x else x) = x.
Proof. destruct b; reflexivity. Qed.

Lemma feb29_day_valid (y : Z) :
  Luxon.isLeapYear y = true ->
  Luxon.fromObject y 2 29 0 0 0 = Luxon.Valid (Luxon.mkCivil y 2 29 0 0 0).
Proof.
  intros H. unfold Luxon.fromObject, Luxon.daysInMonth. rewrite H. reflexivity.
Qed.

Lemma feb29_isMatch (y : Z) :
  Luxon.isLeapYear y = true ->
  isMatch feb29Schedule (Luxon.Valid (Luxon.mkCivil y 2 29 0 0 0)) = true.
Proof.
  intros H. apply isMatch_Satisfies. constructor; try reflexivity.
  cbn [Luxon.year Luxon.month Luxon.day].
  rewrite (feb29_daySet feb29Schedule _ feb29Schedule_Feb29Only), H. now left.
Qed.

Lemma feb29_next_pass_leap (c : Luxon.Civil) :
  1970 <= Luxon.year c <= 2099 ->
  Luxon.isLeapYear (Luxon.year c) = true ->
  nextBody feb29Schedule c = Found (Luxon.mkCivil (Luxon.year c) 2 29 0 0 0).
Proof.
  intros Hy Hleap. unfold nextBody.
  change (nextYearValues feb29Schedule) with (arrayFrom 130 1970).
  rewrite getNextValue_arrayFrom by lia.
  cbv zeta. rewrite Z.eqb_refl. cbn [negb orb].
  change (monthValues feb29Schedule) with [2].
  change (hourValues feb29Schedule) with [0].
  change (minuteValues feb29Schedule) with [0].
  change (secondValues feb29Schedule) with [0].
  rewrite !getNextValue_single.
  rewrite (feb29_daySet feb29Schedule _ feb29Schedule_Feb29Only), Hleap.
  cbn [isEmpty first hd hd_error nullish].
  rewrite !getNextValue_single.
  repeat rewrite if_same.
  unfold checkCandidate. rewrite (feb29_day_valid _ Hleap), (feb29_isMatch _ Hleap).
  reflexivity.
Qed.

Lemma feb29_next_pass_common (c : Luxon.Civil) :
  1970 <= Luxon.year c <= 2098 ->
  Luxon.isLeapYear (Luxon.year c) = false ->
  nextBody feb29Schedule c
  = Continue DaySetEmpty (Luxon.Valid (Luxon.mkCivil (Luxon.year c + 1) 2 1 0 0 0)).
Proof.
  intros Hy Hleap. unfold nextBody.
  change (nextYearValues feb29Schedule) with (arrayFrom 130 1970).
  rewrite getNextValue_arrayFrom by lia.
  cbv zeta. rewrite Z.eqb_refl. cbn [negb orb].
  change (monthValues feb29Schedule) with [2].
  rewrite !getNextValue_single.
  rewrite (feb29_daySet feb29Schedule _ feb29Schedule_Feb29Only), Hleap.
  cbn [isEmpty]. unfold nextAdvanceYear.
  change (nextYearValues feb29Schedule) with (arrayFrom 130 1970).
  rewrite getNextValue_arrayFrom by lia.
  change (maxYearOf feb29Schedule) with 2099.
  destruct (Luxon.year c + 1 >? 2099) eqn:Hgt; [lia |].
  change (first (monthValues feb29Schedule)) with 2.
  unfold Luxon.fromObject, Luxon.daysInMonth. cbn [Z.eqb Pos.eqb].
  destruct (Luxon.isLeapYear (Luxon.year c + 1)); reflexivity.
Qed.

Lemma feb29_prev_pass_leap (c : Luxon.Civil) :
  1970 <= Luxon.year c <= 2099 ->
  Luxon.isLeapYear (Luxon.year c) = true ->
  prevBody feb29Schedule c = Found (Luxon.mkCivil (Luxon.year c) 2 29 0 0 0).
Proof.
  intros Hy Hleap. unfold prevBody.
  change (prevYearValues feb29Schedule) with (arrayFrom 130 1970).
  rewrite getPreviousValue_arrayFrom by lia.
  cbv zeta. rewrite Z.ltb_irrefl. cbn [negb orb].
  change (monthValues feb29Schedule) with [2].
  change (hourValues feb29Schedule) with [0].
  change (minuteValues feb29Schedule) with [0].
  change (secondValues feb29Schedule) with [0].
  rewrite !getPreviousValue_single.
  rewrite (feb29_daySet feb29Schedule _ feb29Schedule_Feb29Only), Hleap.
  cbn [isEmpty lastOf last rev app hd_error nullish].
  rewrite !getPreviousValue_single.
  repeat rewrite if_same.
  unfold checkCandidate. rewrite (feb29_day_valid _ Hleap), (feb29_isMatch _ Hleap).
  reflexivity.
Qed.

Lemma feb29_prev_pass_common (c : Luxon.Civil) :
  1971 <= Luxon.year c <= 2099 ->
  Luxon.isLeapYear (Luxon.year c) = false ->
  exists d h mi s,
    prevBody feb29Schedule c
    = Continue DaySetEmpty (Luxon.Valid (Luxon.mkCivil (Luxon.year c - 1) 2 d h mi s)).
Proof.
  intros Hy Hleap. unfold prevBody.
  change (prevYearValues feb29Schedule) with (arrayFrom 130 1970).
  rewrite getPreviousValue_arrayFrom by lia.
  cbv zeta. rewrite Z.ltb_irrefl. cbn [negb orb].
  change (monthValues feb29Schedule) with [2].
  rewrite !getPreviousValue_single.
  rewrite (feb29_daySet feb29Schedule _ feb29Schedule_Feb29Only), Hleap.
  cbn [isEmpty]. unfold prevAdvanceYear.
  change (prevYearValues feb29Schedule) with (arrayFrom 130 1970).
  rewrite getPreviousValue_arrayFrom by lia.
  change (minYearOf feb29Schedule) with 1970.
  destruct (Luxon.year c - 1 <? 1970) eqn:Hlt; [lia |].
  change (monthValues feb29Schedule) with [2].
  unfold endOfMonth, Luxon.fromObject, Luxon.daysInMonthOf, Luxon.daysInMonth.
  cbn [lastOf last Luxon.inRange Z.leb Z.eqb Z.compare Pos.compare Pos.compare_cont
       andb Pos.eqb].
  destruct (Luxon.isLeapYear (Luxon.year c - 1)); cbn; repeat eexists.
Qed.

Lemma nextLoop_S (p : CronParser) (n i : nat) (c : Luxon.Civil) :
  nextLoop p (S n) i (Luxon.Valid c)
  = if Luxon.year c <=? maxYearOf p then
      match nextBody p c with
      | ReturnNull _ => (None, S i)
      | Continue _ d' => nextLoop p n (S i) d'
      | Found r => (Some r, S i)
      | Advance d' => nextLoop p n (S i) d'
      end
    else (None, i).
Proof. reflexivity. Qed.

Lemma prevLoop_S (p : CronParser) (n i : nat) (c : Luxon.Civil) :
  prevLoop p (S n) i (Luxon.Valid c)
  = if Luxon.year c >=? minYearOf p then
      match prevBody p c with
      | ReturnNull _ => (None, S i)
      | Continue _ d' => prevLoop p n (S i) d'
      | Found r => (Some r, S i)
      | Advance d' => prevLoop p n (S i) d'
      end
    else (None, i).
Proof. reflexivity. Qed.

Lemma one_in_four_is_leap (y : Z) :
  1970 <= y -> y + 3 <= 2099 ->
  Luxon.isLeapYear y = false -> Luxon.isLeapYear (y + 1) = false ->
  Luxon.isLeapYear (y + 2) = false -> Luxon.isLeapYear (y + 3) = true.
Proof.
  intros Hlo Hhi.
  rewrite !isLeapYear_in_domain by lia.
  rewrite !Z.eqb_neq, Z.eqb_eq. intros H0 H1 H2.
  Z.div_mod_to_equations. lia.
Qed.

(** The forward loop from a cursor in year [y] of the domain. *)
Lemma feb29_next_from (n i : nat) (c : Luxon.Civil) :
  1970 <= Luxon.year c <= 2099 ->
  Luxon.isLeapYear (Luxon.year c) = true ->
  fst (nextLoop feb29Schedule (S n) i (Luxon.Valid c))
  = Some (Luxon.mkCivil (Luxon.year c) 2 29 0 0 0).
Proof.
  intros Hy Hleap. rewrite nextLoop_S. change (maxYearOf feb29Schedule) with 2099.
  destruct (Z.leb_spec (Luxon.year c) 2099); [| lia].
  rewrite feb29_next_pass_leap by assumption. reflexivity.
Qed.

Lemma feb29_next_skip (n i : nat) (c : Luxon.Civil) :
  1970 <= Luxon.year c <= 2098 ->
  Luxon.isLeapYear (Luxon.year c) = false ->
  nextLoop feb29Schedule (S n) i (Luxon.Valid c)
  = nextLoop feb29Schedule n (S i)
      (Luxon.Valid (Luxon.mkCivil (Luxon.year c + 1) 2 1 0 0 0)).
Proof.
  intros Hy Hleap. rewrite nextLoop_S. change (maxYearOf feb29Schedule) with 2099.
  destruct (Z.leb_spec (Luxon.year c) 2099); [| lia].
  rewrite feb29_next_pass_common by assumption. reflexivity.
Qed.

Lemma feb29_next_leap_year (c : Luxon.Civil) :
  1970 <= Luxon.year c <= 2096 ->
  exists Y,
    getNextFireTime feb29Schedule (Luxon.Valid c) = Some (Luxon.mkCivil Y 2 29 0 0 0)
    /\ Luxon.year c <= Y
    /\ Luxon.isLeapYear Y = true
    /\ forall y, Luxon.year c <= y < Y -> Luxon.isLeapYear y = false.
Proof.
  intros Hy. unfold getNextFireTime.
  change maxIter with (S (S (S (S (Z.to_nat 9996))))).
  destruct (Luxon.isLeapYear (Luxon.year c)) eqn:H0.
  { exists (Luxon.year c). rewrite feb29_next_from by (assumption || lia).
    repeat split; try assumption; try lia. }
  rewrite feb29_next_skip by (assumption || lia).
  destruct (Luxon.isLeapYear (Luxon.year c + 1)) eqn:H1.
  { exists (Luxon.year c + 1).
    rewrite feb29_next_from by (cbn [Luxon.year]; assumption || lia).
    cbn [Luxon.year]. repeat split; try assumption; try lia.
    intros y Hyy. assert (y = Luxon.year c) by lia. now subst y. }
  rewrite feb29_next_skip by (cbn [Luxon.year]; assumption || lia).
  cbn [Luxon.year].
  destruct (Luxon.isLeapYear (Luxon.year c + 1 + 1)) eqn:H2.
  { exists (Luxon.year c + 1 + 1).
    rewrite feb29_next_from by (cbn [Luxon.year]; assumption || lia).
    cbn [Luxon.year]. repeat split; try assumption; try lia.
    intros y Hyy.
    assert (y = Luxon.year c \/ y = Luxon.year c + 1) as [-> | ->] by lia; assumption. }
  rewrite feb29_next_skip by (cbn [Luxon.year]; assumption || lia).
  cbn [Luxon.year].
  assert (H3 : Luxon.isLeapYear (Luxon.year c + 1 + 1 + 1) = true).
  { replace (Luxon.year c + 1 + 1 + 1) with (Luxon.year c + 3) by lia.
    replace (Luxon.year c + 1 + 1) with (Luxon.year c + 2) in H2 by lia.
    apply one_in_four_is_leap; assumption || lia. }
  exists (Luxon.year c + 1 + 1 + 1).
  rewrite feb29_next_from by (cbn [Luxon.year]; assumption || lia).
  cbn [Luxon.year]. repeat split; try assumption; try lia.
  intros y Hyy.
  assert (y = Luxon.year c \/ y = Luxon.year c + 1 \/ y = Luxon.year c + 1 + 1)
    as [-> | [-> | ->]] by lia; assumption.
Qed.

Lemma feb29_prev_from (n i : nat) (c : Luxon.Civil) :
  1970 <= Luxon.year c <= 2099 ->
  Luxon.isLeapYear (Luxon.year c) = true ->
  fst (prevLoop feb29Schedule (S n) i (Luxon.Valid c))
  = Some (Luxon.mkCivil (Luxon.year c) 2 29 0 0 0).
Proof.
  intros Hy Hleap. rewrite prevLoop_S. change (minYearOf feb29Schedule) with 1970.
  rewrite Z.geb_leb. destruct (Z.leb_spec 1970 (Luxon.year c)); [| lia].
  rewrite feb29_prev_pass_leap by assumption. reflexivity.
Qed.

Lemma feb29_prev_skip (n i : nat) (c : Luxon.Civil) :
  1971 <= Luxon.year c <= 2099 ->
  Luxon.isLeapYear (Luxon.year c) = false ->
  exists c',
    Luxon.year c' = Luxon.year c - 1
    /\ prevLoop feb29Schedule (S n) i (Luxon.Valid c)
       = prevLoop feb29Schedule n (S i) (Luxon.Valid c').
Proof.
  intros Hy Hleap. rewrite prevLoop_S. change (minYearOf feb29Schedule) with 1970.
  rewrite Z.geb_leb. destruct (Z.leb_spec 1970 (Luxon.year c)); [| lia].
  destruct (feb29_prev_pass_common c Hy Hleap) as [d [h [mi [s Hb]]]].
  rewrite Hb. eexists. split; [| reflexivity]. reflexivity.
Qed.

Lemma one_in_four_was_leap (y : Z) :
  1970 <= y - 3 -> y <= 2099 ->
  Luxon.isLeapYear y = false -> Luxon.isLeapYear (y - 1) = false ->
  Luxon.isLeapYear (y - 2) = false -> Luxon.isLeapYear (y - 3) = true.
Proof.
  intros Hlo Hhi.
  rewrite !isLeapYear_in_domain by lia.
  rewrite !Z.eqb_neq, Z.eqb_eq. intros H0 H1 H2.
  Z.div_mod_to_equations. lia.
Qed.

(** The backward loop from a cursor in year [y] of the domain. *)
Lemma feb29_prev_leap_year_from (c : Luxon.Civil) :
  1973 <= Luxon.year c <= 2099 ->
  exists Y,
    fst (prevLoop feb29Schedule maxIter 0 (Luxon.Valid c))
    = Some (Luxon.mkCivil Y 2 29 0 0 0)
    /\ Y <= Luxon.year c
    /\ Luxon.isLeapYear Y = true
    /\ forall y, Y < y <= Luxon.year c -> Luxon.isLeapYear y = false.
Proof.
  intros Hy.
  change maxIter with (S (S (S (S (Z.to_nat 9996))))).
  destruct (Luxon.isLeapYear (Luxon.year c)) eqn:H0.
  { exists (Luxon.year c). rewrite feb29_prev_from by (assumption || lia).
    repeat split; try assumption; try lia. }
  destruct (feb29_prev_skip (S (S (S (Z.to_nat 9996)))) 0 c ltac:(lia) H0)
    as [c1 [Hc1 Hs1]].
  rewrite Hs1. clear Hs1.
  destruct (Luxon.isLeapYear (Luxon.year c1)) eqn:H1.
  { exists (Luxon.year c1). rewrite feb29_prev_from by (assumption || lia).
    repeat split; try assumption; try lia.
    intros y Hyy. assert (y = Luxon.year c) by lia. now subst y. }
  destruct (feb29_prev_skip (S (S (Z.to_nat 9996))) 1 c1 ltac:(lia) H1)
    as [c2 [Hc2 Hs2]].
  rewrite Hs2. clear Hs2.
  destruct (Luxon.isLeapYear (Luxon.year c2)) eqn:H2.
  { exists (Luxon.year c2). rewrite feb29_prev_from by (assumption || lia).
    repeat split; try assumption; try lia.
    intros y Hyy.
    assert (y = Luxon.year c \/ y = Luxon.year c1) as [-> | ->] by lia; assumption. }
  destruct (feb29_prev_skip (S (Z.to_nat 9996)) 2 c2 ltac:(lia) H2)
    as [c3 [Hc3 Hs3]].
  rewrite Hs3. clear Hs3.
  assert (H3 : Luxon.isLeapYear (Luxon.year c3) = true).
  { replace (Luxon.year c3) with (Luxon.year c - 3) by lia.
    replace (Luxon.year c1) with (Luxon.year c - 1) in H1 by lia.
    replace (Luxon.year c2) with (Luxon.year c - 2) in H2 by lia.
    apply one_in_four_was_leap; assumption || lia. }
  exists (Luxon.year c3). rewrite feb29_prev_from by (assumption || lia).
  repeat split; try assumption; try lia.
  intros y Hyy.
  assert (y = Luxon.year c \/ y = Luxon.year c1 \/ y = Luxon.year c2)
    as [-> | [-> | ->]] by lia; assumption.
Qed.

(** ** The conflict check and the day/month check of the constructor *)



(** The check itself, run on the sets the constructor ends with, would
    reject day 31 in April: the defect is the order of the calls. *)
Example check_would_reject_april_31 :
  checkDaysAgainstMonths [31] [4] = Throw (InvalidDate 31 4)
  /\ message (InvalidDate 31 4)
     = "Invalid date: day 31 is not valid for month April"%string
  /\ checkDaysAgainstMonths [29] [2] = Ok tt
  /\ checkDaysAgainstMonths [30] [2] = Throw (InvalidDate 30 2).
Proof. repeat split; reflexivity. Qed.

(** The stepping loop with step [-1] never ends. *)
Lemma stepLoop_negative_diverges (fuel : nat) :
  forall i end_ acc, i <= end_ -> stepLoop fuel i end_ (Num (-1)) acc = OutOfFuel.
Proof.
  induction fuel as [| f IH]; intros i end_ acc Hle; simpl.
  - destruct (i <=? end_) eqn:H; [reflexivity | lia].
  - destruct (i <=? end_) eqn:H; [| lia]. apply IH. lia.
Qed.

(** ** The nearest-weekday modifier *)

Lemma dowOf_days (y m d : Z) : dowOf y m d = (Luxon.daysFromCivil y m d + 4) mod 7.
Proof.
  unfold dowOf, Luxon.weekday. cbv zeta.
  pose proof (Z.mod_pos_bound (Luxon.daysFromCivil y m d + 4) 7 ltac:(lia)) as Hb.
  destruct ((Luxon.daysFromCivil y m d + 4) mod 7 =? 0) eqn:H0.
  - apply Z.eqb_eq in H0. rewrite H0. reflexivity.
  - apply Z.eqb_neq in H0.
    destruct ((Luxon.daysFromCivil y m d + 4) mod 7 =? 7) eqn:H7.
    + apply Z.eqb_eq in H7. lia.
    + apply Z.mod_small. lia.
Qed.

Lemma daysFromCivil_shift (y m d k : Z) :
  Luxon.daysFromCivil y m (d + k) = Luxon.daysFromCivil y m d + k.
Proof. unfold Luxon.daysFromCivil. cbv zeta. lia. Qed.

Lemma dowOf_next (y m d : Z) : dowOf y m (d + 1) = (dowOf y m d + 1) mod 7.
Proof.
  rewrite !dowOf_days, daysFromCivil_shift.
  replace (Luxon.daysFromCivil y m d + 1 + 4) with ((Luxon.daysFromCivil y m d + 4) + 1)
    by lia.
  rewrite Z.add_mod_idemp_l by lia. reflexivity.
Qed.

Lemma dowOf_previous (y m d : Z) : dowOf y m (d - 1) = (dowOf y m d - 1) mod 7.
Proof.
  rewrite !dowOf_days.
  replace (d - 1) with (d + (-1)) by lia. rewrite daysFromCivil_shift.
  replace (Luxon.daysFromCivil y m d + -1 + 4) with ((Luxon.daysFromCivil y m d + 4) - 1)
    by lia.
  rewrite Zminus_mod_idemp_l. reflexivity.
Qed.

(** The day the nearest-weekday modifier resolves to in a month that has
    the target day: the target itself on Monday to Friday, the day before
    (a Friday) on a Saturday, the day after (a Monday) on a Sunday, and the
    target itself when that neighbour would leave the month. *)
Lemma nearest_weekday_resolution (p : CronParser) (target y m : Z) :
  NearestWeekdayTo p target ->
  1 <= m <= 12 ->
  1 <= target <= Luxon.daysInMonth y m ->
  exists r,
    getDayOfMonthSet p y m = [r]
    /\ 1 <= r <= Luxon.daysInMonth y m
    /\ (1 <= dowOf y m target <= 5 -> r = target)
    /\ (dowOf y m target = 6 -> 1 < target -> r = target - 1 /\ dowOf y m r = 5)
    /\ (dowOf y m target = 6 -> target = 1 -> r = 1)
    /\ (dowOf y m target = 0 -> target < Luxon.daysInMonth y m ->
        r = target + 1 /\ dowOf y m r = 1)
    /\ (dowOf y m target = 0 -> target = Luxon.daysInMonth y m -> r = target).
Proof.
  intros [Hf Hl Hlw Ht] Hm Htarget. unfold getDayOfMonthSet.
  assert (Hin : Luxon.inRange 1 12 m = true).
  { unfold Luxon.inRange. apply andb_true_intro. split; apply Z.leb_le; lia. }
  unfold Luxon.daysInMonthOf. rewrite Hin, Hl, Hlw, Hf.
  destruct (values (daysOfMonth p)) as [| t ts] eqn:Hv; [discriminate |].
  simpl in Ht. inversion Ht; subst t. cbv zeta.
  assert (Hobj : Luxon.fromObject y m target 0 0 0
                 = Luxon.Valid (Luxon.mkCivil y m target 0 0 0)).
  { unfold Luxon.fromObject. rewrite Hin.
    assert (Hd : Luxon.inRange 1 (Luxon.daysInMonth y m) target = true).
    { unfold Luxon.inRange. apply andb_true_intro. split; apply Z.leb_le; lia. }
    rewrite Hd. reflexivity. }
  rewrite Hobj.
  pose proof (dowOf_previous y m target) as Hprev.
  pose proof (dowOf_next y m target) as Hnext.
  destruct (dowOf y m target =? 6) eqn:H6.
  - apply Z.eqb_eq in H6. eexists. split; [reflexivity |].
    rewrite H6 in *. change ((6 - 1) mod 7) with 5 in Hprev.
    repeat split; try lia.
    replace (Z.max 1 (Z.min (Luxon.daysInMonth y m) (target - 1))) with (target - 1)
      by lia. exact Hprev.
  - apply Z.eqb_neq in H6.
    destruct (dowOf y m target =? 0) eqn:H0.
    + apply Z.eqb_eq in H0. eexists. split; [reflexivity |].
      rewrite H0 in *. change ((0 + 1) mod 7) with 1 in Hnext.
      repeat split; try lia.
      replace (Z.max 1 (Z.min (Luxon.daysInMonth y m) (target + 1))) with (target + 1)
        by lia. exact Hnext.
    + apply Z.eqb_neq in H0. eexists. split; [reflexivity |].
      repeat split; try lia.
Qed.

Example nearest26Schedule_parsed (now : Z) :
  newCronParser now parseFuel "0 0 0 26W * ?" 0 = Ok nearest26Schedule.
Proof. reflexivity. Qed.

Lemma nearest26Schedule_NearestWeekdayTo : NearestWeekdayTo nearest26Schedule 26.
Proof. constructor; reflexivity. Qed.

(** October 2025: the 26th is a Sunday, the set is the 27th. *)
Lemma nearest_weekday_resolution_witness :
  exists r,
    getDayOfMonthSet nearest26Schedule 2025 10 = [r]
    /\ 1 <= r <= Luxon.daysInMonth 2025 10
    /\ (1 <= dowOf 2025 10 26 <= 5 -> r = 26)
    /\ (dowOf 2025 10 26 = 6 -> 1 < 26 -> r = 26 - 1 /\ dowOf 2025 10 r = 5)
    /\ (dowOf 2025 10 26 = 6 -> 26 = 1 -> r = 1)
    /\ (dowOf 2025 10 26 = 0 -> 26 < Luxon.daysInMonth 2025 10 ->
        r = 26 + 1 /\ dowOf 2025 10 r = 1)
    /\ (dowOf 2025 10 26 = 0 -> 26 = Luxon.daysInMonth 2025 10 -> r = 26).
Proof.
  apply (nearest_weekday_resolution nearest26Schedule 26 2025 10).
  - exact nearest26Schedule_NearestWeekdayTo.
  - lia.
  - unfold Luxon.daysInMonth. simpl. lia.
Defined.

(** ** The values of a parsed field *)

Lemma within_weaken (lo hi lo' hi' : Z) (l : list Z) :
  lo' <= lo -> hi <= hi' -> within lo hi l -> within lo' hi' l.
Proof.
  intros Hlo Hhi H. unfold within in *. rewrite Forall_forall in *.
  intros x Hx. specialize (H x Hx). lia.
Qed.

Lemma within_In (lo hi : Z) (l : list Z) :
  within lo hi l <-> forall y, In y l -> lo <= y <= hi.
Proof. unfold within. apply Forall_forall. Qed.

Lemma map_seq_ascending (k : nat) :
  forall (a : nat) (lo : Z),
    strictlyAscending (map (fun i => lo + Z.of_nat i) (seq a k))
    /\ within (lo + Z.of_nat a) (lo + Z.of_nat a + Z.of_nat k - 1)
              (map (fun i => lo + Z.of_nat i) (seq a k)).
Proof.
  induction k as [| k IH]; intros a lo; simpl.
  - split; constructor.
  - destruct (IH (S a) lo) as [Hs Hw]. split.
    + constructor; [assumption |].
      unfold within in Hw. rewrite Forall_forall in *. intros x Hx.
      specialize (Hw x Hx). lia.
    + constructor; [lia |].
      eapply within_weaken; [| | exact Hw]; lia.
Qed.

Lemma arrayFrom_ascending (n lo : Z) :
  strictlyAscending (arrayFrom n lo) /\ within lo (lo + n - 1) (arrayFrom n lo).
Proof.
  unfold arrayFrom. destruct (map_seq_ascending (Z.to_nat n) 0 lo) as [Hs Hw].
  split; [assumption |].
  destruct (Z.to_nat n) as [| k] eqn:Hk; [constructor |].
  eapply within_weaken; [| | exact Hw]; lia.
Qed.

Lemma In_arrayFrom (n lo x : Z) : In x (arrayFrom n lo) <-> lo <= x < lo + n.
Proof.
  unfold arrayFrom. rewrite in_map_iff. split.
  - intros [i [Hi Hin]]. apply in_seq in Hin. lia.
  - intros H. exists (Z.to_nat (x - lo)). split; [lia |]. apply in_seq. lia.
Qed.

(** Appending an element above every element keeps a list ascending. *)
Lemma ascending_snoc (l : list Z) (x : Z) :
  strictlyAscending l -> (forall y, In y l -> y < x) -> strictlyAscending (l ++ [x]).
Proof.
  unfold strictlyAscending. induction l as [| a l IH]; simpl; intros Hs Hlt.
  - constructor; constructor.
  - apply StronglySorted_inv in Hs. destruct Hs as [Hs Hall].
    constructor.
    + apply IH; [assumption |]. intros y Hy. apply Hlt. now right.
    + rewrite Forall_forall in *. intros y Hy. apply in_app_or in Hy.
      destruct Hy as [Hy | [Hy | []]]; [now apply Hall |].
      subst y. apply Hlt. now left.
Qed.

Lemma ascending_cons_above (x lo hi : Z) (l : list Z) :
  x < lo -> strictlyAscending l -> within lo hi l -> strictlyAscending (x :: l).
Proof.
  intros Hx Hs Hw. constructor; [assumption |].
  unfold within in Hw. rewrite Forall_forall in *. intros y Hy.
  specialize (Hw y Hy). lia.
Qed.

Lemma singleton_strictlyAscending (x : Z) : strictlyAscending [x].
Proof. constructor; constructor. Qed.

Lemma ascending_NoDup (l : list Z) : strictlyAscending l -> NoDup l.
Proof.
  unfold strictlyAscending. induction l as [| a l IH]; intros Hs; [constructor |].
  apply StronglySorted_inv in Hs. destruct Hs as [Hs Hall].
  constructor; [| now apply IH].
  intros Hin. rewrite Forall_forall in Hall. specialize (Hall a Hin). lia.
Qed.

Lemma strictlyAscending_ascending (l : list Z) : strictlyAscending l -> ascending l.
Proof.
  unfold strictlyAscending, ascending. induction 1 as [| a l Hs IH Hall]; constructor.
  - assumption.
  - rewrite Forall_forall in *. intros x Hx. specialize (Hall x Hx). lia.
Qed.

Lemma filter_strictlyAscending (f : Z -> bool) (l : list Z) :
  strictlyAscending l -> strictlyAscending (filter f l).
Proof.
  unfold strictlyAscending. induction l as [| a l IH]; intros Hs; simpl; [constructor |].
  apply StronglySorted_inv in Hs. destruct Hs as [Hs Hall].
  destruct (f a); [| now apply IH].
  constructor; [now apply IH |].
  rewrite Forall_forall in *. intros x Hx. apply filter_In in Hx. now apply Hall.
Qed.

(** With a step that is not positive the stepping loop never returns. *)
Lemma stepLoop_diverges (fuel : nat) :
  forall s i end_ acc, s <= 0 -> i <= end_ -> stepLoop fuel i end_ (Num s) acc = OutOfFuel.
Proof.
  induction fuel as [| f IH]; intros s i end_ acc Hs Hle; simpl.
  - destruct (Z.leb_spec i end_); [reflexivity | lia].
  - destruct (Z.leb_spec i end_); [| lia]. apply IH; lia.
Qed.

Lemma steppedLoop_diverges (fuel : nat) :
  forall s i max vals acc,
    s <= 0 -> i <= max -> steppedLoop fuel i max (Num s) vals acc = OutOfFuel.
Proof.
  induction fuel as [| f IH]; intros s i max vals acc Hs Hle; simpl.
  - destruct (Z.leb_spec i max); [reflexivity | lia].
  - destruct (Z.leb_spec i max); [| lia]. apply IH; lia.
Qed.

(** What the stepping loop returns: the values it was given, followed by
    an ascending run from [i] within [i..end]. *)
Lemma stepLoop_values (fuel : nat) :
  forall step i end_ acc vs,
    stepLoop fuel i end_ step acc = Ok vs ->
    exists new,
      vs = acc ++ new /\ strictlyAscending new /\ within i end_ new
      /\ (i <= end_ -> new <> []).
Proof.
  induction fuel as [| f IH]; intros step i end_ acc vs H; simpl in H.
  - destruct (Z.leb_spec i end_); [discriminate |]. inversion H; subst vs.
    exists []. rewrite app_nil_r. repeat split; try constructor. lia.
  - destruct (Z.leb_spec i end_) as [Hle | Hgt].
    2: { inversion H; subst vs. exists []. rewrite app_nil_r.
         repeat split; try constructor. lia. }
    destruct step as [s |].
    + destruct (Z_le_gt_dec s 0) as [Hs | Hs].
      { destruct (Z.leb_spec (i + s) end_) as [Hle' | Hgt'].
        - rewrite stepLoop_diverges in H by lia. discriminate.
        - lia. }
      apply IH in H. destruct H as [new [Hvs [Hsort [Hw _]]]].
      exists (i :: new). rewrite Hvs, <- app_assoc. simpl.
      split; [reflexivity |]. split; [| split].
      * eapply ascending_cons_above; [| eassumption | eassumption]. lia.
      * constructor; [lia |]. eapply within_weaken; [| | exact Hw]; lia.
      * discriminate.
    + inversion H; subst vs. exists [i]. repeat split.
      * constructor; constructor.
      * constructor; [lia | constructor].
      * discriminate.
Qed.

Lemma steppedLoop_values (fuel : nat) :
  forall step i max vals acc vs,
    steppedLoop fuel i max step vals acc = Ok vs ->
    exists new,
      vs = acc ++ new /\ strictlyAscending new /\ within i max new
      /\ (forall y, In y new -> In y vals)
      /\ (i <= max -> In i vals -> new <> []).
Proof.
  induction fuel as [| f IH]; intros step i max vals acc vs H; simpl in H.
  - destruct (Z.leb_spec i max); [discriminate |]. inversion H; subst vs.
    exists []. rewrite app_nil_r. repeat split; try constructor.
    + intros y [].
    + lia.
  - destruct (Z.leb_spec i max) as [Hle | Hgt].
    2: { inversion H; subst vs. exists []. rewrite app_nil_r.
         repeat split; try constructor; [intros y [] | lia]. }
    destruct step as [s |].
    + destruct (Z_le_gt_dec s 0) as [Hs | Hs].
      { rewrite steppedLoop_diverges in H by lia. discriminate. }
      apply IH in H. destruct H as [new [Hvs [Hsort [Hw [Hin _]]]]].
      destruct (includes i vals) eqn:Hi.
      * exists (i :: new). rewrite Hvs, <- app_assoc. simpl.
        split; [reflexivity |]. split; [| split; [| split]].
        -- eapply ascending_cons_above; [| eassumption | eassumption]. lia.
        -- constructor; [lia |]. eapply within_weaken; [| | exact Hw]; lia.
        -- intros y [Hy | Hy]; [subst; now apply includes_In | now apply Hin].
        -- discriminate.
      * exists new. split; [assumption |]. split; [assumption |]. split; [| split].
        -- eapply within_weaken; [| | exact Hw]; lia.
        -- assumption.
        -- intros _ Hiv. apply includes_In in Hiv. congruence.
    + destruct (includes i vals) eqn:Hi; inversion H; subst vs.
      * exists [i]. repeat split.
        -- constructor; constructor.
        -- constructor; [lia | constructor].
        -- intros y [Hy | []]. subst. now apply includes_In.
        -- discriminate.
      * exists []. rewrite app_nil_r. repeat split; try constructor.
        -- intros y [].
        -- intros _ Hiv. apply includes_In in Hiv. congruence.
Qed.

(** Sorting. *)
Lemma insertAsc_In (x y : Z) (l : list Z) : In y (insertAsc x l) <-> y = x \/ In y l.
Proof.
  induction l as [| a l IH]; simpl.
  - intuition.
  - destruct (x <=? a); simpl; rewrite ?IH; intuition.
Qed.

Lemma insertAsc_ascending (x : Z) (l : list Z) :
  strictlyAscending l -> ~ In x l -> strictlyAscending (insertAsc x l).
Proof.
  unfold strictlyAscending. induction l as [| a l IH]; simpl; intros Hs Hn.
  - constructor; constructor.
  - apply StronglySorted_inv in Hs. destruct Hs as [Hs Hall].
    destruct (Z.leb_spec x a) as [Hle | Hgt].
    + assert (x < a) by (assert (a <> x) by tauto; lia).
      constructor; [constructor; assumption |].
      constructor; [assumption |].
      rewrite Forall_forall in *. intros y Hy. specialize (Hall y Hy). lia.
    + constructor; [apply IH; tauto |].
      rewrite Forall_forall in *. intros y Hy. apply (proj1 (insertAsc_In _ _ _)) in Hy.
      destruct Hy as [Hy | Hy]; [subst; lia | now apply Hall].
Qed.

Lemma sortAsc_In (y : Z) (l : list Z) : In y (sortAsc l) <-> In y l.
Proof.
  induction l as [| a l IH]; [simpl; tauto |].
  change (sortAsc (a :: l)) with (insertAsc a (sortAsc l)).
  rewrite insertAsc_In, IH. simpl. intuition.
Qed.

Lemma sortAsc_ascending (l : list Z) : NoDup l -> strictlyAscending (sortAsc l).
Proof.
  induction l as [| a l IH]; intros Hn.
  - constructor.
  - change (sortAsc (a :: l)) with (insertAsc a (sortAsc l)).
    inversion Hn; subst. apply insertAsc_ascending; [now apply IH |].
    intros Hin. apply (proj1 (sortAsc_In _ _)) in Hin. contradiction.
Qed.

Lemma uniqFrom_spec (l : list Z) :
  forall seen,
    NoDup (uniqFrom seen l)
    /\ forall y, In y (uniqFrom seen l) <-> In y l /\ ~ In y seen.
Proof.
  induction l as [| a l IH]; intros seen; simpl.
  - split; [constructor | intros y; tauto].
  - destruct (includes a seen) eqn:Ha.
    + apply includes_In in Ha. destruct (IH seen) as [Hn Hin]. split; [assumption |].
      intros y. rewrite Hin. split; [tauto |].
      intros [[Hy | Hy] Hs]; [subst; contradiction | tauto].
    + assert (Hna : ~ In a seen).
      { intros Hin. apply includes_In in Hin. congruence. }
      destruct (IH (a :: seen)) as [Hn Hin]. split.
      * constructor; [| assumption]. rewrite Hin. simpl. tauto.
      * intros y. simpl. rewrite Hin. simpl. split.
        -- intros [Hy | [Hy Hs]]; [subst; tauto | tauto].
        -- intros [[Hy | Hy] Hs]; [now left |].
           destruct (Z.eq_dec a y); [now left | right; tauto].
Qed.

Lemma sortAsc_uniq (l : list Z) :
  strictlyAscending (sortAsc (uniq l)) /\ forall y, In y (sortAsc (uniq l)) <-> In y l.
Proof.
  unfold uniq. destruct (uniqFrom_spec l []) as [Hn Hin]. split.
  - now apply sortAsc_ascending.
  - intros y. rewrite sortAsc_In, Hin. simpl. tauto.
Qed.

Lemma parseRange_bounds (range : string) (min max start end_ : Z) :
  parseRange range min max = Ok (start, end_) -> min <= start /\ start <= end_ /\ end_ <= max.
Proof.
  unfold parseRange. intros H.
  destruct (parseInt _) as [s |]; [| discriminate].
  destruct (parseInt _) as [e |]; [| discriminate].
  destruct (Z.ltb_spec s min); [discriminate |].
  destruct (Z.gtb_spec e max); [discriminate |].
  destruct (Z.gtb_spec s e); [discriminate |].
  simpl in H. inversion H; subst. lia.
Qed.

Lemma parseValue_bounds (text : string) (min max v : Z) :
  parseValue text min max = Ok v -> min <= v <= max.
Proof.
  unfold parseValue. intros H.
  destruct (parseInt text) as [x |]; [| discriminate].
  destruct (Z.ltb_spec x min); [discriminate |].
  destruct (Z.gtb_spec x max); [discriminate |].
  simpl in H. inversion H; subst. lia.
Qed.

Lemma split_nonempty (sep : ascii) (s : string) : split sep s <> [].
Proof.
  destruct s as [| c rest]; simpl; [discriminate |].
  destruct (Ascii.eqb c sep); [discriminate |].
  destruct (split sep rest); discriminate.
Qed.

Lemma flatMapM_values {A : Type} (f : A -> result (list Z)) (lo hi : Z) (l : list A) (vs : list Z) :
  (forall x ys, In x l -> f x = Ok ys -> within lo hi ys /\ ys <> []) ->
  flatMapM f l = Ok vs ->
  within lo hi vs /\ (l <> [] -> vs <> []).
Proof.
  revert vs. induction l as [| x l IH]; intros vs Hf H; simpl in H.
  - inversion H; subst. split; [constructor | congruence].
  - apply bind_Ok_inv in H. destruct H as [ys [Hx H]].
    apply bind_Ok_inv in H. destruct H as [zs [Hl H]]. inversion H; subst vs.
    destruct (Hf x ys (or_introl eq_refl) Hx) as [Hw Hne].
    destruct (IH zs) as [Hw' _]; [intros x' ys' Hx' Hy'; apply (Hf x' ys' (or_intror Hx') Hy') | assumption |].
    split.
    + unfold within in *. apply Forall_app. now split.
    + intros _. destruct ys; [congruence | discriminate].
Qed.

Lemma flatMapM_ranges (min max : Z) (l : list string) (vs : list Z) :
  flatMapM
    (fun range =>
       if includesChar "-" range then
         ' (start, end_) <- parseRange range min max ;;
         Ok (arrayFrom (end_ - start + 1) start)
       else
         value <- parseValue range min max ;; Ok [value]) l = Ok vs ->
  within min max vs /\ (l <> [] -> vs <> []).
Proof.
  apply flatMapM_values.
  intros range ys _ Hr. destruct (includesChar "-" range).
  - apply bind_Ok_inv in Hr. destruct Hr as [[s e] [Hr Hys]].
    inversion Hys; subst ys. apply parseRange_bounds in Hr.
    destruct (arrayFrom_ascending (e - s + 1) s) as [_ Hw].
    split; [eapply within_weaken; [| | exact Hw]; lia |].
    apply arrayFrom_nonempty. lia.
  - apply bind_Ok_inv in Hr. destruct Hr as [v [Hr Hys]].
    inversion Hys; subst ys. apply parseValue_bounds in Hr.
    split; [constructor; [assumption | constructor] | discriminate].
Qed.

(** The invariant of a parsed field. *)
Theorem parseField_values (fuel : nat) :
  forall field min max f,
    min <= max ->
    parseField fuel field min max = Ok f ->
    values f <> [] /\ strictlyAscending (values f) /\ within min max (values f).
Proof.
  induction fuel as [| fuel IH]; intros field min max f Hmm H; simpl in H; [discriminate |].
  destruct (field =? "*")%string.
  { inversion H; subst f. cbn [values].
    destruct (arrayFrom_ascending (max - min + 1) min) as [Hs Hw].
    split; [apply arrayFrom_nonempty; lia |]. split; [assumption |].
    eapply within_weaken; [| | exact Hw]; lia. }
  destruct (includesChar "/" field).
  { set (step := parseInt (nth 1 (split "/" field) ""%string)) in *.
    assert (Hbody :
      (if includesChar "," (nth 0 (split "/" field) ""%string) then
          values <- flatMapM
                      (fun range =>
                         if includesChar "-" range then
                           ' (start, end_) <- parseRange range min max ;;
                           Ok (arrayFrom (end_ - start + 1) start)
                         else
                           value <- parseValue range min max ;; Ok [value])
                      (split "," (nth 0 (split "/" field) ""%string)) ;;
          steppedValues <- match values with
                           | [] => Ok []
                           | v0 :: _ => steppedLoop fuel v0 max step values []
                           end ;;
          Ok (mkField (sortAsc steppedValues) (Some step))
        else
          let range := if (nth 0 (split "/" field) ""%string =? "*")%string
                       then (toString min ++ "-" ++ toString max)%string
                       else nth 0 (split "/" field) ""%string in
          ' (start, end_) <- parseRange range min max ;;
          values <- stepLoop fuel start end_ step [] ;;
          Ok (mkField values (Some step))) = Ok f).
    { destruct step as [[| s | s] |]; [discriminate | exact H | exact H | exact H]. }
    clear H. destruct (includesChar "," _).
    - apply bind_Ok_inv in Hbody. destruct Hbody as [vals [Hvals H]].
      apply bind_Ok_inv in H. destruct H as [stepped [Hst H]]. inversion H; subst f.
      cbn [values].
      apply flatMapM_values with (lo := min) (hi := max) in Hvals.
      2: { intros range ys _ Hr. destruct (includesChar "-" range).
           - apply bind_Ok_inv in Hr. destruct Hr as [[s e] [Hr Hys]].
             inversion Hys; subst ys. apply parseRange_bounds in Hr.
             destruct (arrayFrom_ascending (e - s + 1) s) as [_ Hw].
             split; [eapply within_weaken; [| | exact Hw]; lia |].
             apply arrayFrom_nonempty. lia.
           - apply bind_Ok_inv in Hr. destruct Hr as [v [Hr Hys]].
             inversion Hys; subst ys. apply parseValue_bounds in Hr.
             split; [constructor; [assumption | constructor] | discriminate]. }
      destruct Hvals as [Hw Hne]. specialize (Hne (split_nonempty _ _)).
      destruct vals as [| v0 vals']; [congruence |].
      apply steppedLoop_values in Hst. destruct Hst as [new [Hvs [Hs [Hwn [Hin Hnon]]]]].
      simpl in Hvs. subst stepped.
      assert (Hv0 : min <= v0 <= max) by (inversion Hw; assumption).
      assert (Hsort : strictlyAscending (sortAsc new))
        by (apply sortAsc_ascending, ascending_NoDup; assumption).
      split; [| split].
      + intros Hnil. apply Hnon; [lia | now left |].
        destruct new as [| n0 new']; [reflexivity |].
        exfalso. assert (Hi : In n0 (sortAsc (n0 :: new'))) by (apply sortAsc_In; now left).
        rewrite Hnil in Hi. contradiction.
      + assumption.
      + apply within_In. intros y Hy. apply (proj1 (sortAsc_In _ _)) in Hy.
        rewrite within_In in Hw. apply Hw. now apply Hin.
    - cbv zeta in Hbody.
      apply bind_Ok_inv in Hbody. destruct Hbody as [[s e] [Hr H]].
      apply bind_Ok_inv in H. destruct H as [vals [Hst H]]. inversion H; subst f.
      cbn [values]. apply parseRange_bounds in Hr.
      apply stepLoop_values in Hst. destruct Hst as [new [Hvs [Hs [Hw Hnon]]]].
      simpl in Hvs. subst vals.
      split; [apply Hnon; lia |]. split; [assumption |].
      eapply within_weaken; [| | exact Hw]; lia. }
  destruct (includesChar "," field).
  { apply bind_Ok_inv in H. destruct H as [vals [Hvals H]]. inversion H; subst f.
    cbn [values].
    apply flatMapM_values with (lo := min) (hi := max) in Hvals.
    2: { intros part ys _ Hp. apply bind_Ok_inv in Hp. destruct Hp as [g [Hg Hys]].
         inversion Hys; subst ys. destruct (IH _ _ _ _ Hmm Hg) as [Hne [_ Hw]].
         split; assumption. }
    destruct Hvals as [Hw Hne]. specialize (Hne (split_nonempty _ _)).
    destruct (sortAsc_uniq vals) as [Hs Hin]. split; [| split].
    - destruct vals as [| v0 vals']; [congruence |]. intros Hnil.
      assert (Hi : In v0 (sortAsc (uniq (v0 :: vals')))) by (apply Hin; now left).
      rewrite Hnil in Hi. contradiction.
    - assumption.
    - apply within_In. intros y Hy. apply (proj1 (Hin _)) in Hy.
      rewrite within_In in Hw. now apply Hw. }
  destruct (includesChar "-" field).
  { apply bind_Ok_inv in H. destruct H as [[s e] [Hr H]]. inversion H; subst f.
    cbn [values]. apply parseRange_bounds in Hr.
    destruct (arrayFrom_ascending (e - s + 1) s) as [Hs Hw].
    split; [apply arrayFrom_nonempty; lia |]. split; [assumption |].
    eapply within_weaken; [| | exact Hw]; lia. }
  apply bind_Ok_inv in H. destruct H as [v [Hv H]]. inversion H; subst f.
  cbn [values]. apply parseValue_bounds in Hv.
  split; [discriminate |]. split; [constructor; constructor |].
  constructor; [assumption | constructor].
Qed.

Lemma parseField_step (fuel : nat) (field : string) (min max : Z) (f : CronField) :
  parseField fuel field min max = Ok f -> stepCounted f.
Proof.
  destruct fuel as [| fuel]; simpl; [discriminate |]. unfold stepCounted.
  destruct (field =? "*")%string.
  { intros H. inversion H. exact I. }
  destruct (includesChar "/" field).
  { destruct (parseInt (nth 1 (split "/" field) ""%string)) as [s |] eqn:Hs.
    2: { destruct (includesChar "," _); intros H.
         - apply bind_Ok_inv in H. destruct H as [vals [_ H]].
           apply bind_Ok_inv in H. destruct H as [st [_ H]]. inversion H. exact I.
         - cbv zeta in H. apply bind_Ok_inv in H. destruct H as [[a b] [_ H]].
           apply bind_Ok_inv in H. destruct H as [vals [_ H]]. inversion H. exact I. }
    intros H.
    assert (Hbody :
      (if includesChar "," (nth 0 (split "/" field) ""%string) then
          values <- flatMapM
                      (fun range =>
                         if includesChar "-" range then
                           ' (start, end_) <- parseRange range min max ;;
                           Ok (arrayFrom (end_ - start + 1) start)
                         else
                           value <- parseValue range min max ;; Ok [value])
                      (split "," (nth 0 (split "/" field) ""%string)) ;;
          steppedValues <- match values with
                           | [] => Ok []
                           | v0 :: _ => steppedLoop fuel v0 max (Num s) values []
                           end ;;
          Ok (mkField (sortAsc steppedValues) (Some (Num s)))
        else
          let range := if (nth 0 (split "/" field) ""%string =? "*")%string
                       then (toString min ++ "-" ++ toString max)%string
                       else nth 0 (split "/" field) ""%string in
          ' (start, end_) <- parseRange range min max ;;
          values <- stepLoop fuel start end_ (Num s) [] ;;
          Ok (mkField values (Some (Num s)))) = Ok f /\ s <> 0).
    { destruct s; [discriminate | split; [exact H | lia] | split; [exact H | lia]]. }
    clear H. destruct Hbody as [H Hnz].
    destruct (Z_le_gt_dec s 0) as [Hneg | Hpos].
    2: { destruct (includesChar "," _).
         - apply bind_Ok_inv in H. destruct H as [vals [_ H]].
           apply bind_Ok_inv in H. destruct H as [st [_ H]]. inversion H. simpl. lia.
         - cbv zeta in H. apply bind_Ok_inv in H. destruct H as [[a b] [_ H]].
           apply bind_Ok_inv in H. destruct H as [vals [_ H]]. inversion H. simpl. lia. }
    exfalso. destruct (includesChar "," _).
    - apply bind_Ok_inv in H. destruct H as [vals [Hvals H]].
      apply bind_Ok_inv in H. destruct H as [st [Hst _]].
      apply flatMapM_ranges in Hvals. destruct Hvals as [Hw Hne].
      specialize (Hne (split_nonempty _ _)).
      destruct vals as [| v0 vals']; [congruence |].
      assert (Hv0 : min <= v0 <= max) by (inversion Hw; assumption).
      rewrite steppedLoop_diverges in Hst by lia. discriminate.
    - cbv zeta in H. apply bind_Ok_inv in H. destruct H as [[a b] [Hr H]].
      apply bind_Ok_inv in H. destruct H as [vals [Hst _]].
      apply parseRange_bounds in Hr.
      rewrite stepLoop_diverges in Hst by lia. discriminate. }
  destruct (includesChar "," field).
  { intros H. apply bind_Ok_inv in H. destruct H as [vals [_ H]]. inversion H. exact I. }
  destruct (includesChar "-" field).
  { intros H. apply bind_Ok_inv in H. destruct H as [[a b] [_ H]]. inversion H. exact I. }
  intros H. apply bind_Ok_inv in H. destruct H as [v [_ H]]. inversion H. exact I.
Qed.

(** A field that [parseField] accepts over a domain [min..max]: its values
    are values of the domain, in strictly ascending order (sorted, no
    duplicate), there is at least one, and the step it records, if any, is
    positive or [NaN]. *)
Theorem parsed_field_invariant (fuel : nat) (field : string) (min max : Z)
        (f : CronField) :
  min <= max ->
  parseField fuel field min max = Ok f ->
  values f <> []
  /\ strictlyAscending (values f)
  /\ within min max (values f)
  /\ stepCounted f.
Proof.
  intros Hmm H.
  destruct (parseField_values fuel field min max f Hmm H) as [Hne [Hs Hw]].
  repeat split; try assumption. eapply parseField_step. exact H.
Qed.

(** The minutes ['10-30/5']. *)
Lemma parsed_field_invariant_witness :
  values (mkField [10; 15; 20; 25; 30] (Some (Num 5))) <> []
  /\ strictlyAscending (values (mkField [10; 15; 20; 25; 30] (Some (Num 5))))
  /\ within 0 59 (values (mkField [10; 15; 20; 25; 30] (Some (Num 5))))
  /\ stepCounted (mkField [10; 15; 20; 25; 30] (Some (Num 5))).
Proof.
  apply (parsed_field_invariant parseFuel "10-30/5" 0 59).
  - lia.
  - vm_compute. reflexivity.
Defined.

(** ** The field parser stops *)

Lemma outOfFuel_bind {A B : Type} (r : result A) (k : A -> result B) :
  outOfFuel r = false ->
  (forall a, r = Ok a -> outOfFuel (k a) = false) ->
  outOfFuel (bind r k) = false.
Proof. destruct r; simpl; auto. Qed.

Lemma stepLoop_terminates (fuel : nat) :
  forall s i end_ acc,
    0 < s -> end_ - i < Z.of_nat fuel ->
    outOfFuel (stepLoop fuel i end_ (Num s) acc) = false.
Proof.
  induction fuel as [| f IH]; intros s i end_ acc Hs Hf; simpl.
  - destruct (Z.leb_spec i end_); [lia | reflexivity].
  - destruct (Z.leb_spec i end_); [| reflexivity]. apply IH; lia.
Qed.

Lemma steppedLoop_terminates (fuel : nat) :
  forall s i max vals acc,
    0 < s -> max - i < Z.of_nat fuel ->
    outOfFuel (steppedLoop fuel i max (Num s) vals acc) = false.
Proof.
  induction fuel as [| f IH]; intros s i max vals acc Hs Hf; simpl.
  - destruct (Z.leb_spec i max); [lia | reflexivity].
  - destruct (Z.leb_spec i max); [| reflexivity]. apply IH; lia.
Qed.

Lemma stepLoop_NaN (fuel : nat) (i end_ : Z) (acc : list Z) :
  (0 < fuel)%nat -> outOfFuel (stepLoop fuel i end_ NaN acc) = false.
Proof. intros H. destruct fuel; [lia |]. simpl. destruct (i <=? end_); reflexivity. Qed.

Lemma steppedLoop_NaN (fuel : nat) (i max : Z) (vals acc : list Z) :
  (0 < fuel)%nat -> outOfFuel (steppedLoop fuel i max NaN vals acc) = false.
Proof. intros H. destruct fuel; [lia |]. simpl. destruct (i <=? max); reflexivity. Qed.

Lemma parseRange_terminates (range : string) (min max : Z) :
  outOfFuel (parseRange range min max) = false.
Proof. unfold parseRange. repeat break_match; reflexivity. Qed.

Lemma parseValue_terminates (text : string) (min max : Z) :
  outOfFuel (parseValue text min max) = false.
Proof. unfold parseValue. repeat break_match; reflexivity. Qed.

Lemma flatMapM_terminates {A : Type} (f : A -> result (list Z)) (l : list A) :
  (forall x, In x l -> outOfFuel (f x) = false) ->
  outOfFuel (flatMapM f l) = false.
Proof.
  induction l as [| x l IH]; intros Hf; simpl; [reflexivity |].
  apply outOfFuel_bind; [apply Hf; now left |]. intros ys _.
  apply outOfFuel_bind; [apply IH; intros y Hy; apply Hf; now right |]. reflexivity.
Qed.

(** The pieces of [s.split(sep)] hold no character that [s] does not hold,
    and not the separator. *)
Lemma split_includesChar (c sep : ascii) (s : string) :
  forall part, In part (split sep s) -> includesChar c part = true ->
               includesChar c s = true /\ c <> sep.
Proof.
  induction s as [| a rest IH]; simpl; intros part Hin Hc.
  - destruct Hin as [<- | []]. discriminate.
  - destruct (Ascii.eqb_spec a sep) as [-> | Hne].
    + destruct Hin as [<- | Hin]; [discriminate |].
      destruct (IH part Hin Hc) as [Hr Hs]. rewrite Hr, orb_true_r. now split.
    + destruct (split sep rest) as [| t ts] eqn:Hsp.
      * destruct Hin as [<- | []]. simpl in Hc. rewrite orb_false_r in Hc.
        apply Ascii.eqb_eq in Hc. subst a. rewrite Ascii.eqb_refl. now split.
      * destruct Hin as [<- | Hin].
        -- simpl in Hc. apply orb_true_iff in Hc. destruct Hc as [Hc | Hc].
           ++ apply Ascii.eqb_eq in Hc. subst a. rewrite Ascii.eqb_refl. now split.
           ++ destruct (IH t (or_introl eq_refl) Hc) as [Hr Hs].
              rewrite Hr, orb_true_r. now split.
        -- destruct (IH part (or_intror Hin) Hc) as [Hr Hs].
           rewrite Hr, orb_true_r. now split.
Qed.

Lemma parseField_plain_terminates (fuel : nat) (field : string) (min max : Z) :
  (0 < fuel)%nat ->
  includesChar "/" field = false -> includesChar "," field = false ->
  outOfFuel (parseField fuel field min max) = false.
Proof.
  intros Hf Hs Hc. destruct fuel as [| fuel]; [lia |]. simpl.
  destruct (field =? "*")%string; [reflexivity |].
  rewrite Hs, Hc.
  destruct (includesChar "-" field).
  - apply outOfFuel_bind; [apply parseRange_terminates |]. intros [a b] _. reflexivity.
  - apply outOfFuel_bind; [apply parseValue_terminates |]. reflexivity.
Qed.

(** With more fuel than the domain has values, [parseField] runs out of
    fuel on no field but one with a negative step: its loops stop on every
    other input, and the answer is a field or an error. *)
Lemma parseField_terminates (fuel : nat) (field : string) (min max : Z) :
  min <= max -> max - min + 1 < Z.of_nat fuel ->
  hasNegativeStep field = false ->
  outOfFuel (parseField fuel field min max) = false.
Proof.
  intros Hmm Hfuel Hstep. destruct fuel as [| fuel]; [lia |]. simpl.
  destruct (field =? "*")%string; [reflexivity |].
  unfold hasNegativeStep in Hstep.
  destruct (includesChar "/" field) eqn:Hslash.
  { cbn [andb] in Hstep.
    destruct (parseInt (nth 1 (split "/" field) ""%string)) as [s |] eqn:Hs.
    - destruct (Z.ltb_spec s 0) as [| Hpos]; [discriminate |].
      destruct (Z.eq_dec s 0) as [-> | Hnz]; [reflexivity |].
      assert (Hbody : forall (A : Type) (a b : A),
                 match s with 0 => a | _ => b end = b) by (intros; destruct s; [lia | |]; reflexivity).
      rewrite Hbody. clear Hbody.
      destruct (includesChar "," _).
      + apply outOfFuel_bind.
        { apply flatMapM_terminates. intros range _.
          destruct (includesChar "-" range).
          - apply outOfFuel_bind; [apply parseRange_terminates |]. intros [a b] _.
            reflexivity.
          - apply outOfFuel_bind; [apply parseValue_terminates |]. reflexivity. }
        intros vals Hvals. apply flatMapM_ranges in Hvals. destruct Hvals as [Hw _].
        apply outOfFuel_bind; [| reflexivity].
        destruct vals as [| v0 vals']; [reflexivity |].
        assert (Hv0 : min <= v0 <= max) by (inversion Hw; assumption).
        apply steppedLoop_terminates; lia.
      + cbv zeta. apply outOfFuel_bind; [apply parseRange_terminates |].
        intros [a b] Hr. apply parseRange_bounds in Hr.
        apply outOfFuel_bind; [| reflexivity].
        apply stepLoop_terminates; lia.
    - destruct (includesChar "," _).
      + apply outOfFuel_bind.
        { apply flatMapM_terminates. intros range _.
          destruct (includesChar "-" range).
          - apply outOfFuel_bind; [apply parseRange_terminates |]. intros [a b] _.
            reflexivity.
          - apply outOfFuel_bind; [apply parseValue_terminates |]. reflexivity. }
        intros vals _. apply outOfFuel_bind; [| reflexivity].
        destruct vals as [| v0 vals']; [reflexivity |].
        apply steppedLoop_NaN. lia.
      + cbv zeta. apply outOfFuel_bind; [apply parseRange_terminates |].
        intros [a b] _. apply outOfFuel_bind; [| reflexivity].
        apply stepLoop_NaN. lia. }
  destruct (includesChar "," field) eqn:Hcomma.
  { apply outOfFuel_bind; [| reflexivity].
    apply flatMapM_terminates. intros part Hpart.
    apply outOfFuel_bind; [| reflexivity].
    apply parseField_plain_terminates; [lia | |].
    - destruct (includesChar "/" part) eqn:Hp; [| reflexivity].
      destruct (split_includesChar "/" "," field part Hpart Hp) as [Hc _]. congruence.
    - destruct (includesChar "," part) eqn:Hp; [| reflexivity].
      destruct (split_includesChar "," "," field part Hpart Hp) as [_ Hc]. congruence. }
  destruct (includesChar "-" field).
  - apply outOfFuel_bind; [apply parseRange_terminates |]. intros [a b] _. reflexivity.
  - apply outOfFuel_bind; [apply parseValue_terminates |]. reflexivity.
Qed.

(** The minutes ['*/15'], with the fuel of the constructor. *)
Lemma parseField_terminates_witness :
  outOfFuel (parseField parseFuel "*/15" 0 59) = false.
Proof.
  apply (parseField_terminates parseFuel "*/15" 0 59).
  - lia.
  - vm_compute. reflexivity.
  - vm_compute. reflexivity.
Defined.

(** ** The parser the constructor returns *)

Lemma parseField_filled (fuel : nat) (field : string) (min max : Z) (f : CronField) :
  min <= max -> parseField fuel field min max = Ok f -> fieldFilled min max f.
Proof.
  intros Hmm H. destruct (parseField_values fuel field min max f Hmm H) as [? [? ?]].
  repeat split; assumption.
Qed.

Lemma fieldWithin_empty (lo hi : Z) : fieldWithin lo hi emptyField.
Proof. split; constructor. Qed.

Lemma fieldFilled_within (lo hi : Z) (f : CronField) :
  fieldFilled lo hi f -> fieldWithin lo hi f.
Proof. now intros [_ H]. Qed.

(** What [parseDayOfMonth] changes: the day-of-month field and its
    modifiers. *)
Lemma parseDayOfMonth_effect (fuel : nat) (this p : CronParser) (field : string) :
  parseDayOfMonth fuel this field = Ok p ->
  seconds p = seconds this /\ minutes p = minutes this /\ hours p = hours this
  /\ months p = months this /\ daysOfWeek p = daysOfWeek this
  /\ years p = years this /\ dayOfWeekModifiers p = dayOfWeekModifiers this
  /\ (daysOfMonth p = daysOfMonth this
      \/ exists text, parseField fuel text 1 31 = Ok (daysOfMonth p)).
Proof.
  unfold parseDayOfMonth. cbv zeta. intros H.
  destruct (field =? "?")%string.
  { inversion H; subst. repeat split; auto. }
  destruct (endsWith "W" _).
  { destruct (_ =? "L")%string.
    - inversion H; subst. repeat split; auto.
    - apply bind_Ok_inv in H. destruct H as [f [Hf H]]. inversion H; subst.
      repeat split; auto. right. eexists. exact Hf. }
  destruct (startsWith "L-" _).
  { inversion H; subst. repeat split; auto. }
  destruct (_ =? "L")%string.
  { inversion H; subst. repeat split; auto. }
  apply bind_Ok_inv in H. destruct H as [f [Hf H]].
  assert (Hp : p = setDaysOfMonth this f).
  { destruct (_ && _) in H.
    - apply bind_Ok_inv in H. destruct H as [u [_ H]]. now inversion H.
    - now inversion H. }
  subst p. repeat split; auto. right. eexists. exact Hf.
Qed.

Lemma parseMonth_effect (fuel : nat) (this p : CronParser) (field : string) :
  parseMonth fuel this field = Ok p ->
  seconds p = seconds this /\ minutes p = minutes this /\ hours p = hours this
  /\ daysOfMonth p = daysOfMonth this /\ daysOfWeek p = daysOfWeek this
  /\ years p = years this /\ dayOfWeekModifiers p = dayOfWeekModifiers this
  /\ dayOfMonthModifiers p = dayOfMonthModifiers this
  /\ exists text, parseField fuel text 1 12 = Ok (months p).
Proof.
  unfold parseMonth. intros H. apply bind_Ok_inv in H. destruct H as [f [Hf H]].
  inversion H; subst. repeat split; auto. eexists. exact Hf.
Qed.

Lemma parseDayOfWeek_effect (fuel : nat) (this p : CronParser) (field : string) :
  parseDayOfWeek fuel this field = Ok p ->
  seconds p = seconds this /\ minutes p = minutes this /\ hours p = hours this
  /\ daysOfMonth p = daysOfMonth this /\ months p = months this
  /\ years p = years this /\ dayOfMonthModifiers p = dayOfMonthModifiers this
  /\ (daysOfWeek p = daysOfWeek this
      \/ exists text, parseField fuel text 0 6 = Ok (daysOfWeek p))
  /\ (DayOfWeekModifiers.nthDay (dayOfWeekModifiers p)
      = DayOfWeekModifiers.nthDay (dayOfWeekModifiers this)
      \/ match DayOfWeekModifiers.nthDay (dayOfWeekModifiers p) with
         | Num n => 1 <= n <= 5
         | NaN => True
         end).
Proof.
  unfold parseDayOfWeek. cbv zeta. intros H.
  destruct (field =? "?")%string.
  { inversion H; subst. repeat split; auto. }
  destruct (endsWith "L" _).
  { apply bind_Ok_inv in H. destruct H as [f [Hf H]]. inversion H; subst.
    repeat split; auto. right. eexists. exact Hf. }
  destruct (includesChar "#" _).
  { destruct (parseInt _) as [n |] eqn:Hn.
    - destruct (Z.ltb_spec n 1); [discriminate |].
      destruct (Z.gtb_spec n 5); [discriminate |]. simpl in H.
      apply bind_Ok_inv in H. destruct H as [f [Hf H]]. inversion H; subst.
      repeat split; auto.
      + right. eexists. exact Hf.
      + right. simpl. lia.
    - apply bind_Ok_inv in H. destruct H as [f [Hf H]]. inversion H; subst.
      repeat split; auto.
      + right. eexists. exact Hf.
      + right. simpl. exact I. }
  apply bind_Ok_inv in H. destruct H as [f [Hf H]]. inversion H; subst.
  repeat split; auto. right. eexists. exact Hf.
Qed.

(** Every parser that [parse] makes of the initial object is well
    formed. *)
Lemma parse_well_formed (fuel : nat) (cronString : string) (timezone : Z)
      (p : CronParser) :
  parse fuel (initial cronString timezone) cronString = Ok p -> WellFormed p.
Proof.
  unfold parse. cbv zeta. intros H.
  destruct (_ || _); [discriminate |].
  destruct (_ && _); [discriminate |].
  apply bind_Ok_inv in H. destruct H as [secs [Hsecs H]].
  apply bind_Ok_inv in H. destruct H as [mins [Hmins H]].
  apply bind_Ok_inv in H. destruct H as [hrs [Hhrs H]].
  apply bind_Ok_inv in H. destruct H as [this1 [H1 H]].
  apply bind_Ok_inv in H. destruct H as [this2 [H2 H]].
  apply bind_Ok_inv in H. destruct H as [this3 [H3 H]].
  assert (Fsecs : fieldFilled 0 59 secs).
  { destruct (Nat.ltb 5 _).
    - eapply parseField_filled; [| exact Hsecs]. lia.
    - inversion Hsecs; subst. repeat split; simpl.
      + discriminate.
      + constructor; constructor.
      + constructor; [lia | constructor]. }
  assert (Fmins : fieldFilled 0 59 mins) by (eapply parseField_filled; [| exact Hmins]; lia).
  assert (Fhrs : fieldFilled 0 23 hrs) by (eapply parseField_filled; [| exact Hhrs]; lia).
  apply parseDayOfMonth_effect in H1.
  destruct H1 as [Es1 [Em1 [Eh1 [Emo1 [Edw1 [Ey1 [Emod1 Hdom1]]]]]]].
  apply parseMonth_effect in H2.
  destruct H2 as [Es2 [Em2 [Eh2 [Edom2 [Edw2 [Ey2 [Emod2 [_ [tm Hmo2]]]]]]]]].
  apply parseDayOfWeek_effect in H3.
  destruct H3 as [Es3 [Em3 [Eh3 [Edom3 [Emo3 [Ey3 [_ [Hdw3 Hnth3]]]]]]]].
  cbn [setHours setMinutes setSeconds initial seconds minutes hours daysOfMonth months
       daysOfWeek years dayOfWeekModifiers dayOfMonthModifiers] in *.
  assert (W3 : fieldFilled 0 59 (seconds this3) /\ fieldFilled 0 59 (minutes this3)
               /\ fieldFilled 0 23 (hours this3) /\ fieldFilled 1 12 (months this3)
               /\ fieldWithin 1 31 (daysOfMonth this3)
               /\ fieldWithin 0 6 (daysOfWeek this3)
               /\ match DayOfWeekModifiers.nthDay (dayOfWeekModifiers this3) with
                  | Num n => 0 <= n <= 5
                  | NaN => True
                  end
               /\ years this3 = emptyField).
  { rewrite Es3, Es2, Es1, Em3, Em2, Em1, Eh3, Eh2, Eh1, Emo3, Edom3, Edom2, Ey3, Ey2, Ey1.
    split; [exact Fsecs |]. split; [exact Fmins |]. split; [exact Fhrs |].
    split; [eapply parseField_filled; [| exact Hmo2]; lia |].
    split.
    { destruct Hdom1 as [-> | [t Ht]]; [apply fieldWithin_empty |].
      apply fieldFilled_within. eapply parseField_filled; [| exact Ht]. lia. }
    split.
    { destruct Hdw3 as [-> | [t Ht]].
      - rewrite Edw2, Edw1. apply fieldWithin_empty.
      - apply fieldFilled_within. eapply parseField_filled; [| exact Ht]. lia. }
    split; [| reflexivity].
    destruct Hnth3 as [-> | Hn].
    - rewrite Emod2, Emod1. simpl. lia.
    - destruct (DayOfWeekModifiers.nthDay _); [lia | exact I]. }
  destruct W3 as [Ws [Wm [Wh [Wmo [Wdom [Wdw [Wn Wy]]]]]]].
  destruct (Nat.eqb _ 7).
  - apply bind_Ok_inv in H. destruct H as [yrs [Hyrs H]]. inversion H; subst p.
    constructor; cbn [setYears seconds minutes hours daysOfMonth months daysOfWeek years
                      dayOfWeekModifiers]; try assumption.
    apply fieldFilled_within. eapply parseField_filled; [| exact Hyrs]. lia.
  - inversion H; subst p. constructor; try assumption.
    rewrite Wy. apply fieldWithin_empty.
Qed.

(** Every parser the constructor returns is well formed: each field holds
    strictly ascending values of its domain; seconds, minutes, hours and
    months hold at least one; the [#] count is unset, [NaN] or one of
    1..5. *)
Theorem constructor_well_formed (now : Z) (fuel : nat) (cronString : string)
        (timezone : Z) (p : CronParser) :
  newCronParser now fuel cronString timezone = Ok p -> WellFormed p.
Proof. unfold newCronParser. apply parse_well_formed. Qed.

Lemma constructor_well_formed_witness : WellFormed nearest26Schedule.
Proof.
  apply (constructor_well_formed 0 parseFuel "0 0 0 26W * ?" 0).
  vm_compute. reflexivity.
Defined.

(** ** Which error for which cause *)

Lemma raisesOnly_bind {A B : Type} (kind : CronError -> bool)
      (r : result A) (k : A -> result B) :
  raisesOnly kind r = true ->
  (forall a, raisesOnly kind (k a) = true) ->
  raisesOnly kind (bind r k) = true.
Proof. destruct r; simpl; auto. Qed.

Lemma raisesOnly_weaken {A : Type} (kind kind' : CronError -> bool) (r : result A) :
  (forall e, kind e = true -> kind' e = true) ->
  raisesOnly kind r = true -> raisesOnly kind' r = true.
Proof. intros Hk. destruct r; simpl; auto. Qed.

Lemma parseRange_raisesOnly (range : string) (min max : Z) :
  raisesOnly isFieldError (parseRange range min max) = true.
Proof. unfold parseRange. repeat break_match; reflexivity. Qed.

Lemma parseValue_raisesOnly (text : string) (min max : Z) :
  raisesOnly isFieldError (parseValue text min max) = true.
Proof. unfold parseValue. repeat break_match; reflexivity. Qed.

Lemma stepLoop_raisesOnly (kind : CronError -> bool) (fuel : nat) :
  forall i end_ step acc, raisesOnly kind (stepLoop fuel i end_ step acc) = true.
Proof.
  induction fuel as [| f IH]; intros i end_ step acc; simpl.
  - destruct (i <=? end_); reflexivity.
  - destruct (i <=? end_); [| reflexivity]. destruct step; [apply IH | reflexivity].
Qed.

Lemma steppedLoop_raisesOnly (kind : CronError -> bool) (fuel : nat) :
  forall i max step vals acc,
    raisesOnly kind (steppedLoop fuel i max step vals acc) = true.
Proof.
  induction fuel as [| f IH]; intros i max step vals acc; simpl.
  - destruct (i <=? max); reflexivity.
  - destruct (i <=? max); [| reflexivity]. destruct step; [apply IH | reflexivity].
Qed.

Lemma flatMapM_raisesOnly {A : Type} (kind : CronError -> bool)
      (f : A -> result (list Z)) (l : list A) :
  (forall x, raisesOnly kind (f x) = true) ->
  raisesOnly kind (flatMapM f l) = true.
Proof.
  intros Hf. induction l as [| x l IH]; simpl; [reflexivity |].
  apply raisesOnly_bind; [apply Hf |]. intros ys.
  apply raisesOnly_bind; [apply IH |]. reflexivity.
Qed.

Ltac raisesOnly_step :=
  first
    [ reflexivity
    | apply parseRange_raisesOnly
    | apply parseValue_raisesOnly
    | apply stepLoop_raisesOnly
    | apply steppedLoop_raisesOnly
    | apply raisesOnly_bind; [| intros ?]
    | apply flatMapM_raisesOnly; intros ?
    | break_match ].

Lemma parseField_raisesOnly (fuel : nat) :
  forall field min max, raisesOnly isFieldError (parseField fuel field min max) = true.
Proof.
  induction fuel as [| f IH]; intros field min max; simpl; [reflexivity |].
  repeat first [ apply IH | raisesOnly_step ].
Qed.

Lemma parseField_parsingError (fuel : nat) (field : string) (min max : Z) :
  raisesOnly isParsingError (parseField fuel field min max) = true.
Proof.
  apply raisesOnly_weaken with (kind := isFieldError); [| apply parseField_raisesOnly].
  intros [] He; try discriminate; reflexivity.
Qed.

Lemma checkDayAgainstMonths_raisesOnly (day : Z) (monthValues : list Z) :
  raisesOnly isParsingError (checkDayAgainstMonths day monthValues) = true.
Proof.
  induction monthValues as [| m rest IH]; simpl; [reflexivity |].
  repeat first [ assumption | reflexivity | break_match ].
Qed.

Lemma checkDaysAgainstMonths_raisesOnly (dayValues monthValues : list Z) :
  raisesOnly isParsingError (checkDaysAgainstMonths dayValues monthValues) = true.
Proof.
  induction dayValues as [| d rest IH]; simpl; [reflexivity |].
  apply raisesOnly_bind; [apply checkDayAgainstMonths_raisesOnly | intros _; exact IH].
Qed.

Lemma parseDayOfMonth_raisesOnly (fuel : nat) (this : CronParser) (field : string) :
  raisesOnly isParsingError (parseDayOfMonth fuel this field) = true.
Proof.
  unfold parseDayOfMonth. cbv zeta.
  repeat first
    [ apply parseField_parsingError
    | apply checkDaysAgainstMonths_raisesOnly
    | reflexivity
    | apply raisesOnly_bind; [| intros ?]
    | break_match ].
Qed.

Lemma parseMonth_raisesOnly (fuel : nat) (this : CronParser) (field : string) :
  raisesOnly isParsingError (parseMonth fuel this field) = true.
Proof.
  unfold parseMonth. apply raisesOnly_bind; [apply parseField_parsingError | reflexivity].
Qed.

Lemma parseDayOfWeek_raisesOnly (fuel : nat) (this : CronParser) (field : string) :
  raisesOnly isParsingError (parseDayOfWeek fuel this field) = true.
Proof.
  unfold parseDayOfWeek. cbv zeta.
  repeat first
    [ apply parseField_parsingError
    | reflexivity
    | apply raisesOnly_bind; [| intros ?]
    | break_match ].
Qed.

(** How a construction can fail.  Every [CronError] the constructor throws
    tells its cause: the field-count error is thrown when, and only when,
    there are fewer than 5 or more than 7 fields; the conflict error only
    when the count is right and [fields[3]] and [fields[5]] are both
    explicit; a step, value, range or nth error only when both checks are
    passed; no other [CronError] is thrown.  The one other way to fail is a
    loop of the field parser that does not stop, and the field parser too
    is reached only when both checks are passed. *)
Theorem constructor_error_cause (now : Z) (fuel : nat) (cronString : string)
        (timezone : Z) :
  (forall e, newCronParser now fuel cronString timezone = Throw e ->
             errorCause cronString e)
  /\ (newCronParser now fuel cronString timezone = OutOfFuel ->
      (5 <= List.length (trimSplit cronString) <= 7)%nat
      /\ isExplicit (nth_error (trimSplit cronString) 3)
         && isExplicit (nth_error (trimSplit cronString) 5) = false)
  /\ ((List.length (trimSplit cronString) < 5
       \/ 7 < List.length (trimSplit cronString))%nat ->
      newCronParser now fuel cronString timezone = Throw InvalidFieldCount).
Proof.
  split; [| split].
  - intros e H.
    assert (Hdate : raisesInvalidDate (newCronParser now fuel cronString timezone) = false)
      by (apply parse_no_date; reflexivity).
    rewrite H in Hdate. simpl in Hdate.
    revert H. unfold newCronParser, parse, errorCause. cbv zeta.
    destruct (Nat.ltb_spec (List.length (trimSplit cronString)) 5) as [Hlt | Hge].
    { simpl. intros H. inversion H; subst e. left. exact Hlt. }
    destruct (Nat.ltb_spec 7 (List.length (trimSplit cronString))) as [Hgt | Hle].
    { simpl. intros H. inversion H; subst e. right. exact Hgt. }
    cbn [orb].
    destruct (isExplicit (nth_error (trimSplit cronString) 3)
              && isExplicit (nth_error (trimSplit cronString) 5)) eqn:Hc.
    { intros H. inversion H; subst e. split; [lia | reflexivity]. }
    intros H.
    match type of H with
    | ?r = Throw e => assert (Hk : raisesOnly isParsingError r = true)
    end.
    { apply raisesOnly_bind.
      { destruct (Nat.ltb 5 _); [apply parseField_parsingError | reflexivity]. }
      intros secs.
      apply raisesOnly_bind; [apply parseField_parsingError |]. intros mins.
      apply raisesOnly_bind; [apply parseField_parsingError |]. intros hrs.
      apply raisesOnly_bind; [apply parseDayOfMonth_raisesOnly |]. intros this1.
      apply raisesOnly_bind; [apply parseMonth_raisesOnly |]. intros this2.
      apply raisesOnly_bind; [apply parseDayOfWeek_raisesOnly |]. intros this3.
      destruct (Nat.eqb _ 7); [| reflexivity].
      apply raisesOnly_bind; [apply parseField_parsingError | reflexivity]. }
    rewrite H in Hk. simpl in Hk.
    destruct e; try discriminate; split; try lia; reflexivity.
  - unfold newCronParser, parse. cbv zeta.
    destruct (Nat.ltb_spec (List.length (trimSplit cronString)) 5) as [Hlt | Hge];
      [discriminate |].
    destruct (Nat.ltb_spec 7 (List.length (trimSplit cronString))) as [Hgt | Hle];
      [discriminate |].
    cbn [orb].
    destruct (isExplicit (nth_error (trimSplit cronString) 3)
              && isExplicit (nth_error (trimSplit cronString) 5));
      [discriminate |].
    intros _. split; [lia | reflexivity].
  - intros Hn. unfold newCronParser, parse. cbv zeta.
    destruct (Nat.ltb_spec (List.length (trimSplit cronString)) 5) as [Hlt | Hge];
      [reflexivity |].
    destruct (Nat.ltb_spec 7 (List.length (trimSplit cronString))) as [Hgt | Hle];
      [reflexivity | lia].
Qed.

(** ['0 0 0 1 * 1,2']: six fields, both day fields explicit. *)
Lemma constructor_error_cause_witness :
  errorCause "0 0 0 1 * 1,2" DayFieldsConflict.
Proof.
  apply (proj1 (constructor_error_cause 0 parseFuel "0 0 0 1 * 1,2" 0)).
  vm_compute. reflexivity.
Defined.

(** ** The days of a month *)

Lemma daysInMonth_bounds (y m : Z) : 28 <= Luxon.daysInMonth y m <= 31.
Proof. unfold Luxon.daysInMonth. repeat break_match; lia. Qed.

Lemma dowOf_range (y m d : Z) : 0 <= dowOf y m d <= 6.
Proof.
  rewrite dowOf_days.
  pose proof (Z.mod_pos_bound (Luxon.daysFromCivil y m d + 4) 7 ltac:(lia)). lia.
Qed.

Lemma dowOf_base (y m d : Z) :
  dowOf y m d = (Luxon.daysFromCivil y m 0 + 4 + d) mod 7.
Proof.
  rewrite dowOf_days. replace d with (0 + d) at 1 by lia.
  rewrite daysFromCivil_shift. f_equal. lia.
Qed.

Lemma inRange_true (lo hi x : Z) : Luxon.inRange lo hi x = true <-> lo <= x <= hi.
Proof. unfold Luxon.inRange. rewrite andb_true_iff, !Z.leb_le. tauto. Qed.

Lemma daysInMonthOf_Some (y m ldom : Z) :
  Luxon.daysInMonthOf y m = Some ldom -> 1 <= m <= 12 /\ ldom = Luxon.daysInMonth y m.
Proof.
  unfold Luxon.daysInMonthOf. destruct (Luxon.inRange 1 12 m) eqn:Hm; [| discriminate].
  intros H. inversion H. apply inRange_true in Hm. now split.
Qed.

(** The days [getDayOfMonthSet] answers are days of the month asked for,
    in ascending order and without repetition. *)
Lemma getDayOfMonthSet_days (p : CronParser) (y m : Z) :
  fieldWithin 1 31 (daysOfMonth p) ->
  lastDayOffsetCounted p ->
  strictlyAscending (getDayOfMonthSet p y m)
  /\ forall d, In d (getDayOfMonthSet p y m) -> isDayOf y m d.
Proof.
  intros [Hasc Hin] Hoff. unfold getDayOfMonthSet, isDayOf.
  destruct (Luxon.daysInMonthOf y m) as [ldom |] eqn:Hl.
  2: { split; [constructor | intros d []]. }
  apply daysInMonthOf_Some in Hl. destruct Hl as [Hm ->].
  pose proof (daysInMonth_bounds y m) as Hb. cbv zeta.
  destruct (DayOfMonthModifiers.lastDay _).
  { unfold lastDayOffsetCounted in Hoff.
    destruct (DayOfMonthModifiers.lastDayOffset _) as [n |].
    - destruct (Z.geb_spec (Luxon.daysInMonth y m - n) 1).
      + split; [apply singleton_strictlyAscending |]. intros d [<- | []]. lia.
      + split; [constructor | intros d []].
    - split; [constructor | intros d []]. }
  destruct (DayOfMonthModifiers.lastWeekday _).
  { split; [apply singleton_strictlyAscending |]. intros d [<- | []].
    repeat break_match; lia. }
  destruct (DayOfMonthModifiers.nearestWeekday _).
  { destruct (Luxon.fromObject _ _ _ _ _ _).
    - split; [apply singleton_strictlyAscending |]. intros d [<- | []]. lia.
    - split; [constructor | intros d []]. }
  destruct (arrayFrom_ascending (Luxon.daysInMonth y m) 1) as [Ha Hw].
  rewrite within_In in Hw, Hin.
  destruct (isEmpty (values (daysOfMonth p))).
  - destruct (_ || _).
    + split; [now apply filter_strictlyAscending |].
      intros d Hd. apply filter_In in Hd. destruct Hd as [Hd _].
      specialize (Hw d Hd). lia.
    + split; [assumption |]. intros d Hd. specialize (Hw d Hd). lia.
  - split; [now apply filter_strictlyAscending |].
    intros d Hd. apply filter_In in Hd. destruct Hd as [Hd Hf].
    specialize (Hin d Hd). split; [assumption |]. split; [lia |].
    destruct ((m =? 2) && (d =? 29)).
    + destruct (Luxon.daysInMonth y 2 =? 29); [| discriminate]. now apply Z.leb_le.
    + now apply Z.leb_le.
Qed.

(** The days [getDayOfMonthSet] answers for a month are days of that month,
    in strictly ascending order, whatever the modifiers, as long as the
    listed days are days (1..31, ascending) and the offset of [L-N] is not
    negative. *)
Theorem day_set_within_month (p : CronParser) (y m : Z) :
  fieldWithin 1 31 (daysOfMonth p) ->
  lastDayOffsetCounted p ->
  strictlyAscending (getDayOfMonthSet p y m)
  /\ forall d, In d (getDayOfMonthSet p y m) -> isDayOf y m d.
Proof. apply getDayOfMonthSet_days. Qed.

(** The days 29, 30 and 31 in February 2024. *)
Lemma day_set_within_month_witness :
  strictlyAscending (getDayOfMonthSet (setDaysOfMonth feb29Schedule
                                          (mkField [29; 30; 31] None)) 2024 2)
  /\ forall d, In d (getDayOfMonthSet (setDaysOfMonth feb29Schedule
                                         (mkField [29; 30; 31] None)) 2024 2) ->
               isDayOf 2024 2 d.
Proof.
  apply (day_set_within_month
           (setDaysOfMonth feb29Schedule (mkField [29; 30; 31] None)) 2024 2).
  - split; simpl; repeat constructor; lia.
  - unfold lastDayOffsetCounted. simpl. lia.
Defined.

(** ** The last weekday of the month *)

(** Under [LW] the day set of a month is one day: the last day of the month
    that falls on Monday to Friday. *)
Lemma last_weekday_days (p : CronParser) (y m : Z) :
  LastWeekday p ->
  1 <= m <= 12 ->
  exists r,
    getDayOfMonthSet p y m = [r]
    /\ isDayOf y m r
    /\ 1 <= dowOf y m r <= 5
    /\ forall d, r < d <= Luxon.daysInMonth y m -> dowOf y m d = 6 \/ dowOf y m d = 0.
Proof.
  intros [Hf Hl] Hm. unfold getDayOfMonthSet, Luxon.daysInMonthOf.
  rewrite (proj2 (inRange_true 1 12 m) Hm), Hl, Hf. cbv zeta.
  pose proof (daysInMonth_bounds y m) as Hb.
  set (ldom := Luxon.daysInMonth y m) in *.
  pose proof (dowOf_range y m ldom) as Hr.
  pose proof (dowOf_base y m ldom) as H0.
  pose proof (dowOf_base y m (ldom - 1)) as H1.
  pose proof (dowOf_base y m (ldom - 2)) as H2.
  eexists. split; [reflexivity |]. unfold isDayOf. fold ldom.
  destruct (Z.eqb_spec (dowOf y m ldom) 6) as [E6 | N6].
  - repeat split; try lia.
    + rewrite H1. rewrite E6 in H0. revert H0. Z.div_mod_to_equations. lia.
    + rewrite H1. rewrite E6 in H0. revert H0. Z.div_mod_to_equations. lia.
    + intros d Hd. assert (d = ldom) by lia. subst d. now left.
  - destruct (Z.eqb_spec (dowOf y m ldom) 0) as [E0 | N0].
    + repeat split; try lia.
      * rewrite H2. rewrite E0 in H0. revert H0. Z.div_mod_to_equations. lia.
      * rewrite H2. rewrite E0 in H0. revert H0. Z.div_mod_to_equations. lia.
      * intros d Hd. assert (Hc : d = ldom \/ d = ldom - 1) by lia.
        destruct Hc as [-> | ->]; [now right | left].
        rewrite H1. rewrite E0 in H0. revert H0. Z.div_mod_to_equations. lia.
    + rewrite Z.sub_0_r. repeat split; lia.
Qed.

Example lastWeekdaySchedule_parsed (now : Z) :
  newCronParser now parseFuel "0 0 0 LW * ?" 0 = Ok lastWeekdaySchedule.
Proof. reflexivity. Qed.

(** May 2025 ends on a Saturday. *)
Lemma last_weekday_days_witness :
  exists r,
    getDayOfMonthSet lastWeekdaySchedule 2025 5 = [r]
    /\ isDayOf 2025 5 r
    /\ 1 <= dowOf 2025 5 r <= 5
    /\ forall d, r < d <= Luxon.daysInMonth 2025 5 ->
                 dowOf 2025 5 d = 6 \/ dowOf 2025 5 d = 0.
Proof.
  apply (last_weekday_days lastWeekdaySchedule 2025 5).
  - constructor; reflexivity.
  - lia.
Defined.

(** ** The N-th and the last day of week of the month *)

Lemma fromObject_midnight (y m d : Z) :
  isDayOf y m d ->
  Luxon.fromObject y m d 0 0 0 = Luxon.Valid (Luxon.mkCivil y m d 0 0 0).
Proof.
  intros [Hm Hd]. unfold Luxon.fromObject.
  rewrite (proj2 (inRange_true 1 12 m) Hm), (proj2 (inRange_true _ _ d) Hd).
  reflexivity.
Qed.

(** The set of a schedule decided by its day-of-week field: the days of the
    month that [isDayOfWeekSatisfied] accepts. *)
Lemma getDayOfMonthSet_byDayOfWeek (p : CronParser) (y m d : Z) :
  ByDayOfWeek p ->
  1 <= m <= 12 ->
  (negb (isEmpty (values (daysOfWeek p)))
   || truthy (DayOfWeekModifiers.nthDay (dayOfWeekModifiers p))
   || DayOfWeekModifiers.lastDay (dayOfWeekModifiers p)) = true ->
  In d (getDayOfMonthSet p y m)
  <-> isDayOf y m d
      /\ isDayOfWeekSatisfied p (Luxon.Valid (Luxon.mkCivil y m d 0 0 0)) = true.
Proof.
  intros [Hv Hl Hlw Hnw] Hm Hdw. unfold getDayOfMonthSet, Luxon.daysInMonthOf.
  rewrite (proj2 (inRange_true 1 12 m) Hm), Hl, Hlw, Hnw, Hv. cbv zeta.
  cbn [isEmpty]. rewrite Hdw. rewrite filter_In, In_arrayFrom. unfold isDayOf. split.
  - intros [Hd Hs]. assert (Hday : isDayOf y m d) by (unfold isDayOf; lia).
    rewrite (fromObject_midnight _ _ _ Hday) in Hs. split; [exact Hday | exact Hs].
  - intros [Hday Hs]. rewrite (fromObject_midnight _ _ _ Hday). split; [lia | exact Hs].
Qed.

Lemma isDayOfWeekSatisfied_nth (p : CronParser) (target n : Z) (c : Luxon.Civil) :
  NthDayOfWeek p target n ->
  isDayOf (Luxon.year c) (Luxon.month c) (Luxon.day c) ->
  isDayOfWeekSatisfied p (Luxon.Valid c) = true
  <-> NthOccurrence (Luxon.year c) (Luxon.month c) target n (Luxon.day c).
Proof.
  intros [Ht Hn Hs] Hday. unfold isDayOfWeekSatisfied, NthOccurrence. cbv zeta.
  rewrite Hn, Ht. cbn [truthy sameDow].
  destruct (Z.eqb_spec n 0) as [| _]; [contradiction |]. cbn [negb].
  pose proof (daysInMonth_bounds (Luxon.year c) (Luxon.month c)) as Hb.
  destruct Hday as [Hm Hd].
  destruct (Z.eqb_spec (dowOf (Luxon.year c) (Luxon.month c) (Luxon.day c)) target)
    as [Et | Nt]; cbn [negb].
  - rewrite andb_true_iff, Z.eqb_eq, Z.leb_le. split.
    + intros [Hw H5]. split; [split; assumption |]. split; [assumption |].
      revert Hw. Z.div_mod_to_equations. lia.
    + intros [_ [_ Hw]]. split; Z.div_mod_to_equations; lia.
  - split; [discriminate | tauto].
Qed.

(** Where the backward walk of the last-occurrence check stops. *)
Lemma walkBack_stops (y m target : Z) (daysBefore : nat) :
  forall testDay currentDow,
    walkBack y m (Some target) daysBefore = (testDay, currentDow) ->
    currentDow = dowOf y m testDay
    /\ 1 <= testDay <= Z.of_nat daysBefore + 1
    /\ (forall d, testDay < d <= Z.of_nat daysBefore + 1 -> dowOf y m d <> target)
    /\ (currentDow <> target -> testDay = 1).
Proof.
  induction daysBefore as [| k IH]; intros testDay currentDow H.
  - simpl in H. inversion H; subst.
    split; [reflexivity |]. split; [lia |]. split; [intros d Hd; lia | reflexivity].
  - cbn [walkBack] in H. cbv zeta in H. unfold sameDow in H.
    destruct (Z.eqb_spec (dowOf y m (Z.of_nat (S k) + 1)) target) as [Et | Nt].
    + inversion H; subst.
      split; [reflexivity |]. split; [lia |].
      split; [intros d Hd; lia | intros Hc; contradiction].
    + apply IH in H. destruct H as [Hw [Hr [Hall Hone]]].
      split; [assumption |]. split; [lia |]. split; [| assumption].
      intros d Hd.
      destruct (Z.eq_dec d (Z.of_nat (S k) + 1)) as [-> | Hne]; [assumption |].
      apply Hall. lia.
Qed.

Lemma isDayOfWeekSatisfied_last (p : CronParser) (target : Z) (c : Luxon.Civil) :
  LastDayOfWeek p target ->
  isDayOf (Luxon.year c) (Luxon.month c) (Luxon.day c) ->
  isDayOfWeekSatisfied p (Luxon.Valid c) = true
  <-> LastOccurrence (Luxon.year c) (Luxon.month c) target (Luxon.day c).
Proof.
  intros [Ht Hr Hn Hf] Hday. unfold isDayOfWeekSatisfied, LastOccurrence. cbv zeta.
  rewrite Hn, Hf, Ht.
  set (y := Luxon.year c) in *. set (m := Luxon.month c) in *.
  set (day := Luxon.day c) in *.
  pose proof (daysInMonth_bounds y m) as Hb.
  destruct (walkBack y m (Some target) (Z.to_nat (Luxon.daysInMonth y m - 1)))
    as [testDay currentDow] eqn:Hw.
  apply walkBack_stops in Hw. destruct Hw as [Hdow [Hrange [Hall Hone]]].
  rewrite Z2Nat.id in Hrange, Hall by lia.
  replace (Luxon.daysInMonth y m - 1 + 1) with (Luxon.daysInMonth y m) in * by lia.
  (* the walk finds the target within the last seven days *)
  assert (Hfound : currentDow = target /\ Luxon.daysInMonth y m - 7 < testDay).
  { pose proof (dowOf_base y m) as Hbase.
    set (base := Luxon.daysInMonth y m) in *.
    set (k := (target - (Luxon.daysFromCivil y m 0 + 4 + base - 6)) mod 7).
    assert (Hk : 0 <= k < 7) by (apply Z.mod_pos_bound; lia).
    assert (Hlate : dowOf y m (base - 6 + k) = target).
    { rewrite Hbase. subst k. Z.div_mod_to_equations. lia. }
    assert (Hge : base - 6 + k <= testDay).
    { destruct (Z_le_gt_dec (base - 6 + k) testDay); [assumption |].
      exfalso. apply (Hall (base - 6 + k)); [lia | assumption]. }
    split; [| lia].
    destruct (Z.eq_dec currentDow target) as [| Hne]; [assumption |].
    specialize (Hone Hne). lia. }
  destruct Hfound as [-> Hlate]. unfold sameDow. rewrite Z.eqb_refl, andb_true_r.
  rewrite Z.eqb_eq. split.
  - intros ->. split; [exact Hday |]. split; [now symmetry | lia].
  - intros [_ [Hd Hl]].
    destruct (Z.lt_trichotomy day testDay) as [Hlt | [Heq | Hgt]]; [| assumption |].
    + exfalso. pose proof (dowOf_base y m day) as H1.
      pose proof (dowOf_base y m testDay) as H2.
      rewrite Hd in H1. rewrite <- Hdow in H2. destruct Hday as [_ Hday].
      fold y m day in Hday. revert H1 H2. Z.div_mod_to_equations. lia.
    + exfalso. destruct Hday as [_ Hday]. fold y m day in Hday.
      apply (Hall day); [lia | assumption].
Qed.

Lemma NthOccurrence_unique (y m target n d d' : Z) :
  NthOccurrence y m target n d -> NthOccurrence y m target n d' -> d = d'.
Proof.
  intros [_ [Hd Hr]] [_ [Hd' Hr']].
  rewrite dowOf_base in Hd, Hd'. rewrite <- Hd' in Hd.
  revert Hd. Z.div_mod_to_equations. lia.
Qed.

Lemma LastOccurrence_unique (y m target d d' : Z) :
  LastOccurrence y m target d -> LastOccurrence y m target d' -> d = d'.
Proof.
  intros [[_ Hday] [Hd Hr]] [[_ Hday'] [Hd' Hr']].
  rewrite dowOf_base in Hd, Hd'. rewrite <- Hd' in Hd.
  revert Hd. Z.div_mod_to_equations. lia.
Qed.

Lemma LastOccurrence_exists (y m target : Z) :
  1 <= m <= 12 -> 0 <= target <= 6 -> exists d, LastOccurrence y m target d.
Proof.
  intros Hm Ht. pose proof (daysInMonth_bounds y m) as Hb.
  set (ldom := Luxon.daysInMonth y m) in *.
  set (k := (target - (Luxon.daysFromCivil y m 0 + 4 + ldom - 6)) mod 7).
  assert (Hk : 0 <= k < 7) by (apply Z.mod_pos_bound; lia).
  exists (ldom - 6 + k). unfold LastOccurrence, isDayOf. fold ldom.
  split; [lia |]. split; [| lia].
  rewrite dowOf_base. subst k. Z.div_mod_to_equations. lia.
Qed.

Lemma byDayOfWeek_nth (p : CronParser) (target n : Z) :
  NthDayOfWeek p target n ->
  (negb (isEmpty (values (daysOfWeek p)))
   || truthy (DayOfWeekModifiers.nthDay (dayOfWeekModifiers p))
   || DayOfWeekModifiers.lastDay (dayOfWeekModifiers p)) = true.
Proof.
  intros [Ht Hn Hs]. rewrite Hn. cbn [truthy].
  destruct (Z.eqb_spec n 0); [contradiction |]. cbn [negb].
  now rewrite orb_true_r.
Qed.

Lemma byDayOfWeek_last (p : CronParser) (target : Z) :
  LastDayOfWeek p target ->
  (negb (isEmpty (values (daysOfWeek p)))
   || truthy (DayOfWeekModifiers.nthDay (dayOfWeekModifiers p))
   || DayOfWeekModifiers.lastDay (dayOfWeekModifiers p)) = true.
Proof. intros [Ht Hr Hn Hf]. rewrite Hf. now rewrite orb_true_r. Qed.

(** Under [target#n] the day set of a month holds the [n]-th day of the
    month that falls on [target] and nothing else: at most one day, and
    none when the month has no such day. *)
(** The days of a month under [target#n]: the [n]-th day of the month that
    falls on [target], when the month has one, and no day otherwise. *)
Theorem nth_day_of_week_days (p : CronParser) (target n y m : Z) :
  ByDayOfWeek p ->
  NthDayOfWeek p target n ->
  1 <= m <= 12 ->
  (forall d, In d (getDayOfMonthSet p y m) <-> NthOccurrence y m target n d)
  /\ (forall d d', In d (getDayOfMonthSet p y m) -> In d' (getDayOfMonthSet p y m) ->
                   d = d').
Proof.
  intros Hb Hn Hm.
  assert (Hiff : forall d, In d (getDayOfMonthSet p y m) <-> NthOccurrence y m target n d).
  { intros d.
    rewrite (getDayOfMonthSet_byDayOfWeek p y m d Hb Hm (byDayOfWeek_nth p target n Hn)).
    split.
    - intros [Hday Hs].
      apply (isDayOfWeekSatisfied_nth p target n _ Hn) in Hs; assumption.
    - intros Ho. split; [apply Ho |].
      apply (isDayOfWeekSatisfied_nth p target n
               (Luxon.mkCivil y m d 0 0 0) Hn); [apply Ho | exact Ho]. }
  split; [exact Hiff |].
  intros d d' Hd Hd'. apply Hiff in Hd, Hd'. eapply NthOccurrence_unique; eassumption.
Qed.

Example secondMondaySchedule_parsed (now : Z) :
  newCronParser now parseFuel "0 0 0 ? * MON#2" 0 = Ok secondMondaySchedule.
Proof. reflexivity. Qed.

(** September 2025. *)
Lemma nth_day_of_week_days_witness :
  (forall d, In d (getDayOfMonthSet secondMondaySchedule 2025 9)
             <-> NthOccurrence 2025 9 1 2 d)
  /\ (forall d d', In d (getDayOfMonthSet secondMondaySchedule 2025 9) ->
                   In d' (getDayOfMonthSet secondMondaySchedule 2025 9) -> d = d').
Proof.
  apply (nth_day_of_week_days secondMondaySchedule 1 2 2025 9).
  - constructor; reflexivity.
  - constructor; [reflexivity | reflexivity | lia].
  - lia.
Defined.

(** Under [targetL] the day set of a month is one day: the last day of the
    month that falls on [target]. *)
(** The days of a month under [targetL]: the last day of the month that
    falls on [target], and only that one. *)
Theorem last_day_of_week_days (p : CronParser) (target y m : Z) :
  ByDayOfWeek p ->
  LastDayOfWeek p target ->
  1 <= m <= 12 ->
  exists r,
    getDayOfMonthSet p y m = [r] /\ LastOccurrence y m target r.
Proof.
  intros Hb Hl Hm.
  assert (Hiff : forall d, In d (getDayOfMonthSet p y m) <-> LastOccurrence y m target d).
  { intros d.
    rewrite (getDayOfMonthSet_byDayOfWeek p y m d Hb Hm (byDayOfWeek_last p target Hl)).
    split.
    - intros [Hday Hs].
      apply (isDayOfWeekSatisfied_last p target _ Hl) in Hs; assumption.
    - intros Ho. split; [apply Ho |].
      apply (isDayOfWeekSatisfied_last p target
               (Luxon.mkCivil y m d 0 0 0) Hl); [apply Ho | exact Ho]. }
  destruct (LastOccurrence_exists y m target Hm (ld_range p target Hl)) as [r Hr].
  exists r. split; [| exact Hr].
  assert (Hasc : strictlyAscending (getDayOfMonthSet p y m)).
  { unfold getDayOfMonthSet. destruct Hb as [Hv Hld Hlw Hnw]. rewrite Hld, Hlw, Hnw, Hv.
    destruct (Luxon.daysInMonthOf y m); [| constructor]. cbv zeta. cbn [isEmpty].
    destruct (_ || _); [apply filter_strictlyAscending |]; apply arrayFrom_ascending. }
  destruct (getDayOfMonthSet p y m) as [| a l] eqn:Hset.
  - exfalso. apply (proj2 (Hiff r)) in Hr. exact Hr.
  - assert (Ha : a = r).
    { eapply LastOccurrence_unique; [| exact Hr]. apply Hiff. now left. }
    subst a. destruct l as [| b l]; [reflexivity |]. exfalso.
    assert (Hbr : b = r).
    { eapply LastOccurrence_unique; [| exact Hr]. apply Hiff. right. now left. }
    subst b. apply ascending_NoDup in Hasc. inversion Hasc as [| ? ? Hnin _].
    apply Hnin. now left.
Qed.

Example lastFridaySchedule_parsed (now : Z) :
  newCronParser now parseFuel "0 0 0 ? * 5L" 0 = Ok lastFridaySchedule.
Proof. reflexivity. Qed.

(** September 2025. *)
Lemma last_day_of_week_days_witness :
  exists r,
    getDayOfMonthSet lastFridaySchedule 2025 9 = [r]
    /\ LastOccurrence 2025 9 5 r.
Proof.
  apply (last_day_of_week_days lastFridaySchedule 5 2025 9).
  - constructor; reflexivity.
  - constructor; [reflexivity | lia | reflexivity | reflexivity].
  - lia.
Defined.

(** ** The value picked on an ascending list *)

(** On a non-empty ascending list [getNextValue] answers the least element
    that is at least [val], and the first element when every element is
    below [val]; [getPreviousValue] answers the greatest element that is at
    most [val], and the last element when every element is above [val]. *)
Theorem value_pick_on_ascending (vals : list Z) (val : Z) :
  ascending vals -> vals <> [] ->
  (exists x, getNextValue vals val = Some x /\ In x vals
             /\ ((val <= x /\ forall y, In y vals -> val <= y -> x <= y)
                 \/ ((forall y, In y vals -> y < val) /\ hd_error vals = Some x)))
  /\ (exists x, getPreviousValue vals val = Some x /\ In x vals
                /\ ((x <= val /\ forall y, In y vals -> y <= val -> y <= x)
                    \/ ((forall y, In y vals -> val < y)
                        /\ hd_error (rev vals) = Some x))).
Proof.
  intros Hs Hne. split.
  - destruct (getNextValue vals val) as [x |] eqn:Hx.
    + exists x. split; [reflexivity |]. split; [eapply getNextValue_In; exact Hx |].
      eapply getNextValue_ascending; eassumption.
    + exfalso. eapply getNextValue_defined; eassumption.
  - destruct (getPreviousValue vals val) as [x |] eqn:Hx.
    + exists x. split; [reflexivity |]. split; [eapply getPreviousValue_In; exact Hx |].
      eapply getPreviousValue_ascending; eassumption.
    + exfalso. eapply getPreviousValue_defined; eassumption.
Qed.

Lemma value_pick_on_ascending_witness :
  (exists x, getNextValue [1; 5; 9] 6 = Some x /\ In x [1; 5; 9]
             /\ ((6 <= x /\ forall y, In y [1; 5; 9] -> 6 <= y -> x <= y)
                 \/ ((forall y, In y [1; 5; 9] -> y < 6)
                     /\ hd_error [1; 5; 9] = Some x)))
  /\ (exists x, getPreviousValue [1; 5; 9] 6 = Some x /\ In x [1; 5; 9]
                /\ ((x <= 6 /\ forall y, In y [1; 5; 9] -> y <= 6 -> y <= x)
                    \/ ((forall y, In y [1; 5; 9] -> 6 < y)
                        /\ hd_error (rev [1; 5; 9]) = Some x))).
Proof.
  apply (value_pick_on_ascending [1; 5; 9] 6).
  - repeat constructor; lia.
  - discriminate.
Defined.

(** ** The calendar conversions are inverse to each other *)

Lemma isLeapYear_spec (y : Z) :
  Luxon.isLeapYear y = true <-> (y mod 4 = 0 /\ (y mod 100 <> 0 \/ y mod 400 = 0)).
Proof.
  unfold Luxon.isLeapYear.
  rewrite andb_true_iff, orb_true_iff, negb_true_iff, !Z.eqb_eq, Z.eqb_neq. tauto.
Qed.

Lemma daysFromCivil_civilFromDays (z : Z) :
  let '(y, m, d) := Luxon.civilFromDays z in Luxon.daysFromCivil y m d = z.
Proof.
  unfold Luxon.civilFromDays, Luxon.daysFromCivil. cbv zeta.
  set (z' := z + 719468).
  set (era := z' / 146097).
  set (doe := z' - era * 146097).
  assert (Hdoe : 0 <= doe < 146097).
  { subst doe era. pose proof (Z.mod_pos_bound z' 146097 ltac:(lia)).
    rewrite Z.mod_eq in H by lia. lia. }
  set (yoe := (doe - doe / 1460 + doe / 36524 - doe / 146096) / 365).
  assert (Hyoe : 0 <= yoe <= 399).
  { subst yoe. Z.div_mod_to_equations. lia. }
  set (doy := doe - (365 * yoe + yoe / 4 - yoe / 100)).
  assert (Hdoy : 0 <= doy <= 365).
  { subst doy yoe. Z.div_mod_to_equations. lia. }
  set (mp := (5 * doy + 2) / 153).
  assert (Hmp : 0 <= mp <= 11).
  { subst mp. Z.div_mod_to_equations. lia. }
  destruct (Z.ltb_spec mp 10) as [H10 | H10].
  - destruct (Z.leb_spec (mp + 3) 2); [lia |].
    destruct (Z.gtb_spec (mp + 3) 2); [| lia].
    replace ((yoe + era * 400) / 400) with era by (Z.div_mod_to_equations; lia).
    replace (yoe + era * 400 - era * 400) with yoe by lia.
    replace (mp + 3 - 3) with mp by lia.
    subst doy. lia.
  - destruct (Z.leb_spec (mp - 9) 2); [| lia].
    destruct (Z.gtb_spec (mp - 9) 2); [lia |].
    replace (yoe + era * 400 + 1 - 1) with (yoe + era * 400) by lia.
    replace ((yoe + era * 400) / 400) with era by (Z.div_mod_to_equations; lia).
    replace (yoe + era * 400 - era * 400) with yoe by lia.
    replace (mp - 9 + 9) with mp by lia.
    subst doy. lia.
Qed.

Lemma civilFromDays_valid (z : Z) :
  let '(y, m, d) := Luxon.civilFromDays z in
  1 <= m <= 12 /\ 1 <= d <= Luxon.daysInMonth y m.
Proof.
  unfold Luxon.civilFromDays. cbv zeta.
  set (z' := z + 719468).
  set (era := z' / 146097).
  set (doe := z' - era * 146097).
  assert (Hdoe : 0 <= doe < 146097).
  { subst doe era. pose proof (Z.mod_pos_bound z' 146097 ltac:(lia)).
    rewrite Z.mod_eq in H by lia. lia. }
  set (yoe := (doe - doe / 1460 + doe / 36524 - doe / 146096) / 365).
  assert (Hyoe : 0 <= yoe <= 399).
  { subst yoe. Z.div_mod_to_equations. lia. }
  set (doy := doe - (365 * yoe + yoe / 4 - yoe / 100)).
  assert (Hdoy : 0 <= doy <= 365).
  { subst doy yoe. Z.div_mod_to_equations. lia. }
  assert (Hleap : doy = 365 -> yoe mod 4 = 3 /\ (yoe mod 100 <> 99 \/ yoe = 399)).
  { subst doy yoe. Z.div_mod_to_equations. lia. }
  clearbody doy yoe. clear Hdoe. clearbody era. clear z z' doe.
  set (mp := (5 * doy + 2) / 153).
  assert (Hmp : 0 <= mp <= 11).
  { subst mp. Z.div_mod_to_equations. lia. }
  split.
  - destruct (Z.ltb_spec mp 10); lia.
  - unfold Luxon.daysInMonth.
    assert (Hfeb : doy = 365 -> Luxon.isLeapYear (yoe + era * 400 + 1) = true).
    { intros H365. destruct (Hleap H365) as [H4 H100].
      apply isLeapYear_spec. revert H4 H100. Z.div_mod_to_equations. lia. }
    destruct (Z.ltb_spec mp 10) as [H10 | H10].
    + destruct (Z.leb_spec (mp + 3) 2); [lia |].
      destruct (Z.eqb_spec (mp + 3) 2); [lia |].
      destruct (Z.eqb_spec (mp + 3) 4); destruct (Z.eqb_spec (mp + 3) 6);
        destruct (Z.eqb_spec (mp + 3) 9); destruct (Z.eqb_spec (mp + 3) 11);
        cbn [orb]; subst mp; Z.div_mod_to_equations; lia.
    + destruct (Z.leb_spec (mp - 9) 2); [| lia].
      destruct (Z.eqb_spec (mp - 9) 2).
      * destruct (Luxon.isLeapYear (yoe + era * 400 + 1)) eqn:Hl.
        -- subst mp. Z.div_mod_to_equations. lia.
        -- assert (doy <> 365) by (intros H365; specialize (Hfeb H365); congruence).
           subst mp. Z.div_mod_to_equations. lia.
      * destruct (Z.eqb_spec (mp - 9) 4); destruct (Z.eqb_spec (mp - 9) 6);
          destruct (Z.eqb_spec (mp - 9) 9); destruct (Z.eqb_spec (mp - 9) 11);
          cbn [orb]; subst mp; Z.div_mod_to_equations; lia.
Qed.

Lemma civilFromDays_daysFromCivil (y m d : Z) :
  1 <= m <= 12 -> 1 <= d <= Luxon.daysInMonth y m ->
  Luxon.civilFromDays (Luxon.daysFromCivil y m d) = (y, m, d).
Proof.
  intros Hm Hd. unfold Luxon.daysFromCivil. cbv zeta.
  set (y' := if m <=? 2 then y - 1 else y).
  set (era := y' / 400).
  set (yoe := y' - era * 400).
  assert (Hyoe : 0 <= yoe <= 399).
  { subst yoe era. Z.div_mod_to_equations. lia. }
  set (mp := if m >? 2 then m - 3 else m + 9).
  assert (Hmp : 0 <= mp <= 11 /\ (m = if mp <? 10 then mp + 3 else mp - 9)).
  { subst mp. destruct (Z.gtb_spec m 2).
    - destruct (Z.ltb_spec (m - 3) 10); lia.
    - destruct (Z.ltb_spec (m + 9) 10); lia. }
  set (doy := (153 * mp + 2) / 5 + d - 1).
  assert (Hleap : m <= 2 -> Luxon.isLeapYear y = true ->
                  yoe mod 4 = 3 /\ (yoe mod 100 <> 99 \/ yoe = 399)).
  { intros Hm2 Hl. apply isLeapYear_spec in Hl. subst yoe era y'.
    destruct (Z.leb_spec m 2); [| lia].
    revert Hl. Z.div_mod_to_equations. lia. }
  assert (Hdoy : (153 * mp + 2) / 5 <= doy < (153 * (mp + 1) + 2) / 5
                 /\ 0 <= doy <= 365
                 /\ (doy = 365 -> yoe mod 4 = 3 /\ (yoe mod 100 <> 99 \/ yoe = 399))).
  { unfold Luxon.daysInMonth in Hd.
    assert (Hc : mp = 0 \/ mp = 1 \/ mp = 2 \/ mp = 3 \/ mp = 4 \/ mp = 5 \/ mp = 6
                 \/ mp = 7 \/ mp = 8 \/ mp = 9 \/ mp = 10 \/ mp = 11) by lia.
    destruct Hmp as [_ Hmm].
    destruct Hc as [E | [E | [E | [E | [E | [E | [E | [E | [E | [E | [E | E]]]]]]]]]]];
      subst doy; rewrite E in *; simpl in Hmm; subst m; simpl in Hd;
      try (change ((153 * 0 + 2) / 5) with 0; change ((153 * (0 + 1) + 2) / 5) with 31);
      try (change ((153 * 1 + 2) / 5) with 31; change ((153 * (1 + 1) + 2) / 5) with 61);
      try (change ((153 * 2 + 2) / 5) with 61; change ((153 * (2 + 1) + 2) / 5) with 92);
      try (change ((153 * 3 + 2) / 5) with 92; change ((153 * (3 + 1) + 2) / 5) with 122);
      try (change ((153 * 4 + 2) / 5) with 122; change ((153 * (4 + 1) + 2) / 5) with 153);
      try (change ((153 * 5 + 2) / 5) with 153; change ((153 * (5 + 1) + 2) / 5) with 184);
      try (change ((153 * 6 + 2) / 5) with 184; change ((153 * (6 + 1) + 2) / 5) with 214);
      try (change ((153 * 7 + 2) / 5) with 214; change ((153 * (7 + 1) + 2) / 5) with 245);
      try (change ((153 * 8 + 2) / 5) with 245; change ((153 * (8 + 1) + 2) / 5) with 275);
      try (change ((153 * 9 + 2) / 5) with 275; change ((153 * (9 + 1) + 2) / 5) with 306);
      try (change ((153 * 10 + 2) / 5) with 306; change ((153 * (10 + 1) + 2) / 5) with 337);
      try (change ((153 * 11 + 2) / 5) with 337; change ((153 * (11 + 1) + 2) / 5) with 367);
      try lia.
    destruct (Luxon.isLeapYear y) eqn:Hl.
    - specialize (Hleap ltac:(lia) eq_refl). lia.
    - lia. }
  destruct Hdoy as [Hdoy1 [Hdoy2 Hdoy3]].
  set (doe := yoe * 365 + yoe / 4 - yoe / 100 + doy).
  assert (Hdoe : 0 <= doe < 146097).
  { subst doe. Z.div_mod_to_equations. lia. }
  unfold Luxon.civilFromDays. cbv zeta.
  replace (era * 146097 + doe - 719468 + 719468) with (doe + era * 146097) by lia.
  replace ((doe + era * 146097) / 146097) with era
    by (rewrite Z.div_add by lia; rewrite Z.div_small by lia; lia).
  replace (doe + era * 146097 - era * 146097) with doe by lia.
  assert (Hyoe' : (doe - doe / 1460 + doe / 36524 - doe / 146096) / 365 = yoe).
  { subst doe. clearbody doy yoe. Z.div_mod_to_equations. lia. }
  rewrite Hyoe'.
  replace (doe - (365 * yoe + yoe / 4 - yoe / 100)) with doy by (subst doe; lia).
  assert (Hmp' : (5 * doy + 2) / 153 = mp).
  { clearbody mp. clear Hleap Hdoy3. clearbody doy. Z.div_mod_to_equations. lia. }
  rewrite Hmp'.
  destruct Hmp as [Hmpr Hmm]. rewrite <- Hmm.
  replace (doy - (153 * mp + 2) / 5 + 1) with d by (subst doy; lia).
  replace (yoe + era * 400) with y' by (subst yoe; lia).
  subst y'. destruct (Z.leb_spec m 2); f_equal; f_equal; lia.
Qed.

Lemma ofLocalSeconds_toLocalSeconds (t : Z) :
  Luxon.toLocalSeconds (Luxon.ofLocalSeconds t) = t.
Proof.
  unfold Luxon.ofLocalSeconds, Luxon.toLocalSeconds.
  pose proof (daysFromCivil_civilFromDays (t / 86400)) as H.
  destruct (Luxon.civilFromDays (t / 86400)) as [[y m] d]. cbn [Luxon.year Luxon.month Luxon.day Luxon.hour Luxon.minute Luxon.second].
  rewrite H. Z.div_mod_to_equations. lia.
Qed.

Lemma toUnixInteger_fromSeconds (offset t : Z) :
  Luxon.toUnixInteger offset (Luxon.fromSeconds offset t) = t.
Proof.
  unfold Luxon.toUnixInteger, Luxon.fromSeconds.
  rewrite ofLocalSeconds_toLocalSeconds. lia.
Qed.

Lemma ofLocalSeconds_isCivil (t : Z) : isCivil (Luxon.ofLocalSeconds t).
Proof.
  unfold Luxon.ofLocalSeconds, isCivil, isDayOf.
  pose proof (civilFromDays_valid (t / 86400)) as H.
  destruct (Luxon.civilFromDays (t / 86400)) as [[y m] d].
  cbn [Luxon.year Luxon.month Luxon.day Luxon.hour Luxon.minute Luxon.second].
  split; [exact H |]. Z.div_mod_to_equations. lia.
Qed.

Lemma ofLocalSeconds_of_civil (c : Luxon.Civil) :
  isCivil c -> Luxon.ofLocalSeconds (Luxon.toLocalSeconds c) = c.
Proof.
  destruct c as [y m d h mi s]. unfold isCivil, isDayOf.
  cbn [Luxon.year Luxon.month Luxon.day Luxon.hour Luxon.minute Luxon.second].
  intros [[Hm Hd] [Hh [Hmi Hs]]].
  unfold Luxon.ofLocalSeconds, Luxon.toLocalSeconds.
  cbn [Luxon.year Luxon.month Luxon.day Luxon.hour Luxon.minute Luxon.second].
  set (z := Luxon.daysFromCivil y m d).
  assert (Hq : (z * 86400 + h * 3600 + mi * 60 + s) / 86400 = z)
    by (Z.div_mod_to_equations; lia).
  assert (Hr : (z * 86400 + h * 3600 + mi * 60 + s) mod 86400 = h * 3600 + mi * 60 + s)
    by (Z.div_mod_to_equations; lia).
  rewrite Hq, Hr. subst z. rewrite civilFromDays_daysFromCivil by assumption.
  f_equal; Z.div_mod_to_equations; lia.
Qed.

Lemma fromSeconds_toUnixInteger (offset : Z) (c : Luxon.Civil) :
  isCivil c -> Luxon.fromSeconds offset (Luxon.toUnixInteger offset c) = c.
Proof.
  intros H. unfold Luxon.fromSeconds, Luxon.toUnixInteger.
  replace (Luxon.toLocalSeconds c - offset + offset) with (Luxon.toLocalSeconds c) by lia.
  now apply ofLocalSeconds_of_civil.
Qed.

Lemma fromObject_isCivil (y m d h mi s : Z) (c : Luxon.Civil) :
  Luxon.fromObject y m d h mi s = Luxon.Valid c -> isCivil c.
Proof.
  unfold Luxon.fromObject.
  destruct (Luxon.inRange 1 12 m) eqn:Hm; [| discriminate].
  destruct (Luxon.inRange 1 (Luxon.daysInMonth y m) d) eqn:Hd; [| discriminate].
  destruct (Luxon.inRange 0 59 mi) eqn:Hmi; [| discriminate].
  destruct (Luxon.inRange 0 59 s) eqn:Hs; [| discriminate].
  cbn [andb]. apply inRange_true in Hm, Hd, Hmi, Hs.
  destruct (Luxon.inRange 0 23 h) eqn:Hh.
  - apply inRange_true in Hh. intros H. inversion H; subst c.
    unfold isCivil, isDayOf. cbn. tauto.
  - destruct (_ && _); [| discriminate]. intros H. inversion H; subst c.
    apply ofLocalSeconds_isCivil.
Qed.

Lemma fromObject_units (y m d h mi s : Z) (c : Luxon.Civil) :
  Luxon.fromObject y m d h mi s = Luxon.Valid c -> 0 <= h <= 23 ->
  c = Luxon.mkCivil y m d h mi s.
Proof.
  unfold Luxon.fromObject. intros H Hh.
  rewrite (proj2 (inRange_true 0 23 h) Hh) in H.
  destruct (_ && _) in H; [| discriminate]. now inversion H.
Qed.

Lemma fromObject_valid (y m d h mi s : Z) :
  isDayOf y m d -> 0 <= h <= 23 -> 0 <= mi <= 59 -> 0 <= s <= 59 ->
  Luxon.fromObject y m d h mi s = Luxon.Valid (Luxon.mkCivil y m d h mi s).
Proof.
  intros [Hm Hd] Hh Hmi Hs. unfold Luxon.fromObject.
  rewrite (proj2 (inRange_true 1 12 m) Hm), (proj2 (inRange_true _ _ d) Hd),
    (proj2 (inRange_true 0 59 mi) Hmi), (proj2 (inRange_true 0 59 s) Hs),
    (proj2 (inRange_true 0 23 h) Hh).
  reflexivity.
Qed.

Lemma civil_eta (c : Luxon.Civil) :
  c = Luxon.mkCivil (Luxon.year c) (Luxon.month c) (Luxon.day c)
                    (Luxon.hour c) (Luxon.minute c) (Luxon.second c).
Proof. now destruct c. Qed.

Lemma toUnixInteger_second (offset y m d h mi s s' : Z) :
  Luxon.toUnixInteger offset (Luxon.mkCivil y m d h mi s')
  = Luxon.toUnixInteger offset (Luxon.mkCivil y m d h mi s) - s + s'.
Proof. unfold Luxon.toUnixInteger, Luxon.toLocalSeconds. simpl. lia. Qed.

Lemma plusSeconds_fromSeconds (offset t n : Z) :
  Luxon.plusSeconds (Luxon.Valid (Luxon.fromSeconds offset t)) n
  = Luxon.Valid (Luxon.fromSeconds offset (t + n)).
Proof.
  unfold Luxon.plusSeconds, Luxon.fromSeconds.
  rewrite ofLocalSeconds_toLocalSeconds. do 2 f_equal. lia.
Qed.

(** ** A search that starts at a fire time *)

Lemma getNextValue_member (vals : list Z) (v : Z) :
  ascending vals -> In v vals -> getNextValue vals v = Some v.
Proof.
  intros Hs Hin.
  destruct (getNextValue vals v) as [x |] eqn:Hx.
  - destruct (getNextValue_ascending _ _ _ Hs Hx) as [[Hle Hmin] | [Hall _]].
    + specialize (Hmin v Hin). f_equal. lia.
    + specialize (Hall v Hin). lia.
  - exfalso. eapply getNextValue_defined; [| exact Hx]. intros ->. contradiction.
Qed.

Lemma getPreviousValue_member (vals : list Z) (v : Z) :
  ascending vals -> In v vals -> getPreviousValue vals v = Some v.
Proof.
  intros Hs Hin.
  destruct (getPreviousValue vals v) as [x |] eqn:Hx.
  - destruct (getPreviousValue_ascending _ _ _ Hs Hx) as [[Hle Hmax] | [Hall _]].
    + specialize (Hmax v Hin). f_equal. lia.
    + specialize (Hall v Hin). lia.
  - exfalso. eapply getPreviousValue_defined; [| exact Hx]. intros ->. contradiction.
Qed.

Lemma valuesOr_ascending (f : CronField) (n lo : Z) :
  strictlyAscending (values f) -> ascending (valuesOr f n lo).
Proof.
  intros H. unfold valuesOr. apply strictlyAscending_ascending.
  destruct (isEmpty (values f)); [apply arrayFrom_ascending | assumption].
Qed.

Lemma valuesOr_member (f : CronField) (n lo x : Z) :
  fieldAdmits f x = true -> lo <= x < lo + n -> In x (valuesOr f n lo).
Proof.
  unfold fieldAdmits, valuesOr. intros H Hx.
  destruct (isEmpty (values f)).
  - now apply In_arrayFrom.
  - now apply includes_In.
Qed.

Lemma valuesOr_In (f : CronField) (n lo hi x : Z) :
  within lo hi (values f) -> lo + n - 1 <= hi ->
  In x (valuesOr f n lo) -> fieldAdmits f x = true /\ lo <= x <= hi.
Proof.
  unfold fieldAdmits, valuesOr. intros Hw Hn Hx.
  destruct (values f) as [| v vs] eqn:Hv; cbn [isEmpty] in *.
  - apply In_arrayFrom in Hx. split; [reflexivity | lia].
  - split; [now apply includes_In |]. rewrite within_In in Hw. now apply Hw.
Qed.

Lemma accepted_within (f : CronField) (lo hi x : Z) :
  fieldFilled lo hi f -> fieldAdmits f x = true -> lo <= x <= hi.
Proof.
  intros [Hne [_ Hw]] H. unfold fieldAdmits in H.
  destruct (values f) as [| v vs] eqn:Hv; [congruence |]. cbn [isEmpty orb] in H.
  apply includes_In in H. rewrite within_In in Hw. now apply Hw.
Qed.

(** The year of a fire time of a well-formed schedule is a candidate of the
    year step whenever it lies in 1970..2099. *)
Lemma year_candidate (p : CronParser) (y : Z) :
  fieldAdmits (years p) y = true -> 1970 <= y <= 2099 ->
  In y (nextYearValues p) /\ In y (prevYearValues p)
  /\ minYearOf p <= y <= maxYearOf p.
Proof.
  intros Ha Hy. unfold nextYearValues, prevYearValues.
  destruct (year_limits p) as [Hempty Hfull].
  destruct (values (years p)) as [| v vs] eqn:Hv.
  - destruct (Hempty eq_refl) as [Hmax Hmin]. rewrite Hmax, Hmin.
    unfold valuesOr. rewrite Hv. cbn [isEmpty].
    repeat split; try lia; apply In_arrayFrom; lia.
  - destruct (Hfull ltac:(discriminate)) as [_ [_ Hall]].
    unfold fieldAdmits in Ha. rewrite Hv in Ha. cbn [isEmpty orb] in Ha.
    apply includes_In in Ha. unfold valuesOr. rewrite Hv. cbn [isEmpty].
    split; [assumption |]. split; [assumption |]. now apply Hall.
Qed.

Lemma isMatch_second (p : CronParser) (y m d h mi s s' : Z) :
  isMatch p (Luxon.Valid (Luxon.mkCivil y m d h mi s)) = true ->
  fieldAdmits (seconds p) s' = true ->
  isMatch p (Luxon.Valid (Luxon.mkCivil y m d h mi s')) = true.
Proof.
  unfold isMatch. cbn [Luxon.year Luxon.month Luxon.day Luxon.hour Luxon.minute Luxon.second].
  change (isDayOfWeekSatisfied p (Luxon.Valid (Luxon.mkCivil y m d h mi s')))
    with (isDayOfWeekSatisfied p (Luxon.Valid (Luxon.mkCivil y m d h mi s))).
  intros H Hs. rewrite Hs. cbn [negb].
  repeat match type of H with
         | (if negb ?b then _ else _) = true =>
           destruct b; cbn [negb] in H |- *; [| discriminate]
         end.
  reflexivity.
Qed.

Lemma In_not_isEmpty (x : Z) (l : list Z) : In x l -> isEmpty l = false.
Proof. destruct l; [intros [] | reflexivity]. Qed.

Section FromAFireTime.
Variable p : CronParser.
Hypothesis Hwf : WellFormed p.
Hypothesis Hoff : lastDayOffsetCounted p.
Variables y m d h mi s : Z.
Hypothesis Hyear : 1970 <= y <= 2099.
Hypothesis Hmatch : isMatch p (Luxon.Valid (Luxon.mkCivil y m d h mi s)) = true.

Lemma fire_time_units :
  In y (nextYearValues p) /\ In y (prevYearValues p) /\ minYearOf p <= y <= maxYearOf p
  /\ In m (monthValues p)
  /\ In d (getDayOfMonthSet p y m) /\ isDayOf y m d
  /\ In h (hourValues p) /\ 0 <= h <= 23
  /\ In mi (minuteValues p) /\ 0 <= mi <= 59
  /\ In s (secondValues p) /\ 0 <= s <= 59.
Proof.
  destruct (proj1 (isMatch_Satisfies _ _) Hmatch) as [Sy Sm Sd Sw Sh Smi Ss].
  cbn [Luxon.year Luxon.month Luxon.day Luxon.hour Luxon.minute Luxon.second] in *.
  destruct Hwf as [Ws Wmi Wh Wmo Wd Ww Wy Wn].
  destruct (year_candidate p y Sy Hyear) as [Hy1 [Hy2 Hy3]].
  pose proof (accepted_within _ _ _ _ Wmo Sm) as Hm.
  pose proof (accepted_within _ _ _ _ Wh Sh) as Hh.
  pose proof (accepted_within _ _ _ _ Wmi Smi) as Hmi.
  pose proof (accepted_within _ _ _ _ Ws Ss) as Hs.
  destruct (getDayOfMonthSet_days p y m Wd Hoff) as [_ Hdays].
  repeat split; try assumption; try lia; try (now apply Hdays);
    try (apply valuesOr_member; [assumption | lia]).
Qed.

(** One pass of the forward loop from a fire time: the candidate is the
    same minute, at the second [getNextValue] picks. *)
Lemma nextBody_from_fire_time :
  exists s',
    getNextValue (secondValues p) (s + 1) = Some s'
    /\ nextBody p (Luxon.mkCivil y m d h mi s) = Found (Luxon.mkCivil y m d h mi s').
Proof.
  destruct fire_time_units
    as [Hy [_ [_ [Hm [Hd [Hday [Hh [Hhr [Hmi [Hmir [Hs Hsr]]]]]]]]]]].
  destruct Hwf as [Ws Wmi Wh Wmo Wd Ww Wy Wn].
  destruct (getNextValue (secondValues p) (s + 1)) as [s' |] eqn:Hs'.
  2: { exfalso. eapply getNextValue_defined; [apply secondValues_nonempty | exact Hs']. }
  exists s'. split; [reflexivity |].
  assert (Hs'in : fieldAdmits (seconds p) s' = true /\ 0 <= s' <= 59).
  { apply getNextValue_In in Hs'. apply (valuesOr_In (seconds p) 60 0 59 s'); [apply Ws | lia | exact Hs']. }
  unfold nextBody.
  cbn [Luxon.year Luxon.month Luxon.day Luxon.hour Luxon.minute Luxon.second].
  rewrite (getNextValue_member (nextYearValues p) y)
    by (try assumption; apply valuesOr_ascending, Wy).
  cbv zeta. rewrite Z.eqb_refl. cbn [negb].
  rewrite (getNextValue_member (monthValues p) m)
    by (try assumption; apply valuesOr_ascending, Wmo).
  rewrite Z.eqb_refl. cbn [negb orb].
  rewrite (In_not_isEmpty _ _ Hd).
  rewrite (getNextValue_member (getDayOfMonthSet p y m) d)
    by (try assumption; apply strictlyAscending_ascending, getDayOfMonthSet_days;
        assumption).
  rewrite Z.eqb_refl. cbn [negb orb].
  rewrite (getNextValue_member (hourValues p) h)
    by (try assumption; apply valuesOr_ascending, Wh).
  cbn [nullish]. rewrite Z.eqb_refl. cbn [negb orb].
  rewrite (getNextValue_member (minuteValues p) mi)
    by (try assumption; apply valuesOr_ascending, Wmi).
  cbn [nullish]. rewrite Z.eqb_refl. cbn [negb orb].
  rewrite Hs'. cbn [nullish].
  rewrite fromObject_valid by (try assumption; lia).
  unfold checkCandidate. rewrite (isMatch_second p y m d h mi s s' Hmatch (proj1 Hs'in)).
  reflexivity.
Qed.

(** One pass of the backward loop from a fire time finds it. *)
Lemma prevBody_from_fire_time :
  prevBody p (Luxon.mkCivil y m d h mi s) = Found (Luxon.mkCivil y m d h mi s).
Proof.
  destruct fire_time_units
    as [_ [Hy [_ [Hm [Hd [Hday [Hh [Hhr [Hmi [Hmir [Hs Hsr]]]]]]]]]]].
  destruct Hwf as [Ws Wmi Wh Wmo Wd Ww Wy Wn].
  unfold prevBody.
  cbn [Luxon.year Luxon.month Luxon.day Luxon.hour Luxon.minute Luxon.second].
  rewrite (getPreviousValue_member (prevYearValues p) y)
    by (try assumption; apply valuesOr_ascending, Wy).
  cbv zeta. rewrite Z.ltb_irrefl.
  rewrite (getPreviousValue_member (monthValues p) m)
    by (try assumption; apply valuesOr_ascending, Wmo).
  rewrite Z.ltb_irrefl. cbn [orb].
  rewrite (In_not_isEmpty _ _ Hd).
  rewrite (getPreviousValue_member (getDayOfMonthSet p y m) d)
    by (try assumption; apply strictlyAscending_ascending, getDayOfMonthSet_days;
        assumption).
  rewrite Z.ltb_irrefl. cbn [orb].
  rewrite (getPreviousValue_member (hourValues p) h)
    by (try assumption; apply valuesOr_ascending, Wh).
  cbn [nullish]. rewrite Z.ltb_irrefl. cbn [orb].
  rewrite (getPreviousValue_member (minuteValues p) mi)
    by (try assumption; apply valuesOr_ascending, Wmi).
  cbn [nullish]. rewrite Z.ltb_irrefl. cbn [orb].
  rewrite (getPreviousValue_member (secondValues p) s)
    by (try assumption; apply valuesOr_ascending, Ws).
  cbn [nullish].
  rewrite fromObject_valid by (try assumption; lia).
  unfold checkCandidate. rewrite Hmatch. reflexivity.
Qed.

Lemma getNextFireTime_from_fire_time :
  exists s',
    getNextValue (secondValues p) (s + 1) = Some s'
    /\ getNextFireTime p (Luxon.Valid (Luxon.mkCivil y m d h mi s))
       = Some (Luxon.mkCivil y m d h mi s').
Proof.
  destruct nextBody_from_fire_time as [s' [Hs' Hb]]. exists s'. split; [assumption |].
  destruct fire_time_units as [_ [_ [Hlim _]]].
  unfold getNextFireTime, maxIter.
  destruct (Z.to_nat 10000) as [| n] eqn:Hn; [lia |].
  rewrite nextLoop_S. cbn [Luxon.year].
  destruct (Z.leb_spec y (maxYearOf p)); [| lia].
  rewrite Hb. reflexivity.
Qed.

Lemma prevLoop_from_fire_time :
  fst (prevLoop p maxIter 0 (Luxon.Valid (Luxon.mkCivil y m d h mi s)))
  = Some (Luxon.mkCivil y m d h mi s).
Proof.
  destruct fire_time_units as [_ [_ [Hlim _]]].
  unfold maxIter.
  destruct (Z.to_nat 10000) as [| n] eqn:Hn; [lia |].
  rewrite prevLoop_S. cbn [Luxon.year].
  rewrite Z.geb_leb. destruct (Z.leb_spec (minYearOf p) y); [| lia].
  rewrite prevBody_from_fire_time. reflexivity.
Qed.

End FromAFireTime.

Example hourlySchedule_parsed (now : Z) :
  newCronParser now parseFuel "0 * * * *" 0 = Ok hourlySchedule.
Proof. reflexivity. Qed.

Lemma hourlySchedule_WellFormed : WellFormed hourlySchedule.
Proof. apply (parse_well_formed parseFuel "0 * * * *" 0). reflexivity. Qed.





(** ** What the searches answer *)

Lemma leftBy_foundFrom (ys hs : list Z) (o : Outcome) (b : Branch) :
  leftBy o = Some b -> foundFrom ys hs o.
Proof. destruct o; simpl; intros; try discriminate; exact I. Qed.

Lemma checkCandidate_foundFrom (p : CronParser) (ys hs : list Z) (k y m d h mi s : Z) :
  In y ys -> In h hs ->
  foundFrom ys hs (checkCandidate p k (Luxon.fromObject y m d h mi s)).
Proof.
  intros Hy Hh. unfold checkCandidate.
  destruct (Luxon.fromObject y m d h mi s) as [c |] eqn:Hc; [| exact I].
  destruct (isMatch p (Luxon.Valid c)); [| exact I].
  simpl. exists y, m, d, h, mi, s. auto.
Qed.

Lemma pickNext_In (changed : bool) (vals : list Z) (v x : Z) :
  (if changed then hd_error vals else nullish (getNextValue vals v) (hd_error vals))
  = Some x -> In x vals.
Proof.
  assert (Hhd : hd_error vals = Some x -> In x vals).
  { destruct vals; simpl; [discriminate |]. intros H. inversion H. now left. }
  destruct changed; [exact Hhd |].
  destruct (getNextValue vals v) as [z |] eqn:Hz; simpl; [| exact Hhd].
  intros H. inversion H; subst. eapply getNextValue_In. exact Hz.
Qed.

Lemma pickPrevious_In (changed : bool) (vals : list Z) (v x : Z) :
  (if changed then hd_error (rev vals)
   else nullish (getPreviousValue vals v) (hd_error (rev vals)))
  = Some x -> In x vals.
Proof.
  assert (Hhd : hd_error (rev vals) = Some x -> In x vals).
  { intros H. apply in_rev. destruct (rev vals); simpl in *; [discriminate |].
    inversion H. now left. }
  destruct changed; [exact Hhd |].
  destruct (getPreviousValue vals v) as [z |] eqn:Hz; simpl; [| exact Hhd].
  intros H. inversion H; subst. eapply getPreviousValue_In. exact Hz.
Qed.

Lemma nextBody_foundFrom (p : CronParser) (c : Luxon.Civil) :
  foundFrom (nextYearValues p) (hourValues p) (nextBody p c).
Proof.
  unfold nextBody.
  destruct (getNextValue (nextYearValues p) (Luxon.year c)) as [ny |] eqn:Hy;
    [| exact I].
  apply getNextValue_In in Hy. cbv zeta.
  destruct (isEmpty _).
  { eapply leftBy_foundFrom. apply nextAdvanceYear_leftBy. }
  match goal with
  | |- context [match ?x with Some _ => _ | None => nextAdvanceDay _ _ _ _ _ _ end] =>
    destruct x as [nh |] eqn:Hh
  end.
  2: { eapply leftBy_foundFrom. apply nextAdvanceDay_leftBy. }
  apply pickNext_In in Hh.
  match goal with
  | |- context [match ?x with Some _ => _ | None => nextAdvanceHour _ _ _ _ _ _ _ end] =>
    destruct x as [nmi |] eqn:Hmi
  end.
  2: { eapply leftBy_foundFrom. apply nextAdvanceHour_leftBy. }
  match goal with
  | |- context [match ?x with Some _ => _ | None => nextAdvanceMinute _ _ _ _ _ _ _ _ end] =>
    destruct x as [ns |] eqn:Hs
  end.
  2: { eapply leftBy_foundFrom. apply nextAdvanceMinute_leftBy. }
  now apply checkCandidate_foundFrom.
Qed.

Lemma prevBody_foundFrom (p : CronParser) (c : Luxon.Civil) :
  foundFrom (prevYearValues p) (hourValues p) (prevBody p c).
Proof.
  unfold prevBody.
  destruct (getPreviousValue (prevYearValues p) (Luxon.year c)) as [py |] eqn:Hy;
    [| exact I].
  apply getPreviousValue_In in Hy. cbv zeta.
  destruct (isEmpty _).
  { eapply leftBy_foundFrom. apply prevAdvanceYear_leftBy. }
  match goal with
  | |- context [match ?x with Some _ => _ | None => prevAdvanceDay _ _ _ _ _ _ end] =>
    destruct x as [nh |] eqn:Hh
  end.
  2: { eapply leftBy_foundFrom. apply prevAdvanceDay_leftBy. }
  apply pickPrevious_In in Hh.
  match goal with
  | |- context [match ?x with Some _ => _ | None => prevAdvanceHour _ _ _ _ _ _ _ end] =>
    destruct x as [nmi |] eqn:Hmi
  end.
  2: { eapply leftBy_foundFrom. apply prevAdvanceHour_leftBy. }
  match goal with
  | |- context [match ?x with Some _ => _ | None => prevAdvanceMinute _ _ _ _ _ _ _ _ end] =>
    destruct x as [ns |] eqn:Hs
  end.
  2: { eapply leftBy_foundFrom. apply prevAdvanceMinute_leftBy. }
  now apply checkCandidate_foundFrom.
Qed.

Lemma nextLoop_foundFrom (p : CronParser) (remaining : nat) :
  forall (iter : nat) (d : Luxon.DateTime) (r : Luxon.Civil),
    fst (nextLoop p remaining iter d) = Some r ->
    foundFrom (nextYearValues p) (hourValues p) (Found r).
Proof.
  induction remaining as [| n IH]; intros iter d r H; simpl in H.
  - discriminate.
  - destruct d as [c |]; [| discriminate].
    destruct (Luxon.year c <=? maxYearOf p); [| discriminate].
    pose proof (nextBody_foundFrom p c) as Hb.
    destruct (nextBody p c) as [b | b d' | c' | d']; simpl in H.
    + discriminate.
    + eapply IH; eassumption.
    + inversion H; subst. exact Hb.
    + eapply IH; eassumption.
Qed.

Lemma prevLoop_foundFrom (p : CronParser) (remaining : nat) :
  forall (iter : nat) (d : Luxon.DateTime) (r : Luxon.Civil),
    fst (prevLoop p remaining iter d) = Some r ->
    foundFrom (prevYearValues p) (hourValues p) (Found r).
Proof.
  induction remaining as [| n IH]; intros iter d r H; simpl in H.
  - discriminate.
  - destruct d as [c |]; [| discriminate].
    destruct (Luxon.year c >=? minYearOf p); [| discriminate].
    pose proof (prevBody_foundFrom p c) as Hb.
    destruct (prevBody p c) as [b | b d' | c' | d']; simpl in H.
    + discriminate.
    + eapply IH; eassumption.
    + inversion H; subst. exact Hb.
    + eapply IH; eassumption.
Qed.

Lemma yearValues_range (p : CronParser) (y : Z) :
  within 1970 2099 (values (years p)) ->
  In y (nextYearValues p) \/ In y (prevYearValues p) -> 1970 <= y <= 2099.
Proof.
  intros Hw. unfold nextYearValues, prevYearValues, valuesOr.
  destruct (year_limits p) as [Hempty _].
  destruct (values (years p)) as [| v vs] eqn:Hv; cbn [isEmpty].
  - destruct (Hempty eq_refl) as [Hmax _]. rewrite Hmax.
    intros [H | H]; apply In_arrayFrom in H; lia.
  - rewrite within_In in Hw. intros [H | H]; now apply Hw.
Qed.

Lemma found_in_range (p : CronParser) (ys : list Z) (r : Luxon.Civil) :
  WellFormed p ->
  (forall y, In y ys -> 1970 <= y <= 2099) ->
  foundFrom ys (hourValues p) (Found r) ->
  isCivil r /\ 1970 <= Luxon.year r <= 2099.
Proof.
  intros Hwf Hys [y [m [d [h [mi [s [Hy [Hh Hobj]]]]]]]].
  split; [eapply fromObject_isCivil; exact Hobj |].
  assert (Hhr : 0 <= h <= 23).
  { apply (valuesOr_In (hours p) 24 0 23 h); [apply Hwf | lia | exact Hh]. }
  rewrite (fromObject_units _ _ _ _ _ _ _ Hobj Hhr). cbn [Luxon.year]. now apply Hys.
Qed.

Lemma getNextFireTime_answer (p : CronParser) (from : Luxon.DateTime) (r : Luxon.Civil) :
  WellFormed p ->
  getNextFireTime p from = Some r ->
  isMatch p (Luxon.Valid r) = true /\ isCivil r /\ 1970 <= Luxon.year r <= 2099.
Proof.
  intros Hwf. unfold getNextFireTime. intros H. split.
  - eapply nextLoop_found. exact H.
  - apply (found_in_range p (nextYearValues p)); [exact Hwf | |].
    + intros y Hy. eapply yearValues_range; [apply Hwf | left; exact Hy].
    + eapply nextLoop_foundFrom. exact H.
Qed.

Lemma getPreviousFireTime_answer (p : CronParser) (from : Luxon.DateTime)
      (r : Luxon.Civil) :
  WellFormed p ->
  getPreviousFireTime p from = Some r ->
  isMatch p (Luxon.Valid r) = true /\ isCivil r /\ 1970 <= Luxon.year r <= 2099.
Proof.
  intros Hwf. unfold getPreviousFireTime. intros H. split.
  - eapply prevLoop_found. exact H.
  - apply (found_in_range p (prevYearValues p)); [exact Hwf | |].
    + intros y Hy. eapply yearValues_range; [apply Hwf | right; exact Hy].
    + eapply prevLoop_foundFrom. exact H.
Qed.

Lemma feb29Schedule_WellFormed : WellFormed feb29Schedule.
Proof. apply (parse_well_formed parseFuel "0 0 0 29 FEB ?" 0). reflexivity. Qed.

(** The instant that [next] or [previous] answers for a well-formed
    schedule, read back in the zone of the schedule, is a civil time that
    [isMatch] accepts, and its year is between 1970 and 2099. *)
(** The instant [next] or [previous] answers, read in the zone of the
    schedule, is a civil time that [isMatch] accepts, between 1970 and
    2099. *)
Theorem answer_is_fire_time (p : CronParser) (now : Z) (from : option Z) (t : Z) :
  WellFormed p ->
  next p now from = Ok t \/ previous p now from = Ok t ->
  isMatch p (Luxon.Valid (Luxon.fromSeconds (timezone p) t)) = true
  /\ 1970 <= Luxon.year (Luxon.fromSeconds (timezone p) t) <= 2099.
Proof.
  intros Hwf H.
  assert (Hfound : exists r,
             t = Luxon.toUnixInteger (timezone p) r
             /\ isMatch p (Luxon.Valid r) = true /\ isCivil r
             /\ 1970 <= Luxon.year r <= 2099).
  { destruct H as [H | H].
    - revert H. unfold next.
      destruct (getNextFireTime p (startOf p now from)) as [r |] eqn:Hr;
        [| discriminate].
      intros H. exists r. split; [now inversion H |].
      eapply getNextFireTime_answer; eassumption.
    - revert H. unfold previous.
      destruct (getPreviousFireTime p (startOf p now from)) as [r |] eqn:Hr;
        [| discriminate].
      intros H. exists r. split; [now inversion H |].
      eapply getPreviousFireTime_answer; eassumption. }
  destruct Hfound as [r [-> [Hm [Hc Hy]]]].
  rewrite (fromSeconds_toUnixInteger _ _ Hc). now split.
Qed.

(** ['0 0 0 29 FEB ?'] from 2025-09-28T12:00:00Z: 2028-02-29T00:00:00Z. *)
Lemma answer_is_fire_time_witness :
  isMatch feb29Schedule
          (Luxon.Valid (Luxon.fromSeconds (timezone feb29Schedule) 1835395200)) = true
  /\ 1970 <= Luxon.year (Luxon.fromSeconds (timezone feb29Schedule) 1835395200) <= 2099.
Proof.
  apply (answer_is_fire_time feb29Schedule 0 (Some reference) 1835395200).
  - exact feb29Schedule_WellFormed.
  - left. vm_compute. reflexivity.
Defined.

(** ** A day set that is empty in every month *)

Lemma nextBody_empty_days (p : CronParser) (c : Luxon.Civil) :
  (forall y m, getDayOfMonthSet p y m = []) -> exists b, leftBy (nextBody p c) = Some b.
Proof.
  intros He. unfold nextBody.
  destruct (getNextValue _ _); [| now exists YearUndefined].
  cbv zeta. rewrite He. cbn [isEmpty].
  exists DaySetEmpty. apply nextAdvanceYear_leftBy.
Qed.

Lemma prevBody_empty_days (p : CronParser) (c : Luxon.Civil) :
  (forall y m, getDayOfMonthSet p y m = []) -> exists b, leftBy (prevBody p c) = Some b.
Proof.
  intros He. unfold prevBody.
  destruct (getPreviousValue _ _); [| now exists YearUndefined].
  cbv zeta. rewrite He. cbn [isEmpty].
  exists DaySetEmpty. apply prevAdvanceYear_leftBy.
Qed.

Lemma nextLoop_empty_days (p : CronParser) (remaining : nat) :
  (forall y m, getDayOfMonthSet p y m = []) ->
  forall iter d, fst (nextLoop p remaining iter d) = None.
Proof.
  intros He. induction remaining as [| n IH]; intros iter d; simpl; [reflexivity |].
  destruct d as [c |]; [| reflexivity].
  destruct (Luxon.year c <=? maxYearOf p); [| reflexivity].
  destruct (nextBody_empty_days p c He) as [b Hb].
  destruct (nextBody p c); simpl in *; try discriminate; [reflexivity | apply IH].
Qed.

Lemma prevLoop_empty_days (p : CronParser) (remaining : nat) :
  (forall y m, getDayOfMonthSet p y m = []) ->
  forall iter d, fst (prevLoop p remaining iter d) = None.
Proof.
  intros He. induction remaining as [| n IH]; intros iter d; simpl; [reflexivity |].
  destruct d as [c |]; [| reflexivity].
  destruct (Luxon.year c >=? minYearOf p); [| reflexivity].
  destruct (prevBody_empty_days p c He) as [b Hb].
  destruct (prevBody p c); simpl in *; try discriminate; [reflexivity | apply IH].
Qed.

Lemma beyond_month_empty (p : CronParser) (y m : Z) :
  LastDayBeyondMonth p -> getDayOfMonthSet p y m = [].
Proof.
  intros [Hf Ho]. unfold getDayOfMonthSet.
  destruct (Luxon.daysInMonthOf y m) as [ldom |] eqn:Hl; [| reflexivity].
  apply daysInMonthOf_Some in Hl. destruct Hl as [_ ->].
  pose proof (daysInMonth_bounds y m). cbv zeta. rewrite Hf.
  destruct (DayOfMonthModifiers.lastDayOffset _) as [n |]; [| reflexivity].
  destruct (Z.geb_spec (Luxon.daysInMonth y m - n) 1); [lia | reflexivity].
Qed.

Example lastDayMinus31Schedule_parsed (now : Z) :
  newCronParser now parseFuel "0 0 0 L-31 * ?" 0 = Ok lastDayMinus31Schedule.
Proof. reflexivity. Qed.

(** A schedule whose day-of-month field is [L-N] with [N] at least 31, or
    with an [N] that is not a number, never fires: [next] and [previous]
    throw for every start. *)
Theorem last_day_beyond_month_never_fires (p : CronParser) (now : Z) (from : option Z) :
  LastDayBeyondMonth p ->
  next p now from = Throw NoNextExecution
  /\ previous p now from = Throw NoPreviousExecution.
Proof.
  intros Hb.
  assert (He : forall y m, getDayOfMonthSet p y m = [])
    by (intros; now apply beyond_month_empty).
  unfold next, previous, getNextFireTime, getPreviousFireTime.
  rewrite (nextLoop_empty_days p _ He), (prevLoop_empty_days p _ He). now split.
Qed.

Lemma last_day_beyond_month_never_fires_witness :
  next lastDayMinus31Schedule 0 (Some reference) = Throw NoNextExecution
  /\ previous lastDayMinus31Schedule 0 (Some reference) = Throw NoPreviousExecution.
Proof.
  apply (last_day_beyond_month_never_fires lastDayMinus31Schedule 0 (Some reference)).
  constructor; [reflexivity | simpl; lia].
Defined.

(** ** The ordinals of the description *)

Lemma rem_nonneg (v k : Z) : 0 <= v -> 0 < k -> Z.rem v k = v mod k.
Proof. intros Hv Hk. apply Z.rem_mod_nonneg; lia. Qed.

(** The two ways the code writes the ordinal of a day agree except on the
    days whose last two digits are 11, 12 or 13. *)
Lemma suffixes_agree (v : Z) :
  0 <= v ->
  lastDigitSuffix (Some v) = template (daySuffix v) <-> ~ 11 <= v mod 100 <= 13.
Proof.
  intros Hv. unfold lastDigitSuffix, daySuffix.
  rewrite !rem_nonneg by lia.
  assert (Hd : v mod 10 = (v mod 100) mod 10).
  { Z.div_mod_to_equations. lia. }
  pose proof (Z.mod_pos_bound v 10 ltac:(lia)) as Hb.
  destruct (Z.geb_spec (v mod 100) 11) as [H11 | H11];
    destruct (Z.leb_spec (v mod 100) 13) as [H13 | H13]; cbn [andb].
  - assert (Hc : v mod 10 = 1 \/ v mod 10 = 2 \/ v mod 10 = 3).
    { rewrite Hd. revert H11 H13. generalize (v mod 100). intros w. intros.
      Z.div_mod_to_equations. lia. }
    split; [| intros Hn; exfalso; apply Hn; lia].
    destruct Hc as [-> | [-> | ->]]; discriminate.
  - split; [intros _; lia | intros _].
    assert (Hc : v mod 10 = 0 \/ v mod 10 = 1 \/ v mod 10 = 2 \/ v mod 10 = 3
                 \/ v mod 10 = 4 \/ v mod 10 = 5 \/ v mod 10 = 6 \/ v mod 10 = 7
                 \/ v mod 10 = 8 \/ v mod 10 = 9) by lia.
    destruct Hc as [-> | [-> | [-> | [-> | [-> | [-> | [-> | [-> | [-> | ->]]]]]]]]];
      reflexivity.
  - split; [intros _; lia | intros _].
    assert (Hc : v mod 10 = 0 \/ v mod 10 = 1 \/ v mod 10 = 2 \/ v mod 10 = 3
                 \/ v mod 10 = 4 \/ v mod 10 = 5 \/ v mod 10 = 6 \/ v mod 10 = 7
                 \/ v mod 10 = 8 \/ v mod 10 = 9) by lia.
    destruct Hc as [-> | [-> | [-> | [-> | [-> | [-> | [-> | [-> | [-> | ->]]]]]]]]];
      reflexivity.
  - lia.
Qed.

Lemma describeField_single_day (f : CronField) (target : Z) :
  values f = [target] -> hasStep f = false ->
  describeField f "day" 1 31 None
  = ("on the " ++ (toString target ++ template (daySuffix target))
                ++ " of the month")%string.
Proof.
  intros Hv Hs. unfold describeField, count. rewrite Hv, Hs. cbn [map List.length].
  change (Z.of_nat 1 =? 0) with false. change (Z.of_nat 1 =? 31 - 1 + 1) with false.
  cbn [andb negb]. change (Z.of_nat 1 =? 1) with true.
  change (("day" =? "day")%string) with true. cbn [andb nth template].
  unfold hasStep in Hs.
  destruct (step f) as [[s |] |]; try reflexivity.
  simpl in Hs. destruct (Z.eqb_spec s 0); [reflexivity | discriminate].
Qed.

(** The description writes the ordinal of a day in two ways: by the last
    digit alone after 'nearest weekday to the', and with the exception for
    11, 12 and 13 for a listed day.  For the same day the two agree except
    when its last two digits are 11, 12 or 13, where the first way writes
    11st, 12nd and 13rd. *)
Theorem day_ordinals_of_the_description (p1 p2 : CronParser) (target : Z) :
  0 <= target ->
  NearestWeekdayTo p1 target ->
  SingleDay p2 target ->
  exists ordinal1 ordinal2,
    describeDaysOfMonth p1
    = ("on the nearest weekday to the " ++ ordinal1 ++ " of the month")%string
    /\ describeDaysOfMonth p2 = ("on the " ++ ordinal2 ++ " of the month")%string
    /\ (ordinal1 = ordinal2 <-> ~ 11 <= target mod 100 <= 13).
Proof.
  intros Ht [Hf Hl Hlw Hv] [Hd Hs Hl2 Hlw2 Hnw2].
  exists (toString target ++ lastDigitSuffix (Some target))%string,
         (toString target ++ template (daySuffix target))%string.
  split; [| split].
  - unfold describeDaysOfMonth. cbv zeta. rewrite Hl, Hlw, Hf, Hv. reflexivity.
  - unfold describeDaysOfMonth. cbv zeta. rewrite Hl2, Hlw2, Hnw2, Hs.
    rewrite andb_false_r. now apply describeField_single_day.
  - rewrite <- (suffixes_agree target Ht). split.
    + intros H. revert H. generalize (toString target).
      induction s as [| c s IH]; simpl; intros H; [exact H |].
      inversion H. now apply IH.
    + intros ->. reflexivity.
Qed.

(** The 11th: '11st' against '11th'. *)
Lemma day_ordinals_of_the_description_witness :
  exists ordinal1 ordinal2,
    describeDaysOfMonth (setDaysOfMonth nearest26Schedule (only 11))
    = ("on the nearest weekday to the " ++ ordinal1 ++ " of the month")%string
    /\ describeDaysOfMonth (setDaysOfMonth feb29Schedule (only 11))
       = ("on the " ++ ordinal2 ++ " of the month")%string
    /\ (ordinal1 = ordinal2 <-> ~ 11 <= 11 mod 100 <= 13).
Proof.
  apply (day_ordinals_of_the_description
           (setDaysOfMonth nearest26Schedule (only 11))
           (setDaysOfMonth feb29Schedule (only 11)) 11).
  - lia.
  - constructor; reflexivity.
  - constructor; reflexivity.
Defined.

(** ** The description of a field with a step *)

Lemma progression_step (start end_ s : Z) :
  0 < s -> start <= end_ ->
  progression start end_ s
  = start :: (if start + s <=? end_ then progression (start + s) end_ s else []).
Proof.
  intros Hs Hle. unfold progression.
  assert (Hq : 0 <= (end_ - start) / s) by (apply Z.div_pos; lia).
  destruct (Z.leb_spec (start + s) end_) as [Hnext | Hlast].
  - replace ((end_ - start) / s + 1) with (((end_ - (start + s)) / s + 1) + 1).
    2: { replace (end_ - start) with ((end_ - (start + s)) + 1 * s) by lia.
         rewrite Z.div_add by lia. lia. }
    assert (Hq' : 0 <= (end_ - (start + s)) / s) by (apply Z.div_pos; lia).
    rewrite Z2Nat.inj_add by lia. change (Z.to_nat 1) with 1%nat.
    rewrite Nat.add_1_r. cbn [seq map]. f_equal; [lia |].
    rewrite <- seq_shift, map_map. apply map_ext. intros k.
    rewrite Nat2Z.inj_succ. nia.
  - rewrite Z.div_small by lia. change (Z.to_nat (0 + 1)) with 1%nat.
    cbn [seq map]. f_equal. lia.
Qed.

Lemma stepLoop_progression (fuel : nat) :
  forall s i end_ acc vs,
    0 < s -> i <= end_ ->
    stepLoop fuel i end_ (Num s) acc = Ok vs ->
    vs = acc ++ progression i end_ s.
Proof.
  induction fuel as [| f IH]; intros s i end_ acc vs Hs Hle H; simpl in H.
  - destruct (Z.leb_spec i end_); [discriminate | lia].
  - destruct (Z.leb_spec i end_); [| lia].
    rewrite (progression_step i end_ s Hs Hle).
    destruct (Z.leb_spec (i + s) end_) as [Hnext | Hlast].
    + apply IH in H; [| lia | lia]. rewrite H, <- app_assoc. reflexivity.
    + destruct f as [| f']; simpl in H.
      * destruct (Z.leb_spec (i + s) end_); [lia |]. now inversion H.
      * destruct (Z.leb_spec (i + s) end_); [lia |]. now inversion H.
Qed.

Lemma progression_length (start end_ s : Z) :
  0 < s -> start <= end_ ->
  Z.of_nat (List.length (progression start end_ s)) = (end_ - start) / s + 1.
Proof.
  intros Hs Hle. unfold progression. rewrite length_map, length_seq.
  assert (0 <= (end_ - start) / s) by (apply Z.div_pos; lia). lia.
Qed.

Lemma progression_first (start end_ s : Z) :
  0 < s -> start <= end_ -> nth 0 (progression start end_ s) 0 = start.
Proof. intros Hs Hle. rewrite progression_step by assumption. reflexivity. Qed.

Lemma progression_last (start end_ s : Z) :
  0 < s -> start <= end_ ->
  last (progression start end_ s) 0 = start + s * ((end_ - start) / s).
Proof.
  intros Hs Hle. unfold progression.
  assert (Hq : 0 <= (end_ - start) / s) by (apply Z.div_pos; lia).
  replace (Z.to_nat ((end_ - start) / s + 1)) with (S (Z.to_nat ((end_ - start) / s)))
    by lia.
  rewrite seq_S, map_app. cbn [map]. rewrite last_last. cbn. lia.
Qed.

Lemma map_nth_Some {A B : Type} (f : A -> B) (l : list A) (d : A) :
  l <> [] -> nth 0 (map (fun v => Some (f v)) l) None = Some (f (nth 0 l d)).
Proof. destruct l; [congruence | reflexivity]. Qed.

Lemma map_last_Some {A B : Type} (f : A -> B) (l : list A) (d : A) :
  l <> [] -> last (map (fun v => Some (f v)) l) None = Some (f (last l d)).
Proof.
  induction l as [| a l IH]; [congruence |]. intros _.
  destruct l as [| b l]; [reflexivity |].
  change (last (map (fun v => Some (f v)) (a :: b :: l)) None)
    with (last (map (fun v => Some (f v)) (b :: l)) None).
  change (last (a :: b :: l) d) with (last (b :: l) d).
  apply IH. discriminate.
Qed.



(** ** The time of day of the description *)

Lemma isOnly_values (f : CronField) (x : Z) : isOnly f x = true -> values f = [x].
Proof.
  unfold isOnly. destruct (values f) as [| v [| w l]]; try discriminate.
  intros H. apply Z.eqb_eq in H. now subst.
Qed.

Lemma fire_time_of_day (p : CronParser) (c : Luxon.Civil) :
  isMatch p (Luxon.Valid c) = true ->
  (forall h, values (hours p) = [h] -> Luxon.hour c = h)
  /\ (forall mi, values (minutes p) = [mi] -> Luxon.minute c = mi)
  /\ (forall s, values (seconds p) = [s] -> Luxon.second c = s).
Proof.
  intros H. apply isMatch_Satisfies in H. destruct H as [_ _ _ _ Sh Smi Ss].
  repeat split; intros v Hv; eapply fieldAdmits_singleton; eassumption.
Qed.

(** The hour on the 12-hour clock: [displayHour] and [period] together
    tell the hour of the day. *)
Lemma twelve_hour_clock (hour : Z) :
  0 <= hour <= 23 ->
  1 <= displayHour hour <= 12
  /\ hour = displayHour hour mod 12 + (if (period hour =? "PM")%string then 12 else 0).
Proof.
  intros Hh. unfold displayHour, period.
  rewrite Z.rem_mod_nonneg by lia.
  destruct (Z.eqb_spec (hour mod 12) 0) as [E | N];
    destruct (Z.ltb_spec hour 12) as [Hl | Hg];
    cbn [String.eqb Ascii.eqb Bool.eqb andb]; split;
    try (Z.div_mod_to_equations; lia).
Qed.

(** A schedule with one hour and one minute listed and no step on them is
    worded as a time on the 12-hour clock; the hour shown (1..12) and the
    period tell the hour of the day, and every fire time is at that hour
    and minute. *)
Theorem time_of_day_description (p : CronParser) (h mi : Z) :
  values (hours p) = [h] -> values (minutes p) = [mi] ->
  hasStep (hours p) = false -> hasStep (minutes p) = false ->
  0 <= h <= 23 ->
  describeHours p
  = ("at time " ++ toString (displayHour h) ++ ":" ++ displayMinute mi
                ++ " " ++ period h)%string
  /\ 1 <= displayHour h <= 12
  /\ h = displayHour h mod 12 + (if (period h =? "PM")%string then 12 else 0)
  /\ forall c, isMatch p (Luxon.Valid c) = true ->
               Luxon.hour c = h /\ Luxon.minute c = mi.
Proof.
  intros Hh Hmi Sh Smi Hr.
  split; [| split; [| split]].
  - unfold describeHours. rewrite Hh, Hmi, Sh, Smi. reflexivity.
  - apply twelve_hour_clock. exact Hr.
  - apply twelve_hour_clock. exact Hr.
  - intros c Hc. destruct (fire_time_of_day p c Hc) as [H1 [H2 _]]. auto.
Qed.

(** 14:30, worded 'at time 2:30 PM'. *)
Lemma time_of_day_description_witness :
  describeHours (setMinutes (setHours feb29Schedule (only 14)) (only 30))
  = ("at time " ++ toString (displayHour 14) ++ ":" ++ displayMinute 30
                ++ " " ++ period 14)%string
  /\ 1 <= displayHour 14 <= 12
  /\ 14 = displayHour 14 mod 12 + (if (period 14 =? "PM")%string then 12 else 0)
  /\ forall c, isMatch (setMinutes (setHours feb29Schedule (only 14)) (only 30))
                       (Luxon.Valid c) = true ->
               Luxon.hour c = 14 /\ Luxon.minute c = 30.
Proof.
  apply (time_of_day_description
           (setMinutes (setHours feb29Schedule (only 14)) (only 30)) 14 30).
  - reflexivity.
  - reflexivity.
  - reflexivity.
  - reflexivity.
  - lia.
Defined.

(** ** A description that starts with midnight *)

Lemma join_cons_nonempty (sep x : string) (l : list string) :
  exists rest, join sep (x :: l) = (x ++ rest)%string.
Proof.
  destruct l as [| y l].
  - exists ""%string. simpl. clear. induction x; simpl; congruence.
  - exists (sep ++ join sep (y :: l))%string. reflexivity.
Qed.

Lemma pushIf_head (cond : bool) (x h : string) (t : list string) :
  exists t', pushIf cond x (h :: t) = h :: t'.
Proof. unfold pushIf. destruct cond; eexists; reflexivity. Qed.

(** When seconds, minutes and hours are each the single value 0, with no
    step on seconds and minutes, the description starts with 'at midnight'
    and every fire time is at 00:00:00. *)
Theorem midnight_description (p : CronParser) :
  isOnly (seconds p) 0 = true -> isOnly (minutes p) 0 = true ->
  isOnly (hours p) 0 = true ->
  hasStep (seconds p) = false -> hasStep (minutes p) = false ->
  (exists rest, translate p = ("at midnight" ++ rest)%string)
  /\ forall c, isMatch p (Luxon.Valid c) = true ->
               Luxon.hour c = 0 /\ Luxon.minute c = 0 /\ Luxon.second c = 0.
Proof.
  intros Hs Hmi Hh Ss Smi. split.
  - unfold translate.
    assert (Cs : count (seconds p) = 1)
      by (unfold count; now rewrite (isOnly_values _ _ Hs)).
    assert (Cmi : count (minutes p) = 1)
      by (unfold count; now rewrite (isOnly_values _ _ Hmi)).
    cbv zeta. rewrite Hs, Hmi, Hh, Ss, Smi, Cs, Cmi.
    change (1 >? 1) with false. change (1 =? 1) with true.
    cbn [andb orb negb pushIf app].
    match goal with
    | |- context [pushIf _ (describeMonths p) ?dom] =>
      assert (Hdom : exists t, dom = "at midnight"%string :: t);
        [| destruct Hdom as [t1 ->]]
    end.
    { destruct (_ || _ : bool); [eexists; reflexivity |]. apply pushIf_head. }
    destruct (pushIf_head ((count (months p) <? 12)
                           && negb (isOnly (daysOfMonth p) 29 && isOnly (months p) 2))
                          (describeMonths p) "at midnight"%string t1) as [t2 ->].
    destruct (pushIf_head (truthy (DayOfWeekModifiers.nthDay (dayOfWeekModifiers p))
                           || DayOfWeekModifiers.lastDay (dayOfWeekModifiers p)
                           || (count (daysOfWeek p) >? 0))
                          (describeDaysOfWeek p) "at midnight"%string t2) as [t3 ->].
    destruct (pushIf_head (count (years p) >? 0)
                          (describeYears p) "at midnight"%string t3) as [t4 ->].
    cbn [filter String.eqb Ascii.eqb Bool.eqb negb andb].
    destruct (join_cons_nonempty ", " "at midnight"
                (filter (fun part => negb (part =? "")%string) t4)) as [rest ->].
    exists rest. reflexivity.
  - intros c Hc. destruct (fire_time_of_day p c Hc) as [H1 [H2 H3]].
    repeat split; [apply H1 | apply H2 | apply H3]; now apply isOnly_values.
Qed.

(** ['0 0 0 29 FEB ?']: 'at midnight, on the 29th of February'. *)
Lemma midnight_description_witness :
  (exists rest, translate feb29Schedule = ("at midnight" ++ rest)%string)
  /\ forall c, isMatch feb29Schedule (Luxon.Valid c) = true ->
               Luxon.hour c = 0 /\ Luxon.minute c = 0 /\ Luxon.second c = 0.
Proof.
  apply (midnight_description feb29Schedule); reflexivity.
Defined.

(** ** What the description never says *)

Lemma count_filled (lo hi : Z) (f : CronField) :
  fieldFilled lo hi f -> (count f =? 0) = false.
Proof.
  intros [Hne _]. unfold count. destruct (values f) as [| v vs]; [congruence |].
  apply Z.eqb_neq. cbn [List.length]. lia.
Qed.

(** For every parser the constructor returns, the conditions under which
    [translate] says 'every hour' and 'every day' are false, whatever has
    been said before: both ask for an empty set of months, and the
    constructor never leaves one. *)
Theorem every_hour_and_every_day_never_said (now : Z) (fuel : nat)
        (cronString : string) (timezone : Z) (p : CronParser) :
  newCronParser now fuel cronString timezone = Ok p ->
  (forall parts, everyHour p parts = false) /\ everyDay p = false.
Proof.
  unfold newCronParser. intros H.
  pose proof (months_filled p (parse_well_formed _ _ _ _ H)) as Hm.
  apply count_filled in Hm. unfold everyHour, everyDay. rewrite Hm.
  split; [intros parts |]; rewrite !andb_false_r; reflexivity.
Qed.

(** ['0 * * * *'], every hour on the hour. *)
Lemma every_hour_and_every_day_never_said_witness :
  (forall parts, everyHour hourlySchedule parts = false)
  /\ everyDay hourlySchedule = false.
Proof.
  apply (every_hour_and_every_day_never_said 0 parseFuel "0 * * * *" 0).
  vm_compute. reflexivity.
Defined.

(** ** The day/month check in the three builds *)

Lemma firstOver_None (limit : Z) (days : list Z) :
  Older.firstOver limit days = None <-> forall d, In d days -> d <= limit.
Proof.
  induction days as [| a l IH]; simpl.
  - split; [intros _ d [] | reflexivity].
  - destruct (Z.gtb_spec a limit) as [Hgt | Hle].
    + split; [discriminate |]. intros H. specialize (H a (or_introl eq_refl)). lia.
    + rewrite IH. split.
      * intros H d [<- | Hd]; [assumption | now apply H].
      * intros H d Hd. apply H. now right.
Qed.

Lemma firstImpossible_None (february : Z) (months days : list Z) :
  Older.firstImpossible february months days = None
  <-> forall m d, In m months -> In d days -> d <= Older.maxD february m.
Proof.
  induction months as [| a l IH]; simpl.
  - split; [intros _ m d [] | reflexivity].
  - destruct (Older.firstOver (Older.maxD february a) days) as [d0 |] eqn:Hf.
    + split; [discriminate |]. intros H.
      assert (Hn : Older.firstOver (Older.maxD february a) days = None).
      { apply firstOver_None. intros d Hd. apply H; [now left | assumption]. }
      congruence.
    + rewrite IH. pose proof (proj1 (firstOver_None _ _) Hf) as Hf'. split.
      * intros H m d [<- | Hm] Hd; [now apply Hf' | now apply H].
      * intros H m d Hm Hd. apply H; [now right | assumption].
Qed.

Lemma checkDayAgainstMonths_Ok (day : Z) (months : list Z) :
  within 1 12 months ->
  checkDayAgainstMonths day months = Ok tt
  <-> forall m, In m months -> day <= Older.maxD 29 m.
Proof.
  intros Hw. induction months as [| a l IH]; simpl.
  - split; [intros _ m [] | reflexivity].
  - inversion Hw as [| ? ? Ha Hl]; subst. specialize (IH Hl).
    assert (Hmax : maxDaysInMonth a = Some (Older.maxD 29 a)).
    { unfold maxDaysInMonth, Older.maxD, includes.
      rewrite (proj2 (inRange_true 1 12 a) Ha). cbn [existsb].
      destruct (Z.eqb_spec a 2) as [-> | H2]; [reflexivity |].
      rewrite orb_false_r, !orb_assoc. reflexivity. }
    rewrite Hmax.
    destruct (Z.eqb_spec a 2) as [-> | Ha2]; cbn [andb].
    + destruct (Z.eqb_spec day 29) as [-> | Hd].
      * rewrite IH. split.
        -- intros H m [<- | Hm]; [vm_compute; discriminate | now apply H].
        -- intros H m Hm. apply H. now right.
      * destruct (Z.gtb_spec day (Older.maxD 29 2)) as [Hgt | Hle].
        -- split; [discriminate |]. intros H.
           specialize (H 2 (or_introl eq_refl)). lia.
        -- rewrite IH. split.
           ++ intros H m [<- | Hm]; [assumption | now apply H].
           ++ intros H m Hm. apply H. now right.
    + destruct (Z.gtb_spec day (Older.maxD 29 a)) as [Hgt | Hle].
      * split; [discriminate |]. intros H.
        specialize (H a (or_introl eq_refl)). lia.
      * rewrite IH. split.
        -- intros H m [<- | Hm]; [assumption | now apply H].
        -- intros H m Hm. apply H. now right.
Qed.

Lemma checkDaysAgainstMonths_Ok (days months : list Z) :
  within 1 12 months ->
  checkDaysAgainstMonths days months = Ok tt
  <-> forall m d, In m months -> In d days -> d <= Older.maxD 29 m.
Proof.
  intros Hw. induction days as [| a l IH]; simpl.
  - split; [intros _ m d _ [] | reflexivity].
  - destruct (checkDayAgainstMonths a months) as [[] | e |] eqn:Hc; simpl.
    + pose proof (proj1 (checkDayAgainstMonths_Ok a months Hw) Hc) as Hc'.
      rewrite IH. split.
      * intros H m d Hm [<- | Hd]; [now apply Hc' | now apply H].
      * intros H m d Hm Hd. apply H; [assumption | now right].
    + split; [discriminate |]. intros H.
      assert (Hok : checkDayAgainstMonths a months = Ok tt).
      { apply (checkDayAgainstMonths_Ok a months Hw). intros m Hm.
        apply H; [assumption | now left]. }
      congruence.
    + split; [discriminate |]. intros H.
      assert (Hok : checkDayAgainstMonths a months = Ok tt).
      { apply (checkDayAgainstMonths_Ok a months Hw). intros m Hm.
        apply H; [assumption | now left]. }
      congruence.
Qed.

Lemma maxD_february (m : Z) :
  (m = 2 -> Older.maxD 28 m = 28 /\ Older.maxD 29 m = 29)
  /\ (m <> 2 -> Older.maxD 28 m = Older.maxD 29 m).
Proof.
  unfold Older.maxD. split.
  - intros ->. split; reflexivity.
  - intros Hm. destruct (Z.eqb_spec m 2); [contradiction | reflexivity].
Qed.

(** The check of a day set against a month set (months 1..12) in the three
    builds.  The check of the main build ([parseDayOfMonth]; the constructor
    never reaches it with a month set) and the check at the end of the
    constructor of the compiled older build accept the same sets: those in
    which no day exceeds 29 for February, 30 for April, June, September and
    November, 31 otherwise.  The loop of [isValid] in the earlier TypeScript
    source, with 28 for February, accepts what they accept except day 29
    together with February. *)
Theorem date_checks_of_the_builds (days months : list Z) :
  within 1 12 months ->
  (checkDaysAgainstMonths days months = Ok tt
   <-> Older.firstImpossible 29 months days = None)
  /\ (Older.firstImpossible 28 months days = None
      <-> Older.firstImpossible 29 months days = None
          /\ (In 2 months -> ~ In 29 days)).
Proof.
  intros Hw. split.
  - rewrite (checkDaysAgainstMonths_Ok days months Hw), firstImpossible_None. tauto.
  - rewrite !firstImpossible_None. split.
    + intros H. split.
      * intros m d Hm Hd. specialize (H m d Hm Hd).
        destruct (Z.eq_dec m 2) as [-> | Hne].
        -- destruct (proj1 (maxD_february 2) eq_refl) as [H28 H29]. lia.
        -- rewrite <- (proj2 (maxD_february m) Hne). exact H.
      * intros H2 H29. specialize (H 2 29 H2 H29). vm_compute in H. congruence.
    + intros [H Hfeb] m d Hm Hd. specialize (H m d Hm Hd).
      destruct (Z.eq_dec m 2) as [-> | Hne].
      * destruct (proj1 (maxD_february 2) eq_refl) as [H28 H29].
        assert (d <> 29) by (intros ->; now apply Hfeb). lia.
      * rewrite (proj2 (maxD_february m) Hne). exact H.
Qed.

(** Day 29 with February. *)
Lemma date_checks_of_the_builds_witness :
  (checkDaysAgainstMonths [29] [2] = Ok tt
   <-> Older.firstImpossible 29 [2] [29] = None)
  /\ (Older.firstImpossible 28 [2] [29] = None
      <-> Older.firstImpossible 29 [2] [29] = None
          /\ (In 2 [2] -> ~ In 29 [29])).
Proof.
  apply (date_checks_of_the_builds [29] [2]).
  repeat constructor; lia.
Defined.

(** ** The checks of the two older builds *)

Lemma firstImpossible_february (months days : list Z) :
  Older.firstImpossible 28 months days = None ->
  Older.firstImpossible 29 months days = None.
Proof.
  rewrite !firstImpossible_None. intros H m d Hm Hd. specialize (H m d Hm Hd).
  destruct (Z.eq_dec m 2) as [-> | Hne].
  - destruct (proj1 (maxD_february 2) eq_refl) as [H28 H29]. lia.
  - rewrite <- (proj2 (maxD_february m) Hne). exact H.
Qed.

(** Every state that [isValid] of the earlier TypeScript source accepts
    passes the two checks at the end of the constructor of the compiled
    older build. *)
Theorem older_isValid_passes_crossChecks (this : Older.State) :
  Older.isValid this = true -> Older.crossChecks this = Ok tt.
Proof.
  unfold Older.isValid, Older.crossChecks. intros H.
  destruct (Older.notNull (Older.dayOfMonthSet this) && _ && _ && _ && _ && _).
  - destruct (Older.dayOfMonthSet this), (Older.monthSet this);
      try destruct (Older.notNull (Older.firstImpossible 28 _ _)); discriminate.
  - destruct (Older.dayOfMonthSet this) as [days |]; [| reflexivity].
    destruct (Older.monthSet this) as [months |]; [| reflexivity].
    destruct (Older.firstImpossible 28 months days) eqn:H28; [discriminate |].
    now rewrite (firstImpossible_february _ _ H28).
Qed.

(** Noon on the 15th of every month, ['0 0 12 15 * ?']. *)
Lemma older_isValid_passes_crossChecks_witness :
  Older.crossChecks
    (Older.mkState (Some [0]) (Some [0]) (Some [12]) (Some [15]) None None
                   (Some [2026]) false None false None None) = Ok tt.
Proof.
  apply older_isValid_passes_crossChecks. vm_compute. reflexivity.
Defined.

(** ** The nearest weekday in the earlier TypeScript source *)

(** For a target that is a day of the month, the day set of the main build
    under the nearest-weekday modifier is the day that [getNearestWeekday]
    of the earlier TypeScript source answers. *)
Theorem nearest_weekday_of_the_builds (p : CronParser) (target y m : Z) :
  NearestWeekdayTo p target ->
  1 <= m <= 12 ->
  1 <= target <= Luxon.daysInMonth y m ->
  getDayOfMonthSet p y m = [Older.getNearestWeekday y m target].
Proof.
  intros [Hf Hl Hlw Ht] Hm Htarget. unfold getDayOfMonthSet, Luxon.daysInMonthOf.
  rewrite (proj2 (inRange_true 1 12 m) Hm), Hl, Hlw, Hf.
  destruct (values (daysOfMonth p)) as [| t ts] eqn:Hv; [discriminate |].
  simpl in Ht. inversion Ht; subst t. cbv zeta.
  rewrite fromObject_midnight by (split; assumption).
  unfold Older.getNearestWeekday, dowOf. cbv zeta.
  assert (Hw : 1 <= Luxon.weekday y m target <= 7).
  { unfold Luxon.weekday. cbv zeta.
    pose proof (Z.mod_pos_bound (Luxon.daysFromCivil y m target + 4) 7 ltac:(lia)).
    destruct (Z.eqb_spec ((Luxon.daysFromCivil y m target + 4) mod 7) 0); lia. }
  destruct (Z.eqb_spec (Luxon.weekday y m target) 7) as [E7 | N7].
  - change (0 =? 6) with false. change (0 =? 0) with true. cbv iota. f_equal. lia.
  - rewrite Z.mod_small by lia.
    destruct (Z.eqb_spec (Luxon.weekday y m target) 6) as [E6 | N6].
    + f_equal. lia.
    + destruct (Z.eqb_spec (Luxon.weekday y m target) 0); [lia |]. f_equal. lia.
Qed.

(** October 2025: the 27th for the 26th. *)
Lemma nearest_weekday_of_the_builds_witness :
  getDayOfMonthSet nearest26Schedule 2025 10 = [Older.getNearestWeekday 2025 10 26].
Proof.
  apply (nearest_weekday_of_the_builds nearest26Schedule 26 2025 10).
  - exact nearest26Schedule_NearestWeekdayTo.
  - lia.
  - unfold Luxon.daysInMonth. simpl. lia.
Defined.

(** ** The field parser of the earlier TypeScript source *)

Lemma checkedRange_bounds (text : string) (a b : jsnum) (min max s e : Z) :
  Older.checkedRange text a b min max = Ok (s, e) -> min <= s /\ s <= e /\ e <= max.
Proof.
  unfold Older.checkedRange. destruct a as [x |], b as [y |]; try discriminate.
  destruct (Z.ltb_spec x min) as [Hc1a | Hc1b]; [discriminate |].
  destruct (Z.gtb_spec y max) as [Hc2a | Hc2b]; [discriminate |].
  destruct (Z.gtb_spec x y) as [Hc3a | Hc3b]; [discriminate |].
  cbn [orb]. intros Hok. inversion Hok; subst. lia.
Qed.

Lemma checkedRange_terminates (text : string) (a b : jsnum) (min max : Z) :
  outOfFuel (Older.checkedRange text a b min max) = false.
Proof. unfold Older.checkedRange. repeat break_match; reflexivity. Qed.

Lemma older_parsePart_terminates (fuel : nat) (part : string) (min max : Z)
      (values : list Z) :
  max - min < Z.of_nat fuel ->
  outOfFuel (Older.parsePart fuel part min max values) = false.
Proof.
  intros Hf. unfold Older.parsePart. cbv zeta.
  destruct (includesChar "/" part).
  { destruct (parseInt _) as [s |]; [| reflexivity].
    destruct (Z.leb_spec s 0) as [Hc4a | Hc4b]; [reflexivity |].
    apply outOfFuel_bind; [apply checkedRange_terminates |].
    intros [a b] Hr. apply checkedRange_bounds in Hr.
    apply stepLoop_terminates; lia. }
  destruct (includesChar "-" part).
  { apply outOfFuel_bind; [apply checkedRange_terminates |].
    intros [a b] Hr. apply checkedRange_bounds in Hr.
    apply stepLoop_terminates; lia. }
  repeat break_match; reflexivity.
Qed.

Lemma older_parseParts_terminates (fuel : nat) (min max : Z) (parts : list string) :
  max - min < Z.of_nat fuel ->
  forall values, outOfFuel (Older.parseParts fuel parts min max values) = false.
Proof.
  intros Hf. induction parts as [| part rest IH]; intros values; simpl; [reflexivity |].
  apply outOfFuel_bind; [now apply older_parsePart_terminates |].
  intros vs _. apply IH.
Qed.

(** What one part adds: values of the domain; and a part with a step is
    accepted with a positive step only. *)
Lemma older_parsePart_Ok (fuel : nat) (part : string) (min max : Z)
      (values vs : list Z) :
  Older.parsePart fuel part min max values = Ok vs ->
  (exists new, vs = values ++ new /\ new <> [] /\ within min max new)
  /\ (includesChar "/" part = true ->
      exists s, parseInt (nth 1 (split "/" part) ""%string) = Num s /\ 0 < s).
Proof.
  unfold Older.parsePart. cbv zeta.
  destruct (includesChar "/" part).
  { destruct (parseInt (nth 1 (split "/" part) ""%string)) as [s |]; [| discriminate].
    destruct (Z.leb_spec s 0) as [Hc5a | Hc5b]; [discriminate |]. intros Hok.
    apply bind_Ok_inv in Hok. destruct Hok as [[a b] [Hr H]].
    apply checkedRange_bounds in Hr.
    apply stepLoop_values in H. destruct H as [new [Hvs [_ [Hw Hne]]]].
    split.
    - exists new. split; [assumption |]. split; [apply Hne; lia |].
      eapply within_weaken; [| | exact Hw]; lia.
    - intros _. exists s. split; [reflexivity | lia]. }
  destruct (includesChar "-" part).
  { intros Hok. apply bind_Ok_inv in Hok. destruct Hok as [[a b] [Hr H]].
    apply checkedRange_bounds in Hr.
    apply stepLoop_values in H. destruct H as [new [Hvs [_ [Hw Hne]]]].
    split; [| discriminate].
    exists new. split; [assumption |]. split; [apply Hne; lia |].
    eapply within_weaken; [| | exact Hw]; lia. }
  destruct (parseInt part) as [n |]; [| discriminate].
  destruct (Z.ltb_spec n min) as [Hc6a | Hc6b]; [discriminate |].
  destruct (Z.gtb_spec n max) as [Hc7a | Hc7b]; [discriminate |].
  cbn [orb]. intros Hok. inversion Hok; subst vs. split; [| discriminate].
  exists [n]. split; [reflexivity |]. split; [discriminate |].
  constructor; [lia | constructor].
Qed.

Lemma older_parseParts_Ok (fuel : nat) (min max : Z) (parts : list string) :
  forall values vs,
    Older.parseParts fuel parts min max values = Ok vs ->
    (exists new, vs = values ++ new /\ within min max new /\ (parts <> [] -> new <> []))
    /\ forall part, In part parts -> includesChar "/" part = true ->
                    exists s, parseInt (nth 1 (split "/" part) ""%string) = Num s
                              /\ 0 < s.
Proof.
  induction parts as [| part rest IH]; intros values vs H; simpl in H.
  - inversion H; subst. split; [| intros part []].
    exists []. rewrite app_nil_r. split; [reflexivity |]. split; [constructor | congruence].
  - apply bind_Ok_inv in H. destruct H as [mid [Hp H]].
    apply older_parsePart_Ok in Hp. destruct Hp as [[new1 [Hmid [Hne1 Hw1]]] Hstep].
    apply IH in H. destruct H as [[new2 [Hvs [Hw2 _]]] Hsteps].
    split.
    + exists (new1 ++ new2). subst. rewrite app_assoc. split; [reflexivity |].
      split; [apply Forall_app; now split |].
      intros _. destruct new1; [congruence | discriminate].
    + intros q [<- | Hq]; [exact Hstep | now apply Hsteps].
Qed.

(** [parseField] of the earlier TypeScript source, as its constructor calls
    it for seconds, minutes, hours and years.  With more fuel than the
    domain has values it never runs out of fuel: its loops stop on every
    field.  In a field it accepts, every part with a step has a positive
    step (a step that is zero, negative or no number is refused), and the
    values it answers are strictly ascending values of the domain. *)
Theorem older_parseField_steps (fuel : nat) (field : string) (min max : Z) :
  max - min < Z.of_nat fuel ->
  outOfFuel (Older.parseField fuel field min max) = false
  /\ forall r,
      Older.parseField fuel field min max = Ok r ->
      (forall part, In part (split "," field) -> includesChar "/" part = true ->
                    exists s, parseInt (nth 1 (split "/" part) ""%string) = Num s
                              /\ 0 < s)
      /\ match r with
         | Some vs => vs <> [] /\ strictlyAscending vs /\ within min max vs
         | None => True
         end.
Proof.
  intros Hf. unfold Older.parseField. split.
  - destruct (_ || _); [reflexivity |].
    apply outOfFuel_bind; [now apply older_parseParts_terminates | reflexivity].
  - intros r H.
    destruct (String.eqb_spec field "*") as [-> | Hstar].
    { inversion H; subst r. split; [| exact I].
      intros part [<- | []]. discriminate. }
    destruct (String.eqb_spec field "?") as [-> | Hq].
    { inversion H; subst r. split; [| exact I].
      intros part [<- | []]. discriminate. }
    cbn [orb] in H. apply bind_Ok_inv in H. destruct H as [vs [Hvs H]].
    apply older_parseParts_Ok in Hvs. destruct Hvs as [[new [Hnew [Hw Hne]]] Hsteps].
    simpl in Hnew. subst new. split; [exact Hsteps |].
    specialize (Hne (split_nonempty _ _)).
    destruct vs as [| v0 vs']; [congruence |].
    destruct (sortAsc_uniq (v0 :: vs')) as [Hs Hin].
    change (Z.of_nat (List.length (v0 :: vs')) >? 0) with true in H. cbv iota in H.
    set (sorted := sortAsc (uniq (v0 :: vs'))) in *.
    injection H as <-. split; [| split].
    + intros Hnil. assert (Hi : In v0 sorted) by (apply Hin; now left).
      rewrite Hnil in Hi. contradiction.
    + exact Hs.
    + apply within_In. intros y Hy. apply (proj1 (Hin y)) in Hy.
      rewrite within_In in Hw. now apply Hw.
Qed.

(** The minutes ['*/15']. *)
Lemma older_parseField_steps_witness :
  outOfFuel (Older.parseField parseFuel "*/15" 0 59) = false
  /\ forall r,
      Older.parseField parseFuel "*/15" 0 59 = Ok r ->
      (forall part, In part (split "," "*/15") -> includesChar "/" part = true ->
                    exists s, parseInt (nth 1 (split "/" part) ""%string) = Num s
                              /\ 0 < s)
      /\ match r with
         | Some vs => vs <> [] /\ strictlyAscending vs /\ within 0 59 vs
         | None => True
         end.
Proof.
  apply (older_parseField_steps parseFuel "*/15" 0 59).
  vm_compute. reflexivity.
Defined.

(** ** The schedule of 29 February *)

(** For a schedule of day 29 in February the effective day set of February
    is empty in a non-leap year and [29] in a leap year, so every instant
    either search returns is a 29 February of a leap year.  For
    ['0 0 0 29 FEB ?'] the forward search from a cursor in the years 1970 to
    2096 answers 29 February of the first leap year from the cursor's year
    on, and the backward search from a cursor in the years 1973 to 2099
    answers 29 February of the last leap year up to the cursor's year; the
    cursor's own year counts, whether its 29 February is behind the cursor
    or ahead of it. *)
Theorem feb29_only_in_leap_years (p : CronParser) :
  Feb29Only p ->
  (forall y, Luxon.isLeapYear y = false -> getDayOfMonthSet p y 2 = [])
  /\ (forall y, Luxon.isLeapYear y = true -> getDayOfMonthSet p y 2 = [29])
  /\ (forall dir from r,
         search dir p from = Some r ->
         Luxon.month r = 2 /\ Luxon.day r = 29 /\ Luxon.isLeapYear (Luxon.year r) = true)
  /\ (forall c,
         1970 <= Luxon.year c <= 2096 ->
         exists Y,
           getNextFireTime feb29Schedule (Luxon.Valid c)
           = Some (Luxon.mkCivil Y 2 29 0 0 0)
           /\ Luxon.year c <= Y
           /\ Luxon.isLeapYear Y = true
           /\ forall y, Luxon.year c <= y < Y -> Luxon.isLeapYear y = false)
  /\ (forall before c,
         Luxon.plusSeconds before (-1) = Luxon.Valid c ->
         1973 <= Luxon.year c <= 2099 ->
         exists Y,
           getPreviousFireTime feb29Schedule before
           = Some (Luxon.mkCivil Y 2 29 0 0 0)
           /\ Y <= Luxon.year c
           /\ Luxon.isLeapYear Y = true
           /\ forall y, Y < y <= Luxon.year c -> Luxon.isLeapYear y = false).
Proof.
  intros Hp. split; [| split; [| split; [| split]]].
  - intros y Hy. rewrite (feb29_daySet p y Hp), Hy. reflexivity.
  - intros y Hy. rewrite (feb29_daySet p y Hp), Hy. reflexivity.
  - intros dir from r H. apply search_found, isMatch_Satisfies in H.
    destruct H as [_ Hm Hd _ _ _ _].
    apply (fieldAdmits_singleton _ 2) in Hm; [| apply (f29_months p Hp)].
    rewrite Hm in Hd. rewrite (feb29_daySet p _ Hp) in Hd.
    destruct (Luxon.isLeapYear (Luxon.year r)); simpl in Hd; [| contradiction].
    destruct Hd as [Hd | []]. repeat split; [assumption | now symmetry].
  - intros c Hc. now apply feb29_next_leap_year.
  - intros before c Hb Hc. unfold getPreviousFireTime. rewrite Hb.
    now apply feb29_prev_leap_year_from.
Qed.

(** ['0 0 0 29 FEB ?'] in 2025, no leap year, and in 2028. *)
Lemma feb29_only_in_leap_years_witness :
  getDayOfMonthSet feb29Schedule 2025 2 = []
  /\ getDayOfMonthSet feb29Schedule 2028 2 = [29].
Proof.
  pose proof (feb29_only_in_leap_years feb29Schedule feb29Schedule_Feb29Only)
    as [Hnon [Hleap _]].
  split; [apply Hnon; reflexivity | apply Hleap; reflexivity].
Defined.

(** * The claims *)

(** C1: whatever instant the forward search ([getNextFireTime]) or the
    backward search ([getPreviousFireTime]) returns is accepted by the
    full-constraint match predicate [isMatch], that is, it satisfies the
    year, month, effective day-of-month, day-of-week, hour, minute and second
    constraints of the schedule. *)
Theorem fire_time_satisfies_schedule (dir : Direction) (p : CronParser)
        (from : Luxon.DateTime) (r : Luxon.Civil) :
  search dir p from = Some r ->
  isMatch p (Luxon.Valid r) = true /\ Satisfies p r.
Proof.
  intros H. apply search_found in H. split; [assumption |].
  now apply isMatch_Satisfies.
Qed.

Lemma fire_time_satisfies_schedule_witness :
  search Forward feb29Schedule (Luxon.Valid (Luxon.fromSeconds 0 reference))
  = Some (Luxon.mkCivil 2028 2 29 0 0 0)
  /\ isMatch feb29Schedule (Luxon.Valid (Luxon.mkCivil 2028 2 29 0 0 0)) = true
  /\ Satisfies feb29Schedule (Luxon.mkCivil 2028 2 29 0 0 0).
Proof.
  split; [vm_compute; reflexivity |].
  apply (fire_time_satisfies_schedule Forward feb29Schedule
           (Luxon.Valid (Luxon.fromSeconds 0 reference))).
  vm_compute. reflexivity.
Defined.

(** C2 (the code departs from the claim): [next] can return the reference
    instant itself or an earlier one, and [previous] a later one.  From
    2025-09-28T12:00:00Z, ['0 * * * *'] answers the reference itself,
    ['0 0 0 ? JAN MON'] answers 2025-01-06T00:00:00Z, and [previous] of
    ['0 0 0 1 11 ?'] answers 2025-11-01T00:00:00Z. *)
Theorem next_previous_ordering_violated :
  nextOf "0 * * * *" 0 reference = Ok reference
  /\ nextOf "0 0 0 ? JAN MON" 0 reference = Ok 1736121600
  /\ 1736121600 < reference
  /\ previousOf "0 0 0 1 11 ?" 0 reference = Ok 1761955200
  /\ reference < 1761955200.
Proof. repeat split; vm_compute; reflexivity. Qed.

(** C3 (the code departs from the claim for 5-field expressions): the
    6-field ['0 0 0 1 * 1,2'] is rejected with the conflict error, but the
    check reads [fields[3]] and [fields[5]] whatever the number of fields,
    so the 5-field ['0 0 1 * 1,2'], whose day-of-month [1] and day-of-week
    [1,2] are both explicit and carry no modifier, is accepted, while the
    5-field ['0 0 * 4 *'], whose day fields are both wildcards, is rejected
    with the conflict error. *)
Theorem conflict_check_misses_five_fields :
  newCronParser 0 parseFuel "0 0 0 1 * 1,2" 0 = Throw DayFieldsConflict
  /\ message DayFieldsConflict
     = "Both day-of-month and day-of-week cannot be specified unless one is * or ?"%string
  /\ newCronParser 0 parseFuel "0 0 1 * 1,2" 0
     = Ok {| timezone := 0;
             seconds := only 0; minutes := only 0; hours := only 0;
             daysOfMonth := only 1;
             months := mkField [1; 2; 3; 4; 5; 6; 7; 8; 9; 10; 11; 12] None;
             daysOfWeek := mkField [1; 2] None;
             years := emptyField;
             dayOfMonthModifiers := noDayOfMonthModifiers;
             dayOfWeekModifiers := noDayOfWeekModifiers;
             cronString := "0 0 1 * 1,2" |}
  /\ newCronParser 0 parseFuel "0 0 * 4 *" 0 = Throw DayFieldsConflict.
Proof. repeat split; vm_compute; reflexivity. Qed.

(** C4 (the code departs from the claim): the constructor never raises the
    impossible-date error, whatever the expression: [parseDayOfMonth] runs
    before [parseMonth], so the month set is still empty when the check
    looks at it.  ['0 0 0 31 4 ?'], ['0 0 0 30 2 ?'] and ['0 0 0 31 FEB ?']
    are all accepted. *)
Theorem impossible_date_never_rejected (now : Z) (fuel : nat) (cronString : string)
        (timezone : Z) :
  raisesInvalidDate (newCronParser now fuel cronString timezone) = false
  /\ newCronParser 0 parseFuel "0 0 0 31 4 ?" 0
     = Ok {| timezone := 0;
             seconds := only 0; minutes := only 0; hours := only 0;
             daysOfMonth := only 31; months := only 4;
             daysOfWeek := emptyField; years := emptyField;
             dayOfMonthModifiers := noDayOfMonthModifiers;
             dayOfWeekModifiers := noDayOfWeekModifiers;
             cronString := "0 0 0 31 4 ?" |}
  /\ newCronParser 0 parseFuel "0 0 0 30 2 ?" 0
     = Ok {| timezone := 0;
             seconds := only 0; minutes := only 0; hours := only 0;
             daysOfMonth := only 30; months := only 2;
             daysOfWeek := emptyField; years := emptyField;
             dayOfMonthModifiers := noDayOfMonthModifiers;
             dayOfWeekModifiers := noDayOfWeekModifiers;
             cronString := "0 0 0 30 2 ?" |}
  /\ newCronParser 0 parseFuel "0 0 0 31 FEB ?" 0
     = Ok {| timezone := 0;
             seconds := only 0; minutes := only 0; hours := only 0;
             daysOfMonth := only 31; months := only 2;
             daysOfWeek := emptyField; years := emptyField;
             dayOfMonthModifiers := noDayOfMonthModifiers;
             dayOfWeekModifiers := noDayOfWeekModifiers;
             cronString := "0 0 0 31 FEB ?" |}.
Proof.
  split; [| repeat split; vm_compute; reflexivity].
  unfold newCronParser. apply parse_no_date. reflexivity.
Qed.

(** C5 (the code departs from the claim in the direction of the skip): the
    schedule ['0 0 0 29 FEB ?'] fires on 29 February of leap years only, and
    from 2025-09-28T12:00:00Z [next] is 1835395200 (2028-02-29T00:00:00Z)
    and [previous] is 1709164800 (2024-02-29T00:00:00Z), as the claim says;
    but the search does not always skip in the given direction.  From any
    cursor in a leap year, whatever its month, day and time, the forward
    search answers 29 February of that same year, and so does the backward
    search: [next] from 2028-06-01T00:00:00Z answers 2028-02-29, behind the
    start, and [previous] from 2024-01-15T00:00:00Z answers 2024-02-29,
    ahead of it.  Past the last leap year the forward search wraps to 1970:
    [next] from 2097-06-01T00:00:00Z answers 1972-02-29; before the first
    one the backward search wraps to 2099: [previous] from
    1971-06-01T00:00:00Z answers 2096-02-29. *)
Theorem feb29_search_against_direction :
  nextOf "0 0 0 29 FEB ?" 0 reference = Ok 1835395200
  /\ previousOf "0 0 0 29 FEB ?" 0 reference = Ok 1709164800
  /\ (forall c, 1970 <= Luxon.year c <= 2099 ->
                Luxon.isLeapYear (Luxon.year c) = true ->
                getNextFireTime feb29Schedule (Luxon.Valid c)
                = Some (Luxon.mkCivil (Luxon.year c) 2 29 0 0 0))
  /\ (forall before c, Luxon.plusSeconds before (-1) = Luxon.Valid c ->
                       1970 <= Luxon.year c <= 2099 ->
                       Luxon.isLeapYear (Luxon.year c) = true ->
                       getPreviousFireTime feb29Schedule before
                       = Some (Luxon.mkCivil (Luxon.year c) 2 29 0 0 0))
  /\ Luxon.fromSeconds 0 1843430400 = Luxon.mkCivil 2028 6 1 0 0 0
  /\ nextOf "0 0 0 29 FEB ?" 0 1843430400 = Ok 1835395200
  /\ 1835395200 < 1843430400
  /\ Luxon.fromSeconds 0 1705276800 = Luxon.mkCivil 2024 1 15 0 0 0
  /\ previousOf "0 0 0 29 FEB ?" 0 1705276800 = Ok 1709164800
  /\ 1705276800 < 1709164800
  /\ Luxon.fromSeconds 0 4020883200 = Luxon.mkCivil 2097 6 1 0 0 0
  /\ nextOf "0 0 0 29 FEB ?" 0 4020883200 = Ok 68169600
  /\ Luxon.fromSeconds 0 68169600 = Luxon.mkCivil 1972 2 29 0 0 0
  /\ Luxon.fromSeconds 0 44582400 = Luxon.mkCivil 1971 6 1 0 0 0
  /\ previousOf "0 0 0 29 FEB ?" 0 44582400 = Ok 3981312000
  /\ Luxon.fromSeconds 0 3981312000 = Luxon.mkCivil 2096 2 29 0 0 0.
Proof.
  split; [vm_compute; reflexivity |].
  split; [vm_compute; reflexivity |].
  split.
  { intros c Hy Hleap. unfold getNextFireTime.
    change maxIter with (S (Z.to_nat 9999)).
    now apply feb29_next_from. }
  split.
  { intros before c Hb Hy Hleap. unfold getPreviousFireTime. rewrite Hb.
    change maxIter with (S (Z.to_nat 9999)).
    now apply feb29_prev_from. }
  repeat split; vm_compute; reflexivity.
Qed.

(** C6: both searches stop within 10,000 passes through their loop, and
    stop at once when the year of the cursor is past the active limit (the
    greatest year of the year field, or 2099 when it is empty, going forward;
    the least year, or 1970, going backward); [next] and [previous] then
    answer either an instant or the no-execution-time error, never anything
    else, and the error exactly when the search found nothing. *)
Theorem search_is_bounded (p : CronParser) (now : Z) (from : option Z) :
  Z.of_nat (snd (nextLoop p maxIter 0 (startOf p now from))) <= 10000
  /\ Z.of_nat (snd (prevLoop p maxIter 0
                      (Luxon.plusSeconds (startOf p now from) (-1)))) <= 10000
  /\ (forall remaining iter c,
         maxYearOf p < Luxon.year c ->
         nextLoop p remaining iter (Luxon.Valid c) = (None, iter))
  /\ (forall remaining iter c,
         Luxon.year c < minYearOf p ->
         prevLoop p remaining iter (Luxon.Valid c) = (None, iter))
  /\ (values (years p) = [] -> maxYearOf p = 2099 /\ minYearOf p = 1970)
  /\ (values (years p) <> [] ->
      In (maxYearOf p) (values (years p)) /\ In (minYearOf p) (values (years p))
      /\ forall y, In y (values (years p)) -> minYearOf p <= y <= maxYearOf p)
  /\ (getNextFireTime p (startOf p now from) = None ->
      next p now from = Throw NoNextExecution)
  /\ (getPreviousFireTime p (startOf p now from) = None ->
      previous p now from = Throw NoPreviousExecution)
  /\ (next p now from = Throw NoNextExecution \/ exists t, next p now from = Ok t)
  /\ (previous p now from = Throw NoPreviousExecution
      \/ exists t, previous p now from = Ok t).
Proof.
  split; [| split; [| split; [| split; [| split; [| split;
    [| split; [| split; [| split]]]]]]]].
  - pose proof (nextLoop_iter_bound p maxIter 0 (startOf p now from)) as H.
    unfold maxIter in *. lia.
  - pose proof (prevLoop_iter_bound p maxIter 0
                  (Luxon.plusSeconds (startOf p now from) (-1))) as H.
    unfold maxIter in *. lia.
  - intros remaining iter c. apply nextLoop_past_maxYear.
  - intros remaining iter c. apply prevLoop_before_minYear.
  - apply year_limits.
  - apply year_limits.
  - unfold next. intros H. rewrite H. reflexivity.
  - unfold previous. intros H. rewrite H. reflexivity.
  - unfold next. destruct (getNextFireTime p (startOf p now from)) as [r |].
    + right. eexists. reflexivity.
    + now left.
  - unfold previous. destruct (getPreviousFireTime p (startOf p now from)) as [r |].
    + right. eexists. reflexivity.
    + now left.
Qed.

(** Without a match the forward loop gives up after exactly 10,000 passes
    and [next] raises the error. *)
Lemma search_is_bounded_witness :
  nextLoop feb29In2025 maxIter 0 (startOf feb29In2025 reference (Some reference))
  = (None, maxIter)
  /\ next feb29In2025 reference (Some reference) = Throw NoNextExecution.
Proof.
  assert (H : nextLoop feb29In2025 maxIter 0
                (startOf feb29In2025 reference (Some reference)) = (None, maxIter))
    by (vm_compute; reflexivity).
  split; [exact H |].
  apply (search_is_bounded feb29In2025 reference (Some reference)).
  unfold getNextFireTime. rewrite H. reflexivity.
Defined.

(** C7 (the code departs from the claim for negative steps): a zero step
    is rejected with the step error, but the test is [step === 0], so the
    step [-1] of ['0-59/-1'] passes it and the loop
    [for (i = start; i <= end; i += step)] never ends: with any amount of
    fuel the constructor runs out of it, and no error is raised. *)
Theorem negative_step_not_rejected (now : Z) (fuel : nat) (timezone : Z) :
  newCronParser now (S fuel) "0 */0 * * * ?" timezone = Throw (InvalidStep "*/0")
  /\ message (InvalidStep "*/0") = "Invalid step value in */0"%string
  /\ newCronParser now fuel "0 0-59/-1 * * * ?" timezone = OutOfFuel.
Proof.
  split; [reflexivity | split; [reflexivity |]].
  destruct fuel as [| f]; [reflexivity |].
  unfold newCronParser, parse.
  change (trimSplit "0 0-59/-1 * * * ?")
    with ["0"; "0-59/-1"; "*"; "*"; "*"; "?"]%string.
  cbv zeta.
  cbn [List.length Nat.ltb Nat.leb orb nth_error isExplicit String.eqb Ascii.eqb
       Bool.eqb negb andb nth Nat.add].
  change (parseField (S f) "0" 0 59) with (Ok (only 0)).
  cbn [bind].
  assert (Hm : parseField (S f) "0-59/-1" 0 59 = OutOfFuel).
  { cbn -[stepLoop parseInt parseRange].
    change (parseInt "-1") with (Num (-1)).
    change (parseRange "0-59" 0 59) with (@Ok (Z * Z) (0, 59)).
    cbn [bind]. rewrite stepLoop_negative_diverges by lia. reflexivity. }
  rewrite Hm. reflexivity.
Qed.

(** C8 (the code departs from the claim in its example): the schedule
    ['0 0 0 26W * ?'] resolves to the 26th in September 2025 (a Friday) and
    to the 27th in October 2025 (the 26th is a Sunday), but searched forward
    from 2025-09-28T12:00:00Z it answers 2025-09-26T00:00:00Z, two days
    before the reference, and not 2025-10-27T00:00:00Z (1761523200): no day
    of the set is on or after the 28th, [getNextValue] wraps to the first
    one, and the month is not advanced. *)
Theorem nearest_weekday_example_wraps_back :
  newCronParser reference parseFuel "0 0 0 26W * ?" 0 = Ok nearest26Schedule
  /\ getDayOfMonthSet nearest26Schedule 2025 9 = [26]
  /\ getDayOfMonthSet nearest26Schedule 2025 10 = [27]
  /\ getNextValue [26] 28 = Some 26
  /\ next nearest26Schedule reference (Some reference) = Ok 1758844800
  /\ Luxon.fromSeconds 0 1758844800 = Luxon.mkCivil 2025 9 26 0 0 0
  /\ Luxon.toUnixInteger 0 (Luxon.mkCivil 2025 10 27 0 0 0) = 1761523200.
Proof. repeat split; vm_compute; reflexivity. Qed.

(** C9: an expression of 5 or 6 fields leaves the year field empty
    (unconstrained), so that the year check of [isMatch] admits every
    year, and the model the constructor builds does not depend on the wall
    clock. *)
Theorem absent_year_is_unconstrained (now now' : Z) (fuel : nat) (cronString : string)
        (timezone : Z) (p : CronParser) :
  newCronParser now fuel cronString timezone = Ok p ->
  List.length (trimSplit cronString) <> 7%nat ->
  years p = emptyField
  /\ (forall y, fieldAdmits (years p) y = true)
  /\ maxYearOf p = 2099 /\ minYearOf p = 1970
  /\ newCronParser now' fuel cronString timezone = Ok p.
Proof.
  intros H Hn. unfold newCronParser in *.
  pose proof (parse_years _ _ _ _ H Hn) as Hy. simpl in Hy.
  repeat split; try assumption.
  - intros y. unfold fieldAdmits. rewrite Hy. reflexivity.
  - unfold maxYearOf. rewrite Hy. reflexivity.
  - unfold minYearOf. rewrite Hy. reflexivity.
Qed.

Lemma absent_year_is_unconstrained_witness :
  years feb29Schedule = emptyField
  /\ (forall y, fieldAdmits (years feb29Schedule) y = true)
  /\ maxYearOf feb29Schedule = 2099 /\ minYearOf feb29Schedule = 1970
  /\ newCronParser 4102444799 parseFuel "0 0 0 29 FEB ?" 0 = Ok feb29Schedule.
Proof.
  apply (absent_year_is_unconstrained reference 4102444799 parseFuel
           "0 0 0 29 FEB ?" 0 feb29Schedule).
  - reflexivity.
  - vm_compute. discriminate.
Defined.

(** C10: on a non-empty list [getNextValue] and [getPreviousValue] always
    return an element of the list, never [undefined]: on an ascending list
    the smallest element that is at least the probe (the first element when
    there is none), and the largest element that is at most the probe (the
    last element when there is none).  The candidate lists of hours, minutes
    and seconds are never empty, so no pass through the body of either
    search loop leaves by one of the [=== undefined] carries of hour, minute
    or second. *)
Theorem value_pick_never_undefined (vals : list Z) (val : Z) (p : CronParser)
        (d : Luxon.Civil) :
  vals <> [] ->
  (exists x,
      getNextValue vals val = Some x /\ In x vals
      /\ (ascending vals ->
          (val <= x /\ forall y, In y vals -> val <= y -> x <= y)
          \/ ((forall y, In y vals -> y < val) /\ hd_error vals = Some x)))
  /\ (exists x,
         getPreviousValue vals val = Some x /\ In x vals
         /\ (ascending vals ->
             (x <= val /\ forall y, In y vals -> y <= val -> y <= x)
             \/ ((forall y, In y vals -> val < y) /\ hd_error (rev vals) = Some x)))
  /\ hourValues p <> [] /\ minuteValues p <> [] /\ secondValues p <> []
  /\ (forall b, leftBy (nextBody p d) = Some b -> isTimeCarry b = false)
  /\ (forall b, leftBy (prevBody p d) = Some b -> isTimeCarry b = false).
Proof.
  intros Hne. split; [| split].
  - destruct (getNextValue vals val) as [x |] eqn:Hx.
    + exists x. split; [reflexivity |]. split; [now apply getNextValue_In in Hx |].
      intros Hs. now apply getNextValue_ascending.
    + exfalso. revert Hx. now apply getNextValue_defined.
  - destruct (getPreviousValue vals val) as [x |] eqn:Hx.
    + exists x. split; [reflexivity |]. split; [now apply getPreviousValue_In in Hx |].
      intros Hs. now apply getPreviousValue_ascending.
    + exfalso. revert Hx. now apply getPreviousValue_defined.
  - split; [apply hourValues_nonempty |].
    split; [apply minuteValues_nonempty |].
    split; [apply secondValues_nonempty |].
    split; intros b Hb.
    + apply nextBody_no_time_carry in Hb. subst b. reflexivity.
    + apply prevBody_no_time_carry in Hb. subst b. reflexivity.
Qed.

Lemma value_pick_never_undefined_witness :
  (exists x,
      getNextValue [0; 15; 30; 45] 50 = Some x /\ In x [0; 15; 30; 45]
      /\ (ascending [0; 15; 30; 45] ->
          (50 <= x /\ forall y, In y [0; 15; 30; 45] -> 50 <= y -> x <= y)
          \/ ((forall y, In y [0; 15; 30; 45] -> y < 50)
              /\ hd_error [0; 15; 30; 45] = Some x)))
  /\ getNextValue [0; 15; 30; 45] 50 = Some 0
  /\ getPreviousValue [0; 15; 30; 45] 20 = Some 15.
Proof.
  split; [| split; reflexivity].
  apply (value_pick_never_undefined [0; 15; 30; 45] 50 feb29Schedule
           (Luxon.fromSeconds 0 reference)).
  discriminate.
Defined.
